(** * coinmarketcap-analyze: the extraction and persistence steps of [main.py]

    The script fetches a rendered page, extracts (name, capitalization,
    percentage) records from the first table body and writes them to a
    semicolon-delimited file named after the current time.

    Conventions of the embedding.
    - A Python [str] is a [string]; a character is a code point below 256.
    - Python's [float] is IEEE 754 binary64, given by [spec_float] with
      precision 53 and maximal exponent 1024 and the operations of
      [SpecFloat] (round to nearest, ties to even).
    - The markup is the element tree that BeautifulSoup's [html.parser]
      builder makes of the page: tags with their name, their [class]
      tokens and their children, text nodes and comments. The functions
      take this tree where the script takes the text it is parsed from.
    - An uncaught Python exception is the [Raise] outcome of [result].
    - A run reads the rendered page and the clock from a [world] and
      leaves the files of its last field; opening and writing the file
      are taken to succeed, and [str] of a float, which [csv.writer]
      applies to the two numeric fields, is a parameter.
    - [Browser] and [Io] give [get_html] and [write_cmc_top] as the calls
      they make on the outside, recorded in a trace; there every call of
      the browser and every call on the file may raise. *)

From Stdlib Require Import ZArith NArith QArith Qabs Qpower Lqa Lia.
From Stdlib Require Import List String Ascii Bool SpecFloat.
Import ListNotations.

Close Scope Q_scope.

Local Open Scope string_scope.
Local Open Scope list_scope.

(** ** Uncaught exceptions *)

Inductive exn : Type :=
| AttributeError
| ValueError
| ZeroDivisionError.

Inductive result (A : Type) : Type :=
| Ok (a : A)
| Raise (e : exn).

Arguments Ok {A} a.
Arguments Raise {A} e.

Definition bind {A B : Type} (r : result A) (k : A -> result B) : result B :=
  match r with
  | Ok a => k a
  | Raise e => Raise e
  end.

Notation "x <- c ;; k" := (bind c (fun x => k))
  (at level 61, c at next level, right associativity).

(** A [for] loop that updates one local variable and may raise. *)
Fixpoint for_acc {A S : Type} (body : S -> A -> result S) (l : list A) (s : S)
  : result S :=
  match l with
  | [] => Ok s
  | a :: l' => s' <- body s a ;; for_acc body l' s'
  end.

(** A [for] loop that appends one item per iteration and may raise. *)
Fixpoint for_append {A B : Type} (body : A -> result B) (l : list A)
  : result (list B) :=
  match l with
  | [] => Ok []
  | a :: l' => b <- body a ;; bs <- for_append body l' ;; Ok (b :: bs)
  end.

(** ** Strings *)

Module Str.

Definition code (c : ascii) : N := N_of_ascii c.

Definition in_range (lo hi : N) (c : ascii) : bool :=
  ((lo <=? code c) && (code c <=? hi))%N.

(** [str.isspace] on one character (code points below 256). *)
Definition isspace (c : ascii) : bool :=
  in_range 9 13 c || in_range 28 32 c || (code c =? 133)%N || (code c =? 160)%N.

Definition isdigit (c : ascii) : bool := in_range 48 57 c.

(** The character of a decimal digit and back. *)
Definition digit_char (d : N) : ascii := ascii_of_N (48 + d).
Definition digit_value (c : ascii) : N := (code c - 48)%N.

Fixpoint lstrip_with (ws : ascii -> bool) (s : string) : string :=
  match s with
  | EmptyString => EmptyString
  | String c s' => if ws c then lstrip_with ws s' else s
  end.

Fixpoint rstrip_with (ws : ascii -> bool) (s : string) : string :=
  match s with
  | EmptyString => EmptyString
  | String c s' =>
      match rstrip_with ws s' with
      | EmptyString => if ws c then EmptyString else String c EmptyString
      | r => String c r
      end
  end.

Definition strip_with (ws : ascii -> bool) (s : string) : string :=
  rstrip_with ws (lstrip_with ws s).

(** [s.strip()] *)
Definition strip (s : string) : string := strip_with isspace s.

(** [s.replace(old, new)] for a one-character [old]. *)
Fixpoint replace (old : ascii) (new : string) (s : string) : string :=
  match s with
  | EmptyString => EmptyString
  | String c s' =>
      if Ascii.eqb c old then (new ++ replace old new s')%string
      else String c (replace old new s')
  end.

Definition lower (c : ascii) : ascii :=
  if in_range 65 90 c then ascii_of_N (code c + 32) else c.

Fixpoint lowercase (s : string) : string :=
  match s with
  | EmptyString => EmptyString
  | String c s' => String (lower c) (lowercase s')
  end.

(** [sep.join(l)] *)
Fixpoint join (sep : string) (l : list string) : string :=
  match l with
  | [] => EmptyString
  | [x] => x
  | x :: l' => (x ++ sep ++ join sep l')%string
  end.

End Str.

(** ** binary64 *)

Module Float.

Definition prec : Z := 53.
Definition emax : Z := 1024.

Definition float : Type := spec_float.

Definition add : float -> float -> float := SFadd prec emax.
Definition mul : float -> float -> float := SFmul prec emax.
Definition div : float -> float -> float := SFdiv prec emax.

(** [float(n)] for an integer [n]. *)
Definition of_Z (n : Z) : float := binary_normalize prec emax n 0 false.

(** [x == 0.0] *)
Definition is_zero (x : float) : bool :=
  match x with
  | S754_zero _ => true
  | _ => false
  end.

(** The decimal [(-1)^neg * m * 10^e] rounded to the nearest float:
    what CPython's correctly rounded [strtod] returns for it. *)
Definition strtod (neg : bool) (m : N) (e : Z) : float :=
  match m with
  | N0 => S754_zero neg
  | Npos p =>
      match e with
      | Zneg k =>
          let '(q, e', l) :=
            SFdiv_core_binary prec emax (Zpos p) 0 (Zpos (10 ^ k)) 0 in
          binary_round_aux prec emax neg q e' l
      | _ => binary_round prec emax neg (p * Z.to_pos (10 ^ e)) 0
      end
  end.

(** *** [float(s)] for a string [s] *)

(** White space [float] removes at both ends. *)
Definition isspace (c : ascii) : bool :=
  Str.in_range 9 13 c || (Str.code c =? 32)%N
  || (Str.code c =? 133)%N || (Str.code c =? 160)%N.

(** Underscores are dropped when they stand between two digits and
    refused anywhere else; [prev] is the character just read. *)
Fixpoint drop_underscores (prev : ascii) (s : string) : option string :=
  match s with
  | EmptyString => if Ascii.eqb prev "_" then None else Some EmptyString
  | String c s' =>
      if Ascii.eqb c "_" then
        if Str.isdigit prev then drop_underscores c s' else None
      else if Ascii.eqb prev "_" && negb (Str.isdigit c) then None
      else option_map (String c) (drop_underscores c s')
  end.

(** The longest prefix of digits, as digit values, and the rest. *)
Fixpoint take_digits (s : string) : list N * string :=
  match s with
  | EmptyString => ([], EmptyString)
  | String c s' =>
      if Str.isdigit c then
        let '(ds, r) := take_digits s' in (Str.digit_value c :: ds, r)
      else ([], s)
  end.

Definition decimal_value (ds : list N) : N :=
  fold_left (fun a d => (10 * a + d)%N) ds 0%N.

Definition take_sign (s : string) : bool * string :=
  match s with
  | String "-" r => (true, r)
  | String "+" r => (false, r)
  | _ => (false, s)
  end.

Definition is_nil {A : Type} (l : list A) : bool :=
  match l with
  | [] => true
  | _ => false
  end.

(** The exponent part: nothing, or [e] or [E], an optional sign and at
    least one digit, up to the end of the string. *)
Definition parse_exponent (s : string) : option Z :=
  match s with
  | EmptyString => Some 0%Z
  | String c r =>
      if Ascii.eqb (Str.lower c) "e" then
        let '(neg, r1) := take_sign r in
        let '(ds, r2) := take_digits r1 in
        match ds, r2 with
        | _ :: _, EmptyString =>
            let n := Z.of_N (decimal_value ds) in
            Some (if neg then (- n)%Z else n)
        | _, _ => None
        end
      else None
  end.

(** A decimal number without its sign: digits with an optional point
    and an optional exponent, at least one digit before the exponent. *)
Definition parse_number (neg : bool) (s : string) : option float :=
  let '(ip, r1) := take_digits s in
  let '(fp, r2) :=
    match r1 with
    | String "." r => take_digits r
    | _ => ([], r1)
    end in
  if is_nil ip && is_nil fp then None
  else
    match parse_exponent r2 with
    | Some x =>
        Some (strtod neg (decimal_value (ip ++ fp)%list)
                (x - Z.of_nat (List.length fp)))
    | None => None
    end.

Definition parse_inf_or_nan (neg : bool) (s : string) : option float :=
  let w := Str.lowercase s in
  if String.eqb w "inf" || String.eqb w "infinity" then Some (S754_infinity neg)
  else if String.eqb w "nan" then Some S754_nan
  else None.

(** [float(s)]; [None] is the [ValueError] of a string that is not a
    number. *)
Definition of_string (s : string) : option float :=
  match drop_underscores zero (Str.strip_with isspace s) with
  | None => None
  | Some t =>
      let '(neg, body) := take_sign t in
      match parse_number neg body with
      | Some x => Some x
      | None => parse_inf_or_nan neg body
      end
  end.

End Float.

(** ** The element tree *)

(** [Comment] stands for the string nodes [.text] leaves out, comments
    among them. *)
#[warnings="-register-all"]
Inductive node : Type :=
| NavigableString (s : string)
| Comment (s : string)
| Tag (name : string) (class_ : list string) (contents : list node).

(** The markup handed to [get_content]: the top-level nodes of the page. *)
Definition markup : Type := list node.

(** [BeautifulSoup(html_text, 'html.parser')]: the document object, a tag
    of its own above the top-level nodes. *)
Definition BeautifulSoup (html_text : markup) : node :=
  Tag "[document]" [] html_text.

(** [tag.descendants]: every node below [n], in document order. *)
Fixpoint descendants (n : node) : list node :=
  match n with
  | Tag _ _ cs => flat_map (fun c => c :: descendants c) cs
  | _ => []
  end.

(** [tag.text]: the text nodes below [n] concatenated, comments left out. *)
Fixpoint text (n : node) : string :=
  match n with
  | NavigableString s => s
  | Comment _ => EmptyString
  | Tag _ _ cs => fold_right (fun c acc => (text c ++ acc)%string) EmptyString cs
  end.

Definition has_name (name : string) (n : node) : bool :=
  match n with
  | Tag nm _ _ => String.eqb nm name
  | _ => false
  end.

(** How a multi-valued attribute matches a string: one of its tokens is
    the string, or the tokens joined by single spaces are. *)
Definition class_matches (cls : string) (tokens : list string) : bool :=
  existsb (fun t => String.eqb t cls) tokens
  || String.eqb (Str.join " " tokens) cls.

Definition has_class (cls : string) (n : node) : bool :=
  match n with
  | Tag _ tokens _ => class_matches cls tokens
  | _ => false
  end.

(** [tag.find(name)]: the first descendant tag of that name, or [None]. *)
Definition find (name : string) (n : node) : option node :=
  List.find (has_name name) (descendants n).

(** [tag.find_all(name, {'class': cls})] *)
Definition find_all (name cls : string) (n : node) : list node :=
  filter (fun d => has_name name d && has_class cls d) (descendants n).

(** ** Extraction: [get_content] *)

Definition coin_info : Type := string * Float.float * Float.float.

(** [float(s)] as a statement that may raise. *)
Definition float (s : string) : result Float.float :=
  match Float.of_string s with
  | Some x => Ok x
  | None => Raise ValueError
  end.

(** [a / b] on floats. *)
Definition truediv (a b : Float.float) : result Float.float :=
  if Float.is_zero b then Raise ZeroDivisionError else Ok (Float.div a b).

(** [s.strip().replace('$', '').replace(',', '')] *)
Definition clean (s : string) : string :=
  Str.replace "," EmptyString (Str.replace "$" EmptyString (Str.strip s)).

Definition cap_str (cap_tag : node) : string := clean (text cap_tag).

Definition name_class : string := "sc-4984dd93-0 kKpPOn".
Definition cap_class : string := "sc-7bc56c81-1 bCdPBp".

Definition coin_name_tags (table : node) : list node :=
  find_all "p" name_class table.

Definition capitalization_tags (table : node) : list node :=
  find_all "span" cap_class table.

(** The first loop: [total_market_cap += float(cap_str)]. *)
Definition add_cap (total : Float.float) (cap_tag : node) : result Float.float :=
  c <- float (cap_str cap_tag) ;;
  Ok (Float.add total c).

(** The body of the second loop, for one pair of [zip]. *)
Definition coin_row (total_market_cap : Float.float) (pair : node * node)
  : result coin_info :=
  let '(name_tag, cap_tag) := pair in
  let coin_name := Str.strip (text name_tag) in
  coin_cap <- float (cap_str cap_tag) ;;
  share <- truediv coin_cap total_market_cap ;;
  let market_percentage := Float.mul share (Float.of_Z 100) in
  Ok (coin_name, coin_cap, market_percentage).

(** [total_market_cap] starts as the integer [0]; the first addition
    turns it into a float, and it is divided by only after one. *)
Definition get_content (html_text : markup) : result (list coin_info) :=
  let soup := BeautifulSoup html_text in
  match find "tbody" soup with
  | None => Raise AttributeError
  | Some table =>
      let names := coin_name_tags table in
      let caps := capitalization_tags table in
      total_market_cap <- for_acc add_cap caps (Float.of_Z 0) ;;
      for_append (coin_row total_market_cap) (combine names caps)
  end.

(** ** Persistence: [write_cmc_top] *)

(** The fields of [datetime.datetime.now()] the script formats. *)
Record datetime : Type := {
  year : N;
  month : N;
  day : N;
  hour : N;
  minute : N
}.

Module Fmt.

(** The decimal digits of [n], most significant first. *)
Fixpoint digits (fuel : nat) (n : N) (acc : string) : string :=
  match fuel with
  | O => acc
  | S fuel' =>
      let acc' := String (Str.digit_char (n mod 10)) acc in
      if (n / 10 =? 0)%N then acc' else digits fuel' (n / 10)%N acc'
  end.

Definition decimal (n : N) : string :=
  digits (S (N.to_nat (N.log2 n))) n EmptyString.

(** The last [width] decimal digits of [n], put before [acc]. *)
Fixpoint low_digits (width : nat) (n : N) (acc : string) : string :=
  match width with
  | O => acc
  | S width' =>
      low_digits width' (n / 10)%N (String (Str.digit_char (n mod 10)) acc)
  end.

(** A number printed in at least [width] digits, padded with zeros: the
    digits above the last [width], when there are any, and those. *)
Definition zero_padded (width : nat) (n : N) : string :=
  let high := (n / 10 ^ N.of_nat width)%N in
  ((if (high =? 0)%N then EmptyString else decimal high)
   ++ low_digits width n EmptyString)%string.

(** One directive of [strftime]. *)
Definition directive (d : ascii) (t : datetime) : string :=
  if Ascii.eqb d "H" then zero_padded 2 (hour t)
  else if Ascii.eqb d "M" then zero_padded 2 (minute t)
  else if Ascii.eqb d "d" then zero_padded 2 (day t)
  else if Ascii.eqb d "m" then zero_padded 2 (month t)
  else if Ascii.eqb d "Y" then decimal (year t)
  else String "%" (String d EmptyString).

(** [t.strftime(fmt)] for the numeric directives above.  Hour, minute,
    day and month are padded with a zero to two digits.  The year is
    printed by the C library: in its four digits from the year 1000 on,
    and below that without leading zeros by glibc, which is what [%Y] is
    here (other C libraries pad it). *)
Fixpoint strftime (fmt : string) (t : datetime) : string :=
  match fmt with
  | EmptyString => EmptyString
  | String "%" (String d rest) => (directive d t ++ strftime rest t)%string
  | String c rest => String c (strftime rest t)
  end.

End Fmt.

Module Csv.

Definition delimiter : ascii := ";".
Definition quotechar : ascii := ascii_of_N 34.
Definition lineterminator : string :=
  String (ascii_of_N 13) (String (ascii_of_N 10) EmptyString).

Fixpoint mem (c : ascii) (s : string) : bool :=
  match s with
  | EmptyString => false
  | String d s' => Ascii.eqb c d || mem c s'
  end.

Definition special (c : ascii) : bool :=
  Ascii.eqb c delimiter || Ascii.eqb c quotechar || mem c lineterminator.

Fixpoint needs_quotes (s : string) : bool :=
  match s with
  | EmptyString => false
  | String c s' => special c || needs_quotes s'
  end.

(** Minimal quoting: a field holding a special character is put between
    quote characters, the quote characters inside it doubled. *)
Definition quoted (s : string) : string :=
  if needs_quotes s then
    String quotechar
      (Str.replace quotechar (String quotechar (String quotechar EmptyString)) s
       ++ String quotechar EmptyString)%string
  else s.

(** One row of at least two fields, without its line terminator. *)
Definition format_row (fields : list string) : string :=
  Str.join (String delimiter EmptyString) (map quoted fields).

(** A file under construction: the rows written so far, oldest first. *)
Definition writer : Type := list string.

Definition writerow (file : writer) (fields : list string) : writer :=
  file ++ [format_row fields].

(** The characters of the file: each row followed by the terminator. *)
Definition contents (file : writer) : string :=
  fold_right (fun r acc => (r ++ lineterminator ++ acc)%string) EmptyString file.

End Csv.

(** What a run reads from outside and leaves behind: the page the browser
    renders after the scroll cycles, the clock and the files by name. *)
Record world : Type := {
  page_source : markup;
  now : datetime;
  files : string -> option Csv.writer
}.

Definition get_html (w : world) : markup := page_source w.

(** [open(filename, mode='w')] followed by the writes and the close.
    Files are told apart by their names: two names are two files (no
    links, no file system that folds the case of names). *)
Definition store (filename : string) (file : Csv.writer)
    (fs : string -> option Csv.writer) : string -> option Csv.writer :=
  fun name => if String.eqb name filename then Some file else fs name.

Section Persistence.

(** [str(x)] of a float, as [csv.writer] renders a non-string field. *)
Variable float_repr : Float.float -> string.

Definition fields_of (coin : coin_info) : list string :=
  let '(coin_name, coin_cap, market_percentage) := coin in
  [coin_name; float_repr coin_cap; float_repr market_percentage].

Definition filename_of (t : datetime) : string :=
  ("Top100 " ++ Fmt.strftime "%H.%M %d.%m.%Y" t ++ ".csv")%string.

(** The outcome of a run and the files after it. *)
Definition write_cmc_top (w : world)
  : result unit * (string -> option Csv.writer) :=
  let html_text := get_html w in
  match get_content html_text with
  | Raise e => (Raise e, files w)
  | Ok coins_info =>
      let filename := filename_of (now w) in
      let file := Csv.writerow [] ["Name"; "MC"; "MP"] in
      let file := fold_left (fun f coin => Csv.writerow f (fields_of coin))
                    coins_info file in
      (Ok tt, store filename file (files w))
  end.

End Persistence.

(** * Notions used to state the properties *)

(** ** Extraction *)

(** [cap_tag] holds a capitalization that [float] reads as [c]. *)
Definition parses (cap_tag : node) (c : Float.float) : Prop :=
  Float.of_string (cap_str cap_tag) = Some c.

(** The value [total_market_cap] has after the first loop. *)
Definition total_of (cs : list Float.float) : Float.float :=
  fold_left Float.add cs (Float.of_Z 0).

(** The percentage of one amount against a total. *)
Definition percentage (total c : Float.float) : Float.float :=
  Float.mul (Float.div c total) (Float.of_Z 100).

(** The record the second loop appends for a name and a parsed amount. *)
Definition record_of (total : Float.float) (pair : node * Float.float)
  : coin_info :=
  (Str.strip (text (fst pair)), snd pair, percentage total (snd pair)).


(** A name element and a capitalization element as the page writes them. *)
Definition name_tag_of (s : string) : node :=
  Tag "p" ["sc-4984dd93-0"; "kKpPOn"] [NavigableString s].

Definition cap_tag_of (s : string) : node :=
  Tag "span" ["sc-7bc56c81-1"; "bCdPBp"] [NavigableString s].

(** A table body holding the given children, and a page with it inside a
    table. *)
Definition table_of (children : list node) : node := Tag "tbody" [] children.

Definition page_of (children : list node) : markup :=
  [Tag "table" [] [table_of children]].

(** ** Exact values of floats *)

Section ExactValues.

Local Open Scope Q_scope.

Definition pow2 (e : Z) : Q := 2 ^ e.

(** The value of a positive finite float. *)
Definition pos_value (m : positive) (e : Z) : Q := inject_Z (Zpos m) * pow2 e.

(** The exact value of a finite float; [0] for the others. *)
Definition value (x : Float.float) : Q :=
  match x with
  | S754_finite s m e => if s then - pos_value m e else pos_value m e
  | _ => 0
  end.

(** The unit roundoff of binary64. *)
Definition u : Q := 1 # 9007199254740992.

(** Where an exact value [x] lies in the slot of the mantissa [m] at
    exponent [e]: on [m], below, at or above the middle. *)
Definition located (m e : Z) (l : location) (x : Q) : Prop :=
  match l with
  | loc_Exact => x == inject_Z m * pow2 e
  | loc_Inexact Lt =>
      inject_Z m * pow2 e < x /\ x < (inject_Z m + (1#2)) * pow2 e
  | loc_Inexact Eq => x == (inject_Z m + (1#2)) * pow2 e
  | loc_Inexact Gt =>
      (inject_Z m + (1#2)) * pow2 e < x /\ x < (inject_Z m + 1) * pow2 e
  end.

Definition located_rec (mrs : shr_record) (e : Z) (x : Q) : Prop :=
  (0 <= shr_m mrs)%Z /\ located (shr_m mrs) e (loc_of_shr_record mrs) x.

(** A positive finite float between [2^-300] and [2^300]. *)
Definition in_range (c : Float.float) : bool :=
  match c with
  | S754_finite false m e =>
      Qle_bool (pow2 (-300)) (pos_value m e)
      && Qle_bool (pos_value m e) (pow2 300)
  | _ => false
  end.

Fixpoint exact_sum (cs : list Float.float) : Q :=
  match cs with
  | [] => 0
  | c :: cs' => value c + exact_sum cs'
  end.

Definition count {A : Type} (l : list A) : Q :=
  inject_Z (Z.of_nat (List.length l)).

(** The exact sum of the percentage fields of a record list. *)
Definition pct_sum (rs : list coin_info) : Q := exact_sum (map snd rs).

(** The decimal [m * 10^e] as a rational. *)
Definition decimal_Q (m : N) (e : Z) : Q := inject_Z (Z.of_N m) * 10 ^ e.

End ExactValues.

(** ** Currency strings *)

Fixpoint all_chars (P : ascii -> bool) (s : string) : bool :=
  match s with
  | EmptyString => true
  | String c s' => P c && all_chars P s'
  end.

(** The characters a cleaned amount is made of. *)
Definition is_number_char (c : ascii) : bool :=
  Str.isdigit c || Ascii.eqb c ".".

(** The characters a currency string is made of. *)
Definition is_currency_char (c : ascii) : bool :=
  is_number_char c || Ascii.eqb c "$" || Ascii.eqb c ",".

Fixpoint digit_string (ds : list N) : string :=
  match ds with
  | [] => EmptyString
  | d :: ds' => String (Str.digit_char d) (digit_string ds')
  end.

Definition are_digits (ds : list N) : Prop := Forall (fun d => (d < 10)%N) ds.

(** The point and the digits after it, when there are any. *)
Definition fraction_string (fraction : option (list N)) : string :=
  match fraction with
  | Some ds => String "." (digit_string ds)
  | None => EmptyString
  end.

(** An optional dollar sign, groups of digits separated by commas and an
    optional point followed by digits. *)
Definition currency_string (dollar : bool) (groups : list (list N))
    (fraction : option (list N)) : string :=
  ((if dollar then "$" else EmptyString)
   ++ Str.join "," (map digit_string groups)
   ++ fraction_string fraction)%string.

Definition fraction_digits (fraction : option (list N)) : list N :=
  match fraction with
  | Some ds => ds
  | None => []
  end.

(** The digits of a currency string, separators left out. *)
Definition currency_digits (groups : list (list N)) (fraction : option (list N))
  : list N :=
  (List.concat groups ++ fraction_digits fraction)%list.

(** ** File names *)

(** [s] is the number [n] written in exactly [k] decimal digits. *)
Definition written_in (k : nat) (s : string) (n : N) : Prop :=
  exists ds, List.length ds = k /\ are_digits ds
             /\ s = digit_string ds /\ Float.decimal_value ds = n.

(** [Top100 <HH.MM DD.MM.YYYY>.csv] for the time [t]. *)
Definition names_the_time (filename : string) (t : datetime) : Prop :=
  exists HH MM DD mm YYYY,
    filename = ("Top100 " ++ HH ++ "." ++ MM ++ " " ++ DD ++ "." ++ mm ++ "."
                ++ YYYY ++ ".csv")%string
    /\ written_in 2 HH (hour t) /\ written_in 2 MM (minute t)
    /\ written_in 2 DD (day t) /\ written_in 2 mm (month t)
    /\ written_in 4 YYYY (year t).

(** A time of day on a date of the calendar's range. *)
Definition valid_datetime (t : datetime) : Prop :=
  (hour t < 24 /\ minute t < 60 /\ 1 <= day t <= 31 /\ 1 <= month t <= 12
   /\ 1 <= year t <= 9999)%N.

(** ** The written file *)

Section Rows.

Variable float_repr : Float.float -> string.

(** The rows a run writes for a record list: the header, then one row
    per record in order. *)
Definition rows_of (coins_info : list coin_info) : Csv.writer :=
  "Name;MC;MP"
  :: map (fun coin => Csv.format_row (fields_of float_repr coin)) coins_info.

End Rows.

(** A rendering of floats to instantiate what holds for every rendering. *)
Definition sample_repr (x : Float.float) : string :=
  match x with
  | S754_zero _ => "0.0"
  | S754_infinity _ => "inf"
  | S754_nan => "nan"
  | S754_finite _ _ _ => "1.0"
  end.

(** ** Sample inputs *)

(** One name and two capitalizations. *)
Definition mismatch_rows : list node :=
  [name_tag_of "A"; cap_tag_of "$100"; cap_tag_of "$100"].

(** One name and one capitalization of zero dollars. *)
Definition zero_rows : list node :=
  [name_tag_of "Bitcoin"; cap_tag_of "$0"].

(** One name, one capitalization and a second one that is not a number. *)
Definition surplus_rows : list node :=
  [name_tag_of "A"; cap_tag_of "$5"; cap_tag_of "n/a"].

(** Three rows of a listing, text padded as pages pad it. *)
Definition three_rows : list node :=
  [Tag "tr" [] [Tag "td" [] [name_tag_of " Bitcoin "];
                Tag "td" [] [cap_tag_of "$100"]];
   Tag "tr" [] [Tag "td" [] [name_tag_of "Ethereum"];
                Tag "td" [] [cap_tag_of "$300"]];
   Tag "tr" [] [Tag "td" [] [name_tag_of "Tether"];
                Tag "td" [] [cap_tag_of "$600"]]].

(** A page without a table body. *)
Definition bare_page : markup := [Tag "div" [] [name_tag_of "A"]].

(** A table body with names and no capitalization. *)
Definition names_only_rows : list node :=
  [name_tag_of "A"; name_tag_of "B"].

(** Two capitalizations near the largest float, and three that cancel. *)
Definition huge_rows : list node :=
  [name_tag_of "A"; cap_tag_of "1e308"; name_tag_of "B"; cap_tag_of "1e308"].

Definition cancelling_rows : list node :=
  [name_tag_of "A"; cap_tag_of "1e16"; name_tag_of "B"; cap_tag_of "3";
   name_tag_of "C"; cap_tag_of "-1e16"].

Definition sample_time : datetime :=
  {| year := 2024; month := 3; day := 7; hour := 9; minute := 5 |}.

Definition sample_world (page : markup) : world :=
  {| page_source := page; now := sample_time; files := fun _ => None |}.

(** * Further notions *)

(** ** Trimmed strings *)

Definition starts_with_space (s : string) : bool :=
  match s with
  | String c _ => Str.isspace c
  | EmptyString => false
  end.

Fixpoint ends_with_space (s : string) : bool :=
  match s with
  | EmptyString => false
  | String c EmptyString => Str.isspace c
  | String _ s' => ends_with_space s'
  end.

(** No white space at either end. *)
Definition trimmed (s : string) : Prop :=
  starts_with_space s = false /\ ends_with_space s = false.

(** Neither a dollar sign nor a comma. *)
Definition is_plain_char (c : ascii) : bool :=
  negb (Ascii.eqb c "$") && negb (Ascii.eqb c ",").

Definition space_free (s : string) : Prop :=
  all_chars (fun c => negb (Ascii.eqb c " ")) s = true.

(** A float that is zero, of either sign. *)
Definition is_zero_float (c : Float.float) : Prop := Float.is_zero c = true.

(** The record of a pair whose percentage is not a number. *)
Definition nan_record (pair : node * Float.float) : coin_info :=
  (Str.strip (text (fst pair)), snd pair, S754_nan).

(** The elements of the three rows laid out flat under the table body. *)
Definition flat_rows : list node :=
  [name_tag_of " Bitcoin "; name_tag_of "Ethereum"; name_tag_of "Tether";
   cap_tag_of "$100"; cap_tag_of "$300"; cap_tag_of "$600"].

(** ** Reading a written row

    A reader of the file meets a delimiter or a line break as such only
    outside quotes, and a quote character switches between the two. *)

Definition is_delimiter (c : ascii) : bool := Ascii.eqb c Csv.delimiter.

Definition is_line_break (c : ascii) : bool := Csv.mem c Csv.lineterminator.

(** Whether the reader ends inside quotes, and how many characters of the
    kind [P] it met outside quotes. *)
Fixpoint outside (P : ascii -> bool) (in_quotes : bool) (s : string)
  : bool * nat :=
  match s with
  | EmptyString => (in_quotes, O)
  | String c s' =>
      if Ascii.eqb c Csv.quotechar then outside P (negb in_quotes) s'
      else
        let '(q, n) := outside P in_quotes s' in
        (q, if negb in_quotes && P c then S n else n)
  end.

(** * The browser session of [get_html]

    [get_html] drives a browser and sleeps between the scrolls.  The calls
    it makes on the outside are recorded in a trace; what each call returns
    or raises is given by a driver that sees the calls made before. *)

Module Browser.

Inductive call : Type :=
| Edge
| get (url : string)
| execute_script (script : string)
| sleep (secs : N)
| page_source
| quit.

Definition URL : string := "https://coinmarketcap.com/".

Definition scroll : string := "window.scrollBy(0,window.innerHeight)".

Section Session.

(** The exceptions the calls may raise. *)
Variable error : Type.

Inductive outcome (A : Type) : Type :=
| Returns (a : A)
| Raises (e : error).

(** The answer to a call after the calls of a trace, oldest first.  Only
    the value of [page_source] is used. *)
Variable driver : list call -> call -> outcome markup.

Definition action (A : Type) : Type := list call -> outcome A * list call.

Definition ret {A : Type} (a : A) : action A :=
  fun trace => (Returns A a, trace).

Definition bind {A B : Type} (m : action A) (f : A -> action B) : action B :=
  fun trace =>
    match m trace with
    | (Returns _ a, trace') => f a trace'
    | (Raises _ e, trace') => (Raises B e, trace')
    end.

Definition perform (c : call) : action markup :=
  fun trace => (driver trace c, trace ++ [c]).

(** [for i in range(n): body] *)
Fixpoint for_range (n : nat) (body : action unit) : action unit :=
  match n with
  | O => ret tt
  | S n' => bind body (fun _ => for_range n' body)
  end.

Definition get_html : action markup :=
  bind (perform Edge) (fun _ =>
  bind (perform (get URL)) (fun _ =>
  bind (for_range 10
          (bind (perform (execute_script scroll)) (fun _ =>
           bind (perform (sleep 1)) (fun _ =>
           ret tt)))) (fun _ =>
  bind (perform page_source) (fun html_text =>
  bind (perform quit) (fun _ =>
  ret html_text))))).

(** A run of [calls] that stopped: the call of index [k] raised [e] after
    the calls before it, and is the last of the trace. *)
Definition stopped (calls trace trace' : list call) (e : error) : Prop :=
  exists k,
    (k < List.length calls)%nat
    /\ trace' = trace ++ firstn (S k) calls
    /\ driver (trace ++ firstn k calls) (nth k calls quit) = Raises markup e.

End Session.

Arguments Returns {error A} a.
Arguments Raises {error A} e.

(** The calls of a run that nothing interrupts. *)
Fixpoint scrolling (n : nat) : list call :=
  match n with
  | O => []
  | S n' => execute_script scroll :: sleep 1 :: scrolling n'
  end.

Definition loading : list call := Edge :: get URL :: scrolling 10.

Definition session : list call := loading ++ [page_source; quit].

(** A browser that shows one page and never fails. *)
Definition showing (page : markup)
  : list call -> call -> outcome string markup :=
  fun _ _ => Returns page.

(** A browser that cannot reach the site. *)
Definition offline : list call -> call -> outcome string markup :=
  fun _ c =>
    match c with
    | get _ => Raises "WebDriverException"
    | _ => Returns []
    end.

End Browser.

(** * The run of [write_cmc_top] as the calls it makes

    Beside the calls of the browser session, a run reads the clock, opens
    the file, has [csv.writer] write each row with its line terminator in
    one [write], and closes the file on leaving the [with] block.  Each
    call on the file may raise. *)

Module Io.

Inductive call : Type :=
| browser (c : Browser.call)
| now
| open (filename mode : string)
| write (line : string)
| close.

(** How a run ends: after the last row, with an exception of the outside
    or with one of extraction. *)
Inductive ending (error : Type) : Type :=
| Done
| Failed (e : error)
| Raised (e : exn).

Arguments Done {error}.
Arguments Failed {error} e.
Arguments Raised {error} e.

Section Effects.

Variable error : Type.

(** [str(x)] of a float. *)
Variable float_repr : Float.float -> string.

(** The outside after the calls of a trace: what the browser answers, what
    the clock reads, and the exception a call on the file raises, if any. *)
Variable page : list call -> Browser.call -> Browser.outcome error markup.
Variable clock : list call -> datetime.
Variable file : list call -> call -> option error.

Definition get_html (trace : list call)
  : Browser.outcome error markup * list call :=
  let '(r, calls) :=
    Browser.get_html error (fun h c => page (trace ++ map browser h) c) [] in
  (r, trace ++ map browser calls).

Definition perform (c : call) (trace : list call)
  : option error * list call :=
  (file trace c, trace ++ [c]).

(** The line [writer.writerow(fields)] writes. *)
Definition line_of (fields : list string) : string :=
  (Csv.format_row fields ++ Csv.lineterminator)%string.

Definition writerow (fields : list string) (trace : list call)
  : option error * list call :=
  perform (write (line_of fields)) trace.

(** [for coin_info in coins_info: writer.writerow(coin_info)] *)
Fixpoint writerows (coins_info : list coin_info) (trace : list call)
  : option error * list call :=
  match coins_info with
  | [] => (None, trace)
  | coin_info :: rest =>
      match writerow (fields_of float_repr coin_info) trace with
      | (Some e, trace1) => (Some e, trace1)
      | (None, trace1) => writerows rest trace1
      end
  end.

(** The body of the [with] block. *)
Definition write_all (coins_info : list coin_info) (trace : list call)
  : option error * list call :=
  match writerow ["Name"; "MC"; "MP"] trace with
  | (Some e, trace1) => (Some e, trace1)
  | (None, trace1) => writerows coins_info trace1
  end.

(** [with open(...) as file: body]: the file is closed when the body
    returns and when it raises; an exception of the closing takes the
    place of the body's. *)
Definition with_open (filename mode : string)
    (body : list call -> option error * list call) (trace : list call)
  : option error * list call :=
  match perform (open filename mode) trace with
  | (Some e, trace1) => (Some e, trace1)
  | (None, trace1) =>
      let '(r, trace2) := body trace1 in
      match perform close trace2 with
      | (Some e, trace3) => (Some e, trace3)
      | (None, trace3) => (r, trace3)
      end
  end.

Definition write_cmc_top (trace : list call) : ending error * list call :=
  match get_html trace with
  | (Browser.Raises e, trace1) => (Failed e, trace1)
  | (Browser.Returns html_text, trace1) =>
      match get_content html_text with
      | Raise e => (Raised e, trace1)
      | Ok coins_info =>
          let filename := filename_of (clock trace1) in
          match with_open filename "w" (write_all coins_info)
                  (trace1 ++ [now]) with
          | (Some e, trace2) => (Failed e, trace2)
          | (None, trace2) => (Done, trace2)
          end
      end
  end.

End Effects.

(** The files a trace opened, in order, with their modes. *)
Fixpoint opened (calls : list call) : list (string * string) :=
  match calls with
  | [] => []
  | open filename mode :: calls' => (filename, mode) :: opened calls'
  | _ :: calls' => opened calls'
  end.

(** The characters a trace wrote, in order. *)
Fixpoint written (calls : list call) : string :=
  match calls with
  | [] => EmptyString
  | write line :: calls' => (line ++ written calls')%string
  | _ :: calls' => written calls'
  end.

(** The calls of a run up to the opening of the file. *)
Definition prelude : list call := map browser Browser.session ++ [now].

(** The lines of a file: the header and one line for each record. *)
Definition lines (float_repr : Float.float -> string)
    (coins_info : list coin_info) : list string :=
  line_of ["Name"; "MC"; "MP"]
  :: map (fun coin_info => line_of (fields_of float_repr coin_info)) coins_info.

(** A browser that shows one page, a clock that stands at the sample time,
    and three file systems: one that takes everything, one that refuses to
    open the file and one that is full. *)
Definition showing (html_text : markup)
  : list call -> Browser.call -> Browser.outcome string markup :=
  fun _ _ => Browser.Returns html_text.

Definition standing : list call -> datetime := fun _ => sample_time.

(** A clock that stands at the last minute of the same year. *)
Definition later : list call -> datetime :=
  fun _ => {| year := 2024; month := 12; day := 31; hour := 23;
              minute := 59 |}.

Definition sound : list call -> call -> option string := fun _ _ => None.


Definition full : list call -> call -> option string :=
  fun _ c =>
    match c with
    | write _ => Some "OSError"
    | _ => None
    end.

End Io.

(** * Properties *)

(** ** The model on sample inputs *)

(** [float] on strings at the edges of its grammar, as CPython reads
    them. *)
Example float_accepts :
  map Float.of_string ["1_000"; "  12 "; "1e3"; ".5"; "5."; "-0"; "+Infinity"; "nan"]
  = [Some (Float.of_Z 1000); Some (Float.of_Z 12); Some (Float.of_Z 1000);
     Some (S754_finite false 4503599627370496 (-53));
     Some (Float.of_Z 5); Some (S754_zero true);
     Some (S754_infinity false); Some S754_nan].
Proof. vm_compute. reflexivity. Qed.

Example float_refuses :
  map Float.of_string
    [EmptyString; "."; "1e"; "0x10"; "1__0"; "_1"; "1_"; "1 0"; "--1"; "n/a";
     "$5"; "1,000"]
  = repeat None 12.
Proof. vm_compute. reflexivity. Qed.

(** Cleaning strips the white space around the text first, so a dollar
    sign or a comma may uncover white space that [float] strips in turn. *)
Example clean_samples :
  map clean [" $1,234.50 "; "$ 5"; "1,2,3"] = ["1234.50"; " 5"; "123"]
  /\ Float.of_string (clean "$ 5") = Some (Float.of_Z 5).
Proof. split; vm_compute; reflexivity. Qed.

(** Only a tag whose class tokens are the two of the selector, in its
    order, is matched. *)
Example class_selector :
  map (class_matches name_class)
    [["sc-4984dd93-0"; "kKpPOn"]; ["kKpPOn"; "sc-4984dd93-0"];
     ["sc-4984dd93-0"]; ["sc-4984dd93-0"; "kKpPOn"; "x"]; []]
  = [true; false; false; false; false].
Proof. reflexivity. Qed.

(** ** The two loops of [get_content] *)

Lemma float_parses cap_tag c :
  parses cap_tag c -> float (cap_str cap_tag) = Ok c.
Proof. unfold parses, float. now intros ->. Qed.

Lemma first_loop_ok caps : forall cs total,
  Forall2 parses caps cs ->
  for_acc add_cap caps total = Ok (fold_left Float.add cs total).
Proof.
  induction caps as [|cap caps IH]; intros cs total H; inversion H; subst.
  - reflexivity.
  - cbn. unfold add_cap at 1. rewrite (float_parses _ _ H2). cbn. now apply IH.
Qed.

Lemma first_loop_raise caps : forall total,
  Exists (fun cap_tag => Float.of_string (cap_str cap_tag) = None) caps ->
  for_acc add_cap caps total = Raise ValueError.
Proof.
  induction caps as [|cap caps IH]; intros total H.
  - inversion H.
  - cbn. unfold add_cap at 1, float.
    destruct (Float.of_string (cap_str cap)) as [c|] eqn:E; cbn.
    + apply IH. inversion H; subst; [congruence | assumption].
    + reflexivity.
Qed.

Lemma second_loop_ok total : forall names caps cs,
  Forall2 parses caps cs ->
  Float.is_zero total = false ->
  for_append (coin_row total) (combine names caps)
  = Ok (map (record_of total) (combine names cs)).
Proof.
  induction names as [|name names IH]; intros caps cs H Hz.
  - reflexivity.
  - inversion H; subst; [reflexivity|].
    cbn [combine for_append map]. unfold coin_row at 1.
    rewrite (float_parses _ _ H0). cbn [bind]. unfold truediv. rewrite Hz.
    cbn [bind]. rewrite (IH _ _ H1 Hz). reflexivity.
Qed.

Lemma second_loop_raise total name names cap caps c :
  parses cap c ->
  Float.is_zero total = true ->
  for_append (coin_row total) (combine (name :: names) (cap :: caps))
  = Raise ZeroDivisionError.
Proof.
  intros H Hz. cbn [combine for_append]. unfold coin_row at 1.
  rewrite (float_parses _ _ H). cbn [bind]. unfold truediv. now rewrite Hz.
Qed.

Lemma combine_nil_cases {A B : Type} (l : list A) (l' : list B) :
  l = [] \/ l' = [] -> combine l l' = [].
Proof. intros [-> | ->]; [reflexivity | now destruct l]. Qed.

Lemma Forall2_length_eq {A B : Type} (R : A -> B -> Prop) l l' :
  Forall2 R l l' -> List.length l = List.length l'.
Proof. induction 1; cbn; congruence. Qed.

(** When every capitalization parses and the total is not zero (or no
    pair is formed), extraction returns one record per pair of [zip], the
    percentages taken against the total over every capitalization. *)
Lemma get_content_ok html_text table cs :
  find "tbody" (BeautifulSoup html_text) = Some table ->
  Forall2 parses (capitalization_tags table) cs ->
  Float.is_zero (total_of cs) = false
    \/ coin_name_tags table = [] \/ capitalization_tags table = [] ->
  get_content html_text
  = Ok (map (record_of (total_of cs)) (combine (coin_name_tags table) cs)).
Proof.
  intros Hf Hp Hz. unfold get_content. rewrite Hf.
  rewrite (first_loop_ok _ _ _ Hp). cbn [bind]. fold (total_of cs).
  destruct Hz as [Hz | Hz].
  - now apply second_loop_ok.
  - rewrite (combine_nil_cases _ _ Hz).
    assert (E : combine (coin_name_tags table) cs = []).
    { apply combine_nil_cases. destruct Hz as [Hz | Hz]; [now left | right].
      apply Forall2_length_eq in Hp. rewrite Hz in Hp.
      now destruct cs. }
    now rewrite E.
Qed.

Lemma get_content_zero_total html_text table cs :
  find "tbody" (BeautifulSoup html_text) = Some table ->
  Forall2 parses (capitalization_tags table) cs ->
  Float.is_zero (total_of cs) = true ->
  coin_name_tags table <> [] -> capitalization_tags table <> [] ->
  get_content html_text = Raise ZeroDivisionError.
Proof.
  intros Hf Hp Hz Hn Hc. unfold get_content. rewrite Hf.
  rewrite (first_loop_ok _ _ _ Hp). cbn [bind]. fold (total_of cs).
  destruct (coin_name_tags table) as [|name names]; [congruence|].
  destruct (capitalization_tags table) as [|cap caps]; [congruence|].
  inversion Hp; subst. eapply second_loop_raise; eassumption.
Qed.

Lemma get_content_unparsed html_text table :
  find "tbody" (BeautifulSoup html_text) = Some table ->
  Exists (fun cap_tag => Float.of_string (cap_str cap_tag) = None)
    (capitalization_tags table) ->
  get_content html_text = Raise ValueError.
Proof.
  intros Hf He. unfold get_content. rewrite Hf.
  now rewrite (first_loop_raise _ _ He).
Qed.

Lemma length_records total names cs :
  List.length (map (record_of total) (combine names cs))
  = Nat.min (List.length names) (List.length cs).
Proof. now rewrite length_map, length_combine. Qed.

Lemma nth_record total : forall names cs i name_tag c,
  nth_error names i = Some name_tag ->
  nth_error cs i = Some c ->
  nth_error (map (record_of total) (combine names cs)) i
  = Some (record_of total (name_tag, c)).
Proof.
  induction names as [|n names IH]; intros cs i name_tag c Hn Hc.
  - now destruct i.
  - destruct cs as [|c0 cs]; [now destruct i|].
    destruct i as [|i]; cbn in *.
    + congruence.
    + now apply IH.
Qed.

Lemma Forall2_nth {A B : Type} (R : A -> B -> Prop) : forall l l' i a,
  Forall2 R l l' -> nth_error l i = Some a ->
  exists b, nth_error l' i = Some b /\ R a b.
Proof.
  induction l as [|x l IH]; intros l' i a H Hi.
  - now destruct i.
  - inversion H; subst. destruct i as [|i]; cbn in *.
    + injection Hi as <-. eauto.
    + eauto.
Qed.

(** ** Rounding in binary64 *)

(** The operations of [SpecFloat] are followed through their shifts: a
    value stays located while its mantissa is shifted, rounding to nearest
    moves it by at most half a unit in the last place, and in the normal
    range that is a relative error of at most [u]. *)

Section Accuracy.

Local Open Scope Q_scope.

Lemma pow2_pos e : 0 < pow2 e.
Proof. apply Qpower_0_lt. reflexivity. Qed.

Lemma pow2_add a b : pow2 (a + b) == pow2 a * pow2 b.
Proof. apply Qpower_plus. discriminate. Qed.

Lemma pow2_succ e : pow2 (e + 1) == 2 * pow2 e.
Proof. rewrite pow2_add. change (pow2 1) with 2. ring. Qed.

Lemma pow2_le a b : (a <= b)%Z -> pow2 a <= pow2 b.
Proof.
  intros H. apply Qpower_le_compat_l; [assumption | discriminate].
Qed.

Lemma pow2_lt a b : (a < b)%Z -> pow2 a < pow2 b.
Proof.
  intros H. apply Qpower_lt_compat_l; [assumption | reflexivity].
Qed.

Lemma pow2_inject n : (0 <= n)%Z -> pow2 n == inject_Z (2 ^ n).
Proof. intros H. unfold pow2. now rewrite Zpower_Qpower. Qed.

Lemma inject_xO p : inject_Z (Zpos p~0) == 2 * inject_Z (Zpos p).
Proof. now rewrite Pos2Z.inj_xO, inject_Z_mult. Qed.

Lemma inject_xI p : inject_Z (Zpos p~1) == 2 * inject_Z (Zpos p) + 1.
Proof. now rewrite Pos2Z.inj_xI, inject_Z_plus, inject_Z_mult. Qed.

(** One shift to the right keeps the value located. *)
Lemma shr_1_located mrs e x :
  located_rec mrs e x -> located_rec (shr_1 mrs) (e + 1) x.
Proof.
  destruct mrs as [m r s]. unfold located_rec. cbn [shr_m]. intros [Hm H].
  pose proof (pow2_pos e) as HP.
  destruct m as [|p|p]; [| |lia].
  - split; [destruct r, s; cbn; lia|].
    destruct r, s; cbn in *; rewrite pow2_succ;
      change (inject_Z 0) with 0 in *; lra.
  - split; [destruct p, r, s; cbn; lia|].
    destruct p as [p|p|], r, s; cbn in *;
      rewrite pow2_succ; rewrite ?inject_xO, ?inject_xI in H;
      change (inject_Z 1) with 1 in *; change (inject_Z 0) with 0 in *;
      try (set (M := inject_Z (Z.pos p)) in *; clearbody M);
      set (P := pow2 e) in *; clearbody P; nra.
Qed.

Lemma iter_shr_located p : forall mrs e x,
  located_rec mrs e x ->
  located_rec (iter_pos shr_1 p mrs) (e + Zpos p) x.
Proof.
  induction p as [p IH|p IH|]; intros mrs e x H; cbn [iter_pos].
  - replace (e + Zpos p~1)%Z with (e + 1 + Zpos p + Zpos p)%Z by lia.
    now apply IH, IH, shr_1_located.
  - replace (e + Zpos p~0)%Z with (e + Zpos p + Zpos p)%Z by lia.
    now apply IH, IH.
  - now apply shr_1_located.
Qed.

Lemma shr_located mrs e n x :
  (0 <= n)%Z ->
  located_rec mrs e x ->
  located_rec (fst (shr mrs e n)) (e + n) x /\ snd (shr mrs e n) = (e + n)%Z.
Proof.
  intros Hn H. destruct n as [|p|p]; [| |lia]; cbn.
  - now rewrite Z.add_0_r.
  - split; [now apply iter_shr_located | reflexivity].
Qed.

(** The number of binary digits is the logarithm plus one. *)
Lemma digits2_size p : digits2_pos p = Pos.size p.
Proof. induction p; cbn; congruence. Qed.

Lemma Zdigits2_log2 m : (0 < m)%Z -> Zdigits2 m = (Z.log2 m + 1)%Z.
Proof.
  destruct m as [|p|p]; try lia. intros _. cbn [Zdigits2].
  rewrite digits2_size. destruct p; cbn; lia.
Qed.

Lemma Zdigits2_bounds m :
  (0 < m)%Z -> (2 ^ (Zdigits2 m - 1) <= m < 2 ^ Zdigits2 m)%Z.
Proof.
  intros H. rewrite (Zdigits2_log2 m H).
  replace (Z.log2 m + 1 - 1)%Z with (Z.log2 m) by lia.
  apply Z.log2_spec; assumption.
Qed.

Lemma Zdigits2_unique m d :
  (2 ^ (d - 1) <= m < 2 ^ d)%Z -> (0 < d)%Z -> Zdigits2 m = d.
Proof.
  intros H Hd. assert (0 < m)%Z.
  { assert (0 < 2 ^ (d - 1))%Z by (apply Z.pow_pos_nonneg; lia). lia. }
  rewrite (Zdigits2_log2 m) by assumption.
  assert (Z.log2 m = d - 1)%Z; [|lia].
  apply Z.log2_unique; [lia|]. replace (Z.succ (d - 1)) with d by lia. exact H.
Qed.

Lemma Zdigits2_nonneg m : (0 <= Zdigits2 m)%Z.
Proof. destruct m; cbn; lia. Qed.

Lemma fexp_eq g : fexp Float.prec Float.emax g = Z.max (g - 53) (-1074).
Proof. reflexivity. Qed.

Lemma pow2_lt_inv a b : pow2 a < pow2 b -> (a < b)%Z.
Proof.
  intros H. destruct (Z_lt_le_dec a b) as [L|L]; [assumption|].
  apply pow2_le in L. lra.
Qed.

Lemma inject_lt_pow2 m k : (0 <= k)%Z -> inject_Z m < pow2 k -> (m < 2 ^ k)%Z.
Proof. intros Hk H. rewrite pow2_inject in H by assumption. now rewrite Zlt_Qlt. Qed.

Lemma inject_le_pow2 m k : (0 <= k)%Z -> (m <= 2 ^ k)%Z -> inject_Z m <= pow2 k.
Proof. intros Hk H. rewrite pow2_inject by assumption. now rewrite <- Zle_Qle. Qed.

Lemma pow2_le_inject m k : (0 <= k)%Z -> (2 ^ k <= m)%Z -> pow2 k <= inject_Z m.
Proof. intros Hk H. rewrite pow2_inject by assumption. now rewrite <- Zle_Qle. Qed.

(** A located value lies within the slot of its mantissa. *)
Lemma located_bounds m e l x :
  located m e l x ->
  inject_Z m * pow2 e <= x /\ x < (inject_Z m + 1) * pow2 e.
Proof.
  pose proof (pow2_pos e) as HP. intros H.
  destruct l as [|[| |]]; cbn in H;
    set (P := pow2 e) in *; clearbody P;
    set (M := inject_Z m) in *; clearbody M; nra.
Qed.

Lemma loc_of_record_of_loc m l :
  loc_of_shr_record (shr_record_of_loc m l) = l /\
  shr_m (shr_record_of_loc m l) = m.
Proof. now destruct l as [|[| |]]. Qed.

(** The magnitude of a located value. *)
Lemma located_magnitude m e l x :
  (0 < m)%Z -> located m e l x ->
  pow2 (Zdigits2 m + e - 1) <= x /\ x < pow2 (Zdigits2 m + e).
Proof.
  intros Hm H. apply located_bounds in H.
  pose proof (Zdigits2_bounds m Hm) as [Hlo Hhi].
  pose proof (Zdigits2_nonneg m) as Hd.
  assert (0 < Zdigits2 m)%Z as Hd'.
  { rewrite Zdigits2_log2 by assumption. pose proof (Z.log2_nonneg m). lia. }
  replace (Zdigits2 m + e - 1)%Z with ((Zdigits2 m - 1) + e)%Z by lia.
  rewrite !pow2_add.
  pose proof (pow2_pos e) as HP.
  apply pow2_le_inject in Hlo; [|lia].
  assert (inject_Z (m + 1) <= pow2 (Zdigits2 m)) as Hhi'.
  { apply inject_le_pow2; lia. }
  rewrite inject_Z_plus in Hhi'. change (inject_Z 1) with 1 in Hhi'.
  set (P := pow2 e) in *. clearbody P. set (M := inject_Z m) in *. clearbody M.
  set (A := pow2 (Zdigits2 m - 1)) in *. set (B := pow2 (Zdigits2 m)) in *.
  clearbody A B. nra.
Qed.

Lemma round_nearest_even_bounds m l :
  (m <= round_nearest_even m l <= m + 1)%Z.
Proof. destruct l as [|[| |]]; cbn; try lia. destruct (Z.even m); lia. Qed.

(** Rounding to nearest moves a located value by at most half a unit. *)
Lemma round_nearest_even_half m e l x :
  located m e l x ->
  Qabs (inject_Z (round_nearest_even m l) * pow2 e - x) <= (1#2) * pow2 e.
Proof.
  pose proof (pow2_pos e) as HP. intros H.
  apply Qabs_Qle_condition.
  destruct l as [|[| |]]; cbn in *; try destruct (Z.even m);
    rewrite ?inject_Z_plus; change (inject_Z 1) with 1;
    set (P := pow2 e) in *; clearbody P;
    set (M := inject_Z m) in *; clearbody M; nra.
Qed.

(** Rounding a located value in the normal range: the result is a finite
    float with a 53-bit mantissa, off by at most half a unit in the last
    place. *)
Lemma round_aux_accurate s m e l x :
  (0 <= m)%Z ->
  located m e l x ->
  (e <= fexp Float.prec Float.emax (Zdigits2 m + e))%Z ->
  pow2 (-1022) <= x -> x < pow2 1023 ->
  exists m' e',
    binary_round_aux Float.prec Float.emax s m e l = S754_finite s m' e'
    /\ (2 ^ 52 <= Zpos m' < 2 ^ 53)%Z
    /\ Qabs (inject_Z (Zpos m') * pow2 e' - x) <= x * pow2 (-53).
Proof.
  intros Hm Hl Hn Hlo Hhi.
  set (g := (Zdigits2 m + e)%Z) in *.
  (* the mantissa is not zero *)
  assert (0 < m)%Z as Hm'.
  { destruct (Z.eq_dec m 0) as [->|]; [|lia]. exfalso.
    apply located_bounds in Hl. change (inject_Z 0) with 0 in Hl.
    cbn in g. subst g. rewrite fexp_eq in Hn.
    assert (x < pow2 e) as Hx by lra.
    assert (pow2 (-1022) < pow2 e) as Hx' by lra.
    apply pow2_lt_inv in Hx'. lia. }
  pose proof (located_magnitude m e l x Hm' Hl) as [Hg1 Hg2]. fold g in Hg1, Hg2.
  assert (-1022 < g)%Z as Hg3 by (apply pow2_lt_inv; lra).
  assert (g - 1 < 1023)%Z as Hg4 by (apply pow2_lt_inv; lra).
  assert (fexp Float.prec Float.emax g = g - 53)%Z as Hfe by (rewrite fexp_eq; lia).
  set (e1 := (g - 53)%Z) in *.
  (* first shift *)
  unfold binary_round_aux, shr_fexp. fold g. rewrite Hfe.
  destruct (loc_of_record_of_loc m l) as [Hr1 Hr2].
  assert (located_rec (shr_record_of_loc m l) e x) as Hrec.
  { split; [rewrite Hr2; lia | now rewrite Hr1, Hr2]. }
  destruct (shr_located _ e (e1 - e) x ltac:(lia) Hrec) as [Hs1 Hs2].
  destruct (shr (shr_record_of_loc m l) e (e1 - e)) as [mrs1 e1'].
  cbn [fst snd] in Hs1, Hs2. replace (e + (e1 - e))%Z with e1 in * by lia.
  subst e1'. destruct Hs1 as [Hm1 Hl1].
  set (m1 := shr_m mrs1) in *. set (l1 := loc_of_shr_record mrs1) in *.
  (* the shifted mantissa has 53 bits *)
  pose proof (located_bounds _ _ _ _ Hl1) as [Hb1 Hb2].
  assert (pow2 g == pow2 53 * pow2 e1) as Eg.
  { rewrite <- pow2_add. now replace (53 + e1)%Z with g by (unfold e1; lia). }
  assert (pow2 (g - 1) == pow2 52 * pow2 e1) as Eg1.
  { rewrite <- pow2_add. now replace (52 + e1)%Z with (g - 1)%Z by (unfold e1; lia). }
  pose proof (pow2_pos e1) as HP.
  assert (m1 < 2 ^ 53)%Z as Hm1hi.
  { apply inject_lt_pow2; [lia|]. set (P := pow2 e1) in *. nra. }
  assert (2 ^ 52 <= m1)%Z as Hm1lo.
  { assert (2 ^ 52 < m1 + 1)%Z; [|lia]. rewrite Zlt_Qlt.
    rewrite <- pow2_inject by lia. rewrite inject_Z_plus.
    change (inject_Z 1) with 1. set (P := pow2 e1) in *. nra. }
  (* rounding *)
  pose proof (round_nearest_even_bounds m1 l1) as Hr.
  pose proof (round_nearest_even_half m1 e1 l1 x Hl1) as Hh.
  set (mr := round_nearest_even m1 l1) in *.
  assert (Qabs (inject_Z mr * pow2 e1 - x) <= x * pow2 (-53)) as Herr.
  { eapply Qle_trans; [exact Hh|].
    assert (pow2 (g - 1) * pow2 (-53) == (1#2) * pow2 e1) as E.
    { rewrite <- pow2_add. replace (g - 1 + -53)%Z with (e1 + -1)%Z by (unfold e1; lia).
      rewrite pow2_add. change (pow2 (-1)) with (1#2). ring. }
    rewrite <- E. pose proof (pow2_pos (-53)).
    set (U := pow2 (-53)) in *. set (G := pow2 (g - 1)) in *. nra. }
  (* second shift *)
  change (Float.emax - Float.prec)%Z with 971%Z.
  destruct (Z.eq_dec mr (2 ^ 53)) as [Ec|Ec].
  - rewrite Ec. change (2 ^ 53)%Z with 9007199254740992%Z.
    replace (Zdigits2 9007199254740992) with 54%Z by reflexivity.
    rewrite fexp_eq.
    replace (Z.max (54 + e1 - 53) (-1074) - e1)%Z with 1%Z by lia.
    cbn -[Z.leb Qabs Qle Qmult Qminus Qplus pow2 inject_Z Z.pow Z.le Z.lt].
    assert ((e1 + 1 <=? 971)%Z = true) as L by (apply Z.leb_le; unfold e1; lia).
    rewrite L. eexists _, _. split; [reflexivity|]. split; [lia|].
    rewrite Ec in Herr.
    assert (inject_Z (Z.pos 4503599627370496) * pow2 (e1 + 1)
            == inject_Z (2 ^ 53) * pow2 e1) as E.
    { rewrite pow2_succ.
      change (inject_Z (2 ^ 53)) with (inject_Z (2 * 4503599627370496)).
      rewrite inject_Z_mult. change (inject_Z 2) with 2. ring. }
    now rewrite E.
  - assert (Zdigits2 mr = 53)%Z as Hd by (apply Zdigits2_unique; lia).
    rewrite Hd, fexp_eq.
    replace (Z.max (53 + e1 - 53) (-1074) - e1)%Z with 0%Z by (unfold e1; lia).
    cbn -[Z.leb Qabs Qle Qmult Qminus Qplus pow2 inject_Z Z.pow Z.le Z.lt].
    destruct mr as [|pr|pr]; try lia.
    assert ((e1 <=? 971)%Z = true) as L by (apply Z.leb_le; unfold e1; lia).
    rewrite L. eexists _, _. split; [reflexivity|]. split; [lia|]. exact Herr.
Qed.

(** ** Operations on positive finite floats *)

Lemma pos_value_pos m e : 0 < pos_value m e.
Proof.
  unfold pos_value. pose proof (pow2_pos e).
  assert (0 < inject_Z (Zpos m)) by (change 0 with (inject_Z 0); rewrite <- Zlt_Qlt; lia).
  set (P := pow2 e) in *. set (M := inject_Z (Zpos m)) in *. nra.
Qed.

Lemma iter_xO_pow2 m d : Zpos (Pos.iter xO m d) = (Zpos m * 2 ^ Zpos d)%Z.
Proof.
  induction d as [|d IH] using Pos.peano_ind.
  - cbn. lia.
  - rewrite Pos.iter_succ, Pos2Z.inj_xO, IH, Pos2Z.inj_succ, Z.pow_succ_r by lia.
    ring.
Qed.

Lemma digits_shift m d :
  Zdigits2 (Zpos m * 2 ^ Zpos d) = (Zdigits2 (Zpos m) + Zpos d)%Z.
Proof.
  pose proof (Zdigits2_bounds (Zpos m) ltac:(lia)) as [Hlo Hhi].
  assert (0 < Zdigits2 (Zpos m))%Z as Hd by (cbn; lia).
  apply Zdigits2_unique; [|lia].
  replace (Zdigits2 (Z.pos m) + Z.pos d - 1)%Z
    with ((Zdigits2 (Z.pos m) - 1) + Z.pos d)%Z by lia.
  rewrite !Z.pow_add_r by lia.
  assert (0 < 2 ^ Z.pos d)%Z by (apply Z.pow_pos_nonneg; lia).
  nia.
Qed.

Lemma shl_align_value m e e' :
  pos_value (fst (shl_align m e e')) (snd (shl_align m e e')) == pos_value m e.
Proof.
  unfold shl_align. destruct (e' - e)%Z as [|d|d] eqn:E; cbn [fst snd]; try reflexivity.
  unfold pos_value. rewrite iter_xO_pow2, inject_Z_mult.
  rewrite <- pow2_inject by lia.
  assert (pow2 e == pow2 (Zpos d) * pow2 e') as ->; [|ring].
  rewrite <- pow2_add. now replace (Zpos d + e')%Z with e by lia.
Qed.

Lemma shl_align_exponent m e e' :
  snd (shl_align m e e') = Z.min e e'
  /\ (Zdigits2 (Zpos (fst (shl_align m e e'))) + snd (shl_align m e e')
      = Zdigits2 (Zpos m) + e)%Z.
Proof.
  unfold shl_align. destruct (e' - e)%Z as [|d|d] eqn:E; cbn [fst snd].
  - split; lia.
  - split; lia.
  - split; [lia|]. rewrite iter_xO_pow2, digits_shift. lia.
Qed.

(** [binary_round] of a positive integer mantissa in the normal range. *)
Lemma binary_round_accurate m e :
  pow2 (-1022) <= pos_value m e -> pos_value m e < pow2 1023 ->
  exists m' e',
    binary_round Float.prec Float.emax false m e = S754_finite false m' e'
    /\ (2 ^ 52 <= Zpos m' < 2 ^ 53)%Z
    /\ Qabs (pos_value m' e' - pos_value m e) <= pos_value m e * pow2 (-53).
Proof.
  intros Hlo Hhi. unfold binary_round.
  pose proof (shl_align_value m e (fexp Float.prec Float.emax (Zpos (digits2_pos m) + e))) as Hv.
  pose proof (shl_align_exponent m e (fexp Float.prec Float.emax (Zpos (digits2_pos m) + e)))
    as [He Hd].
  destruct (shl_align m e (fexp Float.prec Float.emax (Zpos (digits2_pos m) + e))) as [mz ez].
  cbn [fst snd] in *.
  change (Zpos (digits2_pos m)) with (Zdigits2 (Zpos m)) in *.
  apply (round_aux_accurate false (Zpos mz) ez loc_Exact (pos_value m e)).
  - lia.
  - cbn. symmetry. exact Hv.
  - rewrite Hd. lia.
  - exact Hlo.
  - exact Hhi.
Qed.

Lemma digits_lower m k :
  (0 <= k)%Z -> (2 ^ k <= m)%Z -> (k + 1 <= Zdigits2 m)%Z.
Proof.
  intros Hk H.
  assert (0 < m)%Z as Hm.
  { assert (0 < 2 ^ k)%Z by (apply Z.pow_pos_nonneg; lia). lia. }
  pose proof (Zdigits2_bounds m Hm) as [_ Hhi].
  assert (2 ^ k < 2 ^ Zdigits2 m)%Z as L by lia.
  apply Z.pow_lt_mono_r_iff in L; [lia | lia | apply Zdigits2_nonneg].
Qed.

(** Addition, multiplication and division of positive finite floats whose
    exact result lies in the normal range: a finite float with a 53-bit
    mantissa, within a relative [2^-53] of the exact result. *)
Lemma add_accurate mx ex my ey :
  pow2 (-1022) <= pos_value mx ex + pos_value my ey ->
  pos_value mx ex + pos_value my ey < pow2 1023 ->
  exists m' e',
    SFadd Float.prec Float.emax (S754_finite false mx ex) (S754_finite false my ey)
    = S754_finite false m' e'
    /\ (2 ^ 52 <= Zpos m' < 2 ^ 53)%Z
    /\ Qabs (pos_value m' e' - (pos_value mx ex + pos_value my ey))
       <= (pos_value mx ex + pos_value my ey) * pow2 (-53).
Proof.
  intros Hlo Hhi. cbn [SFadd cond_Zopp].
  set (ez := Z.min ex ey).
  pose proof (shl_align_value mx ex ez) as Hx.
  pose proof (shl_align_value my ey ez) as Hy.
  destruct (shl_align_exponent mx ex ez) as [Ex _].
  destruct (shl_align_exponent my ey ez) as [Ey _].
  rewrite Ex in Hx. rewrite Ey in Hy.
  replace (Z.min ex ez) with ez in Hx by (unfold ez; lia).
  replace (Z.min ey ez) with ez in Hy by (unfold ez; lia).
  set (a := fst (shl_align mx ex ez)) in *.
  set (b := fst (shl_align my ey ez)) in *.
  change (Zpos a + Zpos b)%Z with (Zpos (a + b)). cbn [binary_normalize].
  assert (pos_value (a + b) ez == pos_value mx ex + pos_value my ey) as E.
  { rewrite <- Hx, <- Hy. unfold pos_value.
    rewrite Pos2Z.inj_add, inject_Z_plus. ring. }
  rewrite <- E in Hlo, Hhi.
  destruct (binary_round_accurate (a + b) ez Hlo Hhi) as (m' & e' & R & B & A).
  exists m', e'. rewrite E in A. auto.
Qed.

Lemma mul_accurate mx ex my ey :
  (2 ^ 52 <= Zpos mx)%Z ->
  pow2 (-1022) <= pos_value mx ex * pos_value my ey ->
  pos_value mx ex * pos_value my ey < pow2 1023 ->
  exists m' e',
    SFmul Float.prec Float.emax (S754_finite false mx ex) (S754_finite false my ey)
    = S754_finite false m' e'
    /\ (2 ^ 52 <= Zpos m' < 2 ^ 53)%Z
    /\ Qabs (pos_value m' e' - pos_value mx ex * pos_value my ey)
       <= pos_value mx ex * pos_value my ey * pow2 (-53).
Proof.
  intros Hm Hlo Hhi. cbn [SFmul xorb].
  assert (pos_value (mx * my) (ex + ey) == pos_value mx ex * pos_value my ey) as E.
  { unfold pos_value. rewrite Pos2Z.inj_mul, inject_Z_mult, pow2_add. ring. }
  rewrite <- E in Hlo, Hhi.
  destruct (round_aux_accurate false (Zpos (mx * my)) (ex + ey) loc_Exact
              (pos_value (mx * my) (ex + ey))) as (m' & e' & R & B & A).
  - lia.
  - cbn. reflexivity.
  - rewrite fexp_eq.
    assert (52 + 1 <= Zdigits2 (Zpos (mx * my)))%Z; [|lia].
    apply digits_lower; [lia|]. rewrite Pos2Z.inj_mul. nia.
  - exact Hlo.
  - exact Hhi.
  - exists m', e'. rewrite E in A. auto.
Qed.

(** The location [SFdiv_core_binary] attaches to a remainder. *)
Lemma new_location_located m2 r q e x :
  (0 < m2)%Z -> (0 <= r < m2)%Z ->
  x * inject_Z m2 == (inject_Z q * inject_Z m2 + inject_Z r) * pow2 e ->
  located q e (new_location m2 r) x.
Proof.
  intros Hm Hr Hx.
  pose proof (pow2_pos e) as HP.
  assert (0 < inject_Z m2) as HM by (change 0 with (inject_Z 0); rewrite <- Zlt_Qlt; lia).
  assert (0 <= inject_Z r) as HR0 by (change 0 with (inject_Z 0); rewrite <- Zle_Qle; lia).
  assert (forall c, (2 * r ?= m2)%Z = c ->
            located q e (if (r =? 0)%Z then loc_Exact else loc_Inexact c) x) as Main.
  { intros c Hc. destruct (Z.eqb_spec r 0) as [->|Hr0].
    - cbn. change (inject_Z 0) with 0 in Hx.
      set (P := pow2 e) in *. set (M := inject_Z m2) in *. set (A := inject_Z q) in *.
      nra.
    - assert (0 < inject_Z r) as HR by (change 0 with (inject_Z 0); rewrite <- Zlt_Qlt; lia).
      destruct c; cbn.
      + apply Z.compare_eq in Hc.
        assert (2 * inject_Z r == inject_Z m2) as Hc'.
        { rewrite <- Hc, inject_Z_mult. reflexivity. }
        set (P := pow2 e) in *. set (M := inject_Z m2) in *.
        set (A := inject_Z q) in *. set (R := inject_Z r) in *. nra.
      + rewrite Z.compare_lt_iff in Hc.
        assert (2 * inject_Z r < inject_Z m2) as Hc'.
        { change 2 with (inject_Z 2). rewrite <- inject_Z_mult, <- Zlt_Qlt. lia. }
        set (P := pow2 e) in *. set (M := inject_Z m2) in *.
        set (A := inject_Z q) in *. set (R := inject_Z r) in *. split; nra.
      + rewrite Z.compare_gt_iff in Hc.
        assert (inject_Z m2 < 2 * inject_Z r) as Hc'.
        { change 2 with (inject_Z 2). rewrite <- inject_Z_mult, <- Zlt_Qlt. lia. }
        assert (inject_Z r < inject_Z m2) as Hc'' by (rewrite <- Zlt_Qlt; lia).
        set (P := pow2 e) in *. set (M := inject_Z m2) in *.
        set (A := inject_Z q) in *. set (R := inject_Z r) in *. split; nra. }
  unfold new_location. destruct (Z.even m2) eqn:Ev.
  - unfold new_location_even. now apply Main.
  - unfold new_location_odd.
    assert (Z.odd m2 = true) as Hodd by (rewrite <- Z.negb_even, Ev; reflexivity).
    apply Z.odd_spec in Hodd. destruct Hodd as [t Ht].
    destruct (2 * r + 1 ?= m2)%Z eqn:C.
    + apply Main. apply Z.compare_eq in C. apply Z.compare_lt_iff. lia.
    + apply Main. rewrite Z.compare_lt_iff in C. apply Z.compare_lt_iff. lia.
    + apply Main. rewrite Z.compare_gt_iff in C. apply Z.compare_gt_iff. lia.
Qed.

Lemma pos_value_magnitude m e :
  pow2 (Zdigits2 (Zpos m) + e - 1) <= pos_value m e
  /\ pos_value m e < pow2 (Zdigits2 (Zpos m) + e).
Proof.
  apply (located_magnitude (Zpos m) e loc_Exact); [lia|]. cbn. reflexivity.
Qed.

(** The quotient and remainder of the aligned mantissas locate the exact
    quotient, at an exponent no higher than rounding needs. *)
Lemma div_core_spec mx ex my ey :
  let '(q, e', l) := SFdiv_core_binary Float.prec Float.emax (Zpos mx) ex (Zpos my) ey in
  (0 <= q)%Z
  /\ located q e' l (pos_value mx ex / pos_value my ey)
  /\ (e' <= fexp Float.prec Float.emax
              (Zdigits2 (Zpos mx) + ex - (Zdigits2 (Zpos my) + ey)))%Z.
Proof.
  unfold SFdiv_core_binary.
  set (D := (Zdigits2 (Zpos mx) + ex - (Zdigits2 (Zpos my) + ey))%Z).
  set (e' := Z.min (fexp Float.prec Float.emax D) (ex - ey)).
  set (s := (ex - ey - e')%Z).
  assert (0 <= s)%Z as Hs by (unfold s, e'; lia).
  set (m' := match s with
             | 0%Z => Zpos mx
             | Zpos _ => Z.shiftl (Zpos mx) s
             | Zneg _ => 0%Z
             end).
  assert (m' = Zpos mx * 2 ^ s)%Z as Hm'.
  { unfold m'. destruct s as [|p|p] eqn:E; [cbn; lia | | lia].
    now rewrite Z.shiftl_mul_pow2 by lia. }
  pose proof (Z_div_mod m' (Zpos my) ltac:(lia)) as Hdiv.
  destruct (Z.div_eucl m' (Zpos my)) as [q r]. destruct Hdiv as [Hq Hr].
  assert (0 < 2 ^ s)%Z as Hp by (apply Z.pow_pos_nonneg; lia).
  split; [nia|]. split; [|unfold e'; lia].
  apply new_location_located; [lia | lia |].
  rewrite <- inject_Z_mult, <- inject_Z_plus.
  replace (q * Zpos my + r)%Z with m' by lia.
  rewrite Hm', inject_Z_mult, <- pow2_inject by lia.
  unfold pos_value.
  assert (pow2 ex == pow2 s * pow2 e' * pow2 ey) as ->.
  { rewrite <- !pow2_add. now replace (s + e' + ey)%Z with ex by (unfold s; lia). }
  pose proof (pow2_pos ey).
  assert (0 < inject_Z (Zpos my))
    by (change 0 with (inject_Z 0); rewrite <- Zlt_Qlt; lia).
  field. split; lra.
Qed.

Lemma div_accurate mx ex my ey :
  pow2 (-1022) <= pos_value mx ex / pos_value my ey ->
  pos_value mx ex / pos_value my ey < pow2 1023 ->
  exists m' e',
    SFdiv Float.prec Float.emax (S754_finite false mx ex) (S754_finite false my ey)
    = S754_finite false m' e'
    /\ (2 ^ 52 <= Zpos m' < 2 ^ 53)%Z
    /\ Qabs (pos_value m' e' - pos_value mx ex / pos_value my ey)
       <= pos_value mx ex / pos_value my ey * pow2 (-53).
Proof.
  intros Hlo Hhi. cbn [SFdiv xorb].
  pose proof (div_core_spec mx ex my ey) as H.
  destruct (SFdiv_core_binary Float.prec Float.emax (Zpos mx) ex (Zpos my) ey) as [[q e'] l].
  destruct H as (Hq & Hl & He).
  set (v := pos_value mx ex / pos_value my ey) in *.
  set (D := (Zdigits2 (Zpos mx) + ex - (Zdigits2 (Zpos my) + ey))%Z) in *.
  apply (round_aux_accurate false q e' l v Hq Hl); [|exact Hlo|exact Hhi].
  (* the quotient is at least 2^(D-1) *)
  assert (pow2 (D - 1) < v) as Hv.
  { destruct (pos_value_magnitude mx ex) as [Hx _].
    destruct (pos_value_magnitude my ey) as [_ Hy].
    pose proof (pos_value_pos my ey) as Hy0.
    assert (v * pos_value my ey == pos_value mx ex) as Ev.
    { unfold v. field. lra. }
    assert (pow2 (Zdigits2 (Zpos mx) + ex - 1)
            == pow2 (D - 1) * pow2 (Zdigits2 (Zpos my) + ey)) as Ed.
    { rewrite <- pow2_add. unfold D.
      now replace (Zdigits2 (Z.pos mx) + ex - (Zdigits2 (Z.pos my) + ey) - 1
                   + (Zdigits2 (Z.pos my) + ey))%Z
        with (Zdigits2 (Z.pos mx) + ex - 1)%Z by lia. }
    pose proof (pow2_pos (D - 1)).
    set (A := pow2 (D - 1)) in *. set (B := pow2 (Zdigits2 (Zpos my) + ey)) in *.
    set (Y := pos_value my ey) in *. set (X := pos_value mx ex) in *.
    set (X' := pow2 (Zdigits2 (Zpos mx) + ex - 1)) in *.
    destruct (Qlt_le_dec A v) as [L|L]; [exact L|]. exfalso. nra. }
  pose proof (located_bounds _ _ _ _ Hl) as [_ Hb].
  rewrite fexp_eq in *.
  destruct (Z.eq_dec q 0) as [->|Hq0].
  - exfalso. change (inject_Z 0) with 0 in Hb.
    assert (v < pow2 e') as Hb' by lra.
    assert (pow2 (D - 1) < pow2 e') as L1 by lra.
    assert (pow2 (-1022) < pow2 e') as L2 by lra.
    apply pow2_lt_inv in L1, L2. lia.
  - destruct (Zdigits2_bounds q ltac:(lia)) as [_ Hd].
    assert (inject_Z q + 1 <= pow2 (Zdigits2 q)) as Hd'.
    { change 1 with (inject_Z 1). rewrite <- inject_Z_plus.
      apply inject_le_pow2; [apply Zdigits2_nonneg | lia]. }
    assert (v < pow2 (Zdigits2 q + e')) as Hb'.
    { rewrite pow2_add. pose proof (pow2_pos e').
      set (P := pow2 e') in *. set (A := pow2 (Zdigits2 q)) in *.
      set (Q' := inject_Z q) in *. nra. }
    assert (pow2 (D - 1) < pow2 (Zdigits2 q + e')) as L1 by lra.
    apply pow2_lt_inv in L1. lia.
Qed.

(** ** Summation *)

Lemma pow2_u : pow2 (-53) == u.
Proof. reflexivity. Qed.

Lemma in_range_spec c :
  in_range c = true ->
  exists m e, c = S754_finite false m e
              /\ pow2 (-300) <= pos_value m e <= pow2 300.
Proof.
  destruct c as [| | |[|] m e]; try discriminate. cbn.
  rewrite andb_true_iff, !Qle_bool_iff. eauto.
Qed.

Lemma count_cons {A : Type} (a : A) l : count (a :: l) == count l + 1.
Proof.
  unfold count. cbn [List.length]. rewrite Nat2Z.inj_succ, <- Z.add_1_r, inject_Z_plus.
  reflexivity.
Qed.

Lemma count_nonneg {A : Type} (l : list A) : 0 <= count l.
Proof. unfold count. change 0 with (inject_Z 0). rewrite <- Zle_Qle. lia. Qed.

Lemma pow2_1022_300 : pow2 (-1022) <= pow2 (-300).
Proof. apply pow2_le. lia. Qed.

(** One more addition: the accumulated relative error grows by one unit
    below and two above. *)
Lemma add_step a A c k t :
  0 <= k -> k <= pow2 20 -> 0 < A -> 0 < c ->
  A * (1 - k * u) <= a -> a <= A * (1 + 2 * k * u) ->
  Qabs (t - (a + c)) <= (a + c) * u ->
  (A + c) * (1 - (k + 1) * u) <= t /\ t <= (A + c) * (1 + 2 * (k + 1) * u).
Proof.
  intros Hk0 Hk HA Hc Hlo Hhi Ht.
  apply Qabs_Qle_condition in Ht. destruct Ht as [Ht1 Ht2].
  change (pow2 20) with 1048576 in Hk. unfold u in *.
  assert (0 <= A * k) as H1 by nra.
  assert (0 <= c * k) as H2 by nra.
  assert (A * k <= A * 1048576) as H3 by nra.
  split; nra.
Qed.

Lemma range_fits : (pow2 21 + 3) * pow2 300 < pow2 1023.
Proof. reflexivity. Qed.

(** The first loop from an accumulator [a] that stands for the exact sum
    [A] after [k] roundings. *)
Lemma fold_add_accurate : forall cs ma ea A k,
  Forall (fun c => in_range c = true) cs ->
  0 <= k -> k + count cs <= pow2 20 ->
  pow2 (-300) <= A -> A <= (k + 1) * pow2 300 ->
  A * (1 - k * u) <= pos_value ma ea ->
  pos_value ma ea <= A * (1 + 2 * k * u) ->
  exists mt et,
    fold_left Float.add cs (S754_finite false ma ea) = S754_finite false mt et
    /\ (A + exact_sum cs) * (1 - (k + count cs) * u) <= pos_value mt et
    /\ pos_value mt et <= (A + exact_sum cs) * (1 + 2 * (k + count cs) * u)
    /\ pow2 (-300) <= A + exact_sum cs
    /\ A + exact_sum cs <= (k + count cs + 1) * pow2 300.
Proof.
  induction cs as [|c cs IH]; intros ma ea A k Hr Hk0 Hk HA1 HA2 Ha1 Ha2.
  - exists ma, ea. cbn [fold_left exact_sum]. change (count []) with 0.
    split; [reflexivity|]. rewrite !Qplus_0_r. repeat split; try assumption; lra.
  - inversion Hr as [|? ? Hc Hcs]; subst.
    destruct (in_range_spec c Hc) as (mc & ec & -> & Hc1 & Hc2).
    pose proof (count_nonneg cs) as Hn. rewrite count_cons in Hk.
    pose proof (pow2_pos (-300)) as P300.
    pose proof pow2_1022_300 as P1022. pose proof range_fits as Pfit.
    change (pow2 20) with 1048576 in Hk. change (pow2 21) with 2097152 in Pfit.
    set (a := pos_value ma ea) in *. set (vc := pos_value mc ec) in *.
    assert (0 < a) as Ha0.
    { unfold u in Ha1. assert (0 <= A * k) by nra.
      assert (A * k <= A * 1048576) by nra. nra. }
    assert (a <= 2 * A) as Ha3.
    { unfold u in Ha2. assert (A * k <= A * 1048576) by nra. nra. }
    destruct (add_accurate ma ea mc ec) as (m' & e' & R & _ & Acc).
    { fold a vc. lra. }
    { fold a vc. set (P := pow2 300) in *. set (T := pow2 1023) in *.
      assert (A <= 1048577 * P) by nra. lra. }
    fold a vc in Acc.
    rewrite pow2_u in Acc.
    assert (k <= pow2 20) as Hk' by (change (pow2 20) with 1048576; lra).
    assert (0 < A) as HA0 by lra.
    assert (0 < vc) as Hc0 by lra.
    destruct (add_step a A vc k (pos_value m' e') Hk0 Hk' HA0 Hc0 Ha1 Ha2 Acc)
      as [S1 S2].
    assert (0 <= k + 1) as Hk1 by lra.
    assert (k + 1 + count cs <= pow2 20) as Hk2
      by (change (pow2 20) with 1048576; lra).
    assert (pow2 (-300) <= A + vc) as HA3 by lra.
    assert (A + vc <= (k + 1 + 1) * pow2 300) as HA4
      by (set (P := pow2 300) in *; lra).
    destruct (IH m' e' (A + vc) (k + 1) Hcs Hk1 Hk2 HA3 HA4 S1 S2)
      as (mt & et & F & B1 & B2 & B3 & B4).
    exists mt, et. cbn [fold_left exact_sum value]. fold vc. fold Float.add in R.
    rewrite R. split; [exact F|].
    rewrite count_cons.
    assert (A + (vc + exact_sum cs) == A + vc + exact_sum cs) as E1 by ring.
    assert (k + (count cs + 1) == k + 1 + count cs) as E2 by ring.
    rewrite E1, E2. auto.
Qed.

(** The total of at most [2^20] amounts in range: finite, positive, and
    within [n] units of relative error below and [2n] above the exact sum,
    [n] the number of roundings. *)
Lemma total_accurate c cs :
  Forall (fun c => in_range c = true) (c :: cs) ->
  count cs + 1 <= pow2 20 ->
  exists mt et,
    total_of (c :: cs) = S754_finite false mt et
    /\ exact_sum (c :: cs) * (1 - count cs * u) <= pos_value mt et
    /\ pos_value mt et <= exact_sum (c :: cs) * (1 + 2 * count cs * u)
    /\ pow2 (-300) <= exact_sum (c :: cs)
    /\ exact_sum (c :: cs) <= (count cs + 1) * pow2 300.
Proof.
  intros Hr Hn. inversion Hr as [|? ? Hc Hcs]; subst.
  destruct (in_range_spec c Hc) as (mc & ec & -> & Hc1 & Hc2).
  pose proof (count_nonneg cs) as Hn0.
  pose proof (pow2_pos 300) as P300.
  set (v := pos_value mc ec) in *.
  assert (0 <= 0) as K0 by lra.
  assert (0 + count cs <= pow2 20) as K1
    by (change (pow2 20) with 1048576 in *; lra).
  assert (v <= (0 + 1) * pow2 300) as A2 by lra.
  assert (v * (1 - 0 * u) <= v) as L1 by lra.
  assert (v <= v * (1 + 2 * 0 * u)) as L2 by lra.
  destruct (fold_add_accurate cs mc ec v 0 Hcs K0 K1 Hc1 A2 L1 L2)
    as (mt & et & F & B1 & B2 & B3 & B4).
  exists mt, et. unfold total_of. cbn [fold_left exact_sum value].
  change (Float.add (Float.of_Z 0) (S754_finite false mc ec)) with (S754_finite false mc ec).
  split; [exact F|]. fold v.
  assert (0 + count cs == count cs) as E by ring. rewrite E in *.
  auto.
Qed.

Lemma hundred_value : pos_value 7036874417766400 (-46) == 100.
Proof. reflexivity. Qed.

(** One percentage: a division and a multiplication by [100.0], each off
    by at most one unit of relative error. *)
Lemma pct_accurate mc ec mt et :
  pow2 (-300) <= pos_value mc ec -> pos_value mc ec <= pow2 300 ->
  pow2 (-301) <= pos_value mt et -> pos_value mt et <= pow2 322 ->
  exists mp ep,
    percentage (S754_finite false mt et) (S754_finite false mc ec)
    = S754_finite false mp ep
    /\ 100 * pos_value mc ec * ((1 - u) * (1 - u))
       <= pos_value mp ep * pos_value mt et
    /\ pos_value mp ep * pos_value mt et
       <= 100 * pos_value mc ec * ((1 + u) * (1 + u)).
Proof.
  intros Hc1 Hc2 Ht1 Ht2.
  set (vc := pos_value mc ec) in *. set (t := pos_value mt et) in *.
  pose proof (pow2_pos (-301)) as P301.
  assert (0 < t) as Ht0 by lra.
  set (w := vc / t).
  assert (w * t == vc) as Ew by (unfold w; field; lra).
  (* the quotient is far inside the normal range *)
  assert (pow2 (-622) <= w) as Hw1.
  { assert (pow2 (-622) * pow2 322 == pow2 (-300)) as E
      by (rewrite <- pow2_add; reflexivity).
    pose proof (pow2_pos (-622)). pose proof (pow2_pos 322).
    set (a := pow2 (-622)) in *. set (b := pow2 322) in *.
    set (c := pow2 (-300)) in *.
    destruct (Qlt_le_dec w a) as [L|L]; [exfalso; nra | exact L]. }
  assert (w <= pow2 601) as Hw2.
  { assert (pow2 601 * pow2 (-301) == pow2 300) as E
      by (rewrite <- pow2_add; reflexivity).
    pose proof (pow2_pos 601).
    set (a := pow2 601) in *. set (b := pow2 (-301)) in *.
    set (c := pow2 300) in *.
    destruct (Qlt_le_dec a w) as [L|L]; [exfalso; nra | exact L]. }
  assert (pow2 (-1022) <= pow2 (-622)) as R1 by (apply pow2_le; lia).
  assert (pow2 601 < pow2 1023) as R2 by (apply pow2_lt; lia).
  destruct (div_accurate mc ec mt et) as (mq & eq & Dq & Bq & Aq).
  { fold vc t w. lra. }
  { fold vc t w. lra. }
  fold vc t w in Aq. rewrite pow2_u in Aq.
  apply Qabs_Qle_condition in Aq. destruct Aq as [Aq1 Aq2].
  set (q := pos_value mq eq) in *.
  assert (0 < w) as Hw0 by (pose proof (pow2_pos (-622)); lra).
  assert (pow2 (-1022) <= q * 100) as Hq1.
  { unfold u in *. pose proof (pow2_pos (-622)). nra. }
  assert (q * 100 < pow2 1023) as Hq2.
  { assert (200 * pow2 601 < pow2 1023) as R3 by reflexivity.
    unfold u in *. nra. }
  unfold percentage, Float.div. rewrite Dq.
  change (Float.of_Z 100) with (S754_finite false 7036874417766400 (-46)).
  unfold Float.mul.
  destruct (mul_accurate mq eq 7036874417766400 (-46)) as (mp & ep & Mp & _ & Ap).
  { lia. }
  { rewrite hundred_value. exact Hq1. }
  { rewrite hundred_value. exact Hq2. }
  rewrite hundred_value, pow2_u in Ap. fold q in Ap.
  apply Qabs_Qle_condition in Ap. destruct Ap as [Ap1 Ap2].
  exists mp, ep. split; [exact Mp|].
  set (p := pos_value mp ep) in *. unfold u in *.
  assert (0 < q) as Hq0 by nra.
  split.
  - assert (q * 100 * (1 - (1 # 9007199254740992)) <= p) as L1 by lra.
    assert (w * (1 - (1 # 9007199254740992)) <= q) as L2 by lra.
    assert (q * t * 100 * (1 - (1 # 9007199254740992)) <= p * t) as L3 by nra.
    assert (w * t * (1 - (1 # 9007199254740992)) <= q * t) as L4 by nra.
    nra.
  - assert (p <= q * 100 * (1 + (1 # 9007199254740992))) as L1 by lra.
    assert (q <= w * (1 + (1 # 9007199254740992))) as L2 by lra.
    assert (p * t <= q * t * 100 * (1 + (1 # 9007199254740992))) as L3 by nra.
    assert (q * t <= w * t * (1 + (1 # 9007199254740992))) as L4 by nra.
    nra.
Qed.

Lemma pcts_accurate mt et : forall cs,
  Forall (fun c => in_range c = true) cs ->
  pow2 (-301) <= pos_value mt et -> pos_value mt et <= pow2 322 ->
  100 * exact_sum cs * ((1 - u) * (1 - u))
    <= exact_sum (map (percentage (S754_finite false mt et)) cs) * pos_value mt et
  /\ exact_sum (map (percentage (S754_finite false mt et)) cs) * pos_value mt et
    <= 100 * exact_sum cs * ((1 + u) * (1 + u)).
Proof.
  intros cs Hr Ht1 Ht2. induction Hr as [|c cs Hc Hcs IH].
  - cbn. lra.
  - destruct (in_range_spec c Hc) as (mc & ec & -> & Hc1 & Hc2).
    destruct (pct_accurate mc ec mt et Hc1 Hc2 Ht1 Ht2) as (mp & ep & E & B1 & B2).
    cbn [map exact_sum]. rewrite E. cbn [value].
    set (t := pos_value mt et) in *. set (p := pos_value mp ep) in *.
    set (P := exact_sum (map (percentage (S754_finite false mt et)) cs)) in *.
    set (S := exact_sum cs) in *. set (vc := pos_value mc ec) in *.
    unfold u in *. split; nra.
Qed.

(** The arithmetic behind the bound: a total off by [n] roundings and
    percentages off by two each leave the sum within [256 (n + 1) u] of
    one hundred. *)
Lemma hundred_bound S t P n :
  0 < S -> 0 < t -> 0 <= n -> n + 1 <= pow2 20 ->
  S * (1 - n * u) <= t -> t <= S * (1 + 2 * n * u) ->
  100 * S * ((1 - u) * (1 - u)) <= P * t ->
  P * t <= 100 * S * ((1 + u) * (1 + u)) ->
  Qabs (P - 100) <= (n + 1) * pow2 (-45).
Proof.
  intros HS Ht Hn0 Hn Ht1 Ht2 HP1 HP2.
  change (pow2 20) with 1048576 in Hn.
  change (pow2 (-45)) with (1 # 35184372088832). unfold u in *.
  assert (n * n <= 1048576 * n) as Hnn by nra.
  assert (0 < P) as HP0.
  { destruct (Qlt_le_dec 0 P) as [L|L]; [exact L|]. exfalso.
    assert (P * t <= 0) by nra. nra. }
  set (d := (n + 1) * (1 # 35184372088832)).
  assert (0 <= d <= 1) as Hd by (unfold d; lra).
  assert (100 * ((1 + (1 # 9007199254740992)) * (1 + (1 # 9007199254740992)))
          <= (100 + d) * (1 - n * (1 # 9007199254740992))) as K1.
  { unfold d. nra. }
  assert ((100 - d) * (1 + 2 * n * (1 # 9007199254740992))
          <= 100 * ((1 - (1 # 9007199254740992)) * (1 - (1 # 9007199254740992)))) as K2.
  { unfold d. nra. }
  apply Qabs_Qle_condition. split.
  - destruct (Qlt_le_dec P (100 - d)) as [L|L]; [exfalso | lra].
    assert (P * t <= P * (S * (1 + 2 * n * (1 # 9007199254740992)))) as M1 by nra.
    assert (P * (S * (1 + 2 * n * (1 # 9007199254740992)))
            < (100 - d) * (S * (1 + 2 * n * (1 # 9007199254740992)))) as M2 by nra.
    assert ((100 - d) * (1 + 2 * n * (1 # 9007199254740992)) * S
            <= 100 * ((1 - (1 # 9007199254740992)) * (1 - (1 # 9007199254740992))) * S)
      as M3 by nra.
    nra.
  - destruct (Qlt_le_dec (100 + d) P) as [L|L]; [exfalso | lra].
    assert (P * (S * (1 - n * (1 # 9007199254740992))) <= P * t) as M1 by nra.
    assert ((100 + d) * (S * (1 - n * (1 # 9007199254740992)))
            < P * (S * (1 - n * (1 # 9007199254740992)))) as M2 by nra.
    assert (100 * ((1 + (1 # 9007199254740992)) * (1 + (1 # 9007199254740992))) * S
            <= (100 + d) * (1 - n * (1 # 9007199254740992)) * S) as M3 by nra.
    nra.
Qed.

(** Amounts in range, at most [2^20] of them: the total is finite and not
    zero and the percentages sum to one hundred within [N * 2^-45]. *)
Lemma percentages_accurate c cs :
  Forall (fun c => in_range c = true) (c :: cs) ->
  count (c :: cs) <= pow2 20 ->
  Float.is_zero (total_of (c :: cs)) = false
  /\ Qabs (exact_sum (map (percentage (total_of (c :: cs))) (c :: cs)) - 100)
     <= count (c :: cs) * pow2 (-45).
Proof.
  intros Hr Hn. rewrite count_cons in Hn.
  destruct (total_accurate c cs Hr Hn) as (mt & et & E & T1 & T2 & S1 & S2).
  rewrite E. split; [reflexivity|].
  pose proof (count_nonneg cs) as Hn0.
  set (S := exact_sum (c :: cs)) in *. set (t := pos_value mt et) in *.
  set (n := count cs) in *.
  pose proof (pow2_pos (-300)) as P300.
  change (pow2 20) with 1048576 in Hn.
  assert (pow2 (-301) <= t) as Ht1.
  { assert (pow2 (-300) == 2 * pow2 (-301)) as E1
      by (rewrite <- pow2_succ; reflexivity).
    unfold u in *. set (a := pow2 (-301)) in *. set (b := pow2 (-300)) in *.
    assert (0 <= S * n) by nra. assert (S * n <= S * 1048576) by nra. nra. }
  assert (t <= pow2 322) as Ht2.
  { assert (pow2 322 == 4194304 * pow2 300) as E1 by reflexivity.
    pose proof (pow2_pos 300). unfold u in *.
    set (a := pow2 322) in *. set (b := pow2 300) in *.
    assert (0 <= S * n) by nra. assert (S * n <= S * 1048576) by nra. nra. }
  destruct (pcts_accurate mt et (c :: cs) Hr Ht1 Ht2) as [B1 B2].
  rewrite count_cons. fold n.
  pose proof (pow2_pos (-301)) as P301.
  apply (hundred_bound S t); try assumption; try lra.
Qed.

End Accuracy.

(** ** Reading currency strings *)

Lemma append_assoc (a b c : string) : ((a ++ b) ++ c = a ++ (b ++ c))%string.
Proof. induction a as [|x a IH]; cbn; congruence. Qed.

Lemma append_nil_r (a : string) : (a ++ EmptyString)%string = a.
Proof. induction a as [|x a IH]; cbn; congruence. Qed.

Lemma all_chars_app P a b :
  all_chars P (a ++ b) = all_chars P a && all_chars P b.
Proof.
  induction a as [|x a IH]; cbn; [reflexivity|].
  now rewrite IH, andb_assoc.
Qed.

Lemma all_chars_weaken (P Q : ascii -> bool) s :
  (forall c, P c = true -> Q c = true) ->
  all_chars P s = true -> all_chars Q s = true.
Proof.
  intros H. induction s as [|c s IH]; cbn; [reflexivity|].
  rewrite !andb_true_iff. intros [Hc Hs]. auto.
Qed.

(** Stripping leaves a string without white space as it is. *)
Lemma strip_with_none ws s :
  all_chars (fun c => negb (ws c)) s = true -> Str.strip_with ws s = s.
Proof.
  intros H. unfold Str.strip_with.
  assert (Str.lstrip_with ws s = s) as ->.
  { destruct s as [|c s]; cbn in *; [reflexivity|].
    apply andb_true_iff in H. destruct H as [Hc _].
    now destruct (ws c). }
  induction s as [|c s IH]; cbn in *; [reflexivity|].
  apply andb_true_iff in H. destruct H as [Hc Hs].
  rewrite (IH Hs). destruct s; [|reflexivity].
  now destruct (ws c).
Qed.

Lemma replace_app old new a b :
  Str.replace old new (a ++ b)
  = (Str.replace old new a ++ Str.replace old new b)%string.
Proof.
  induction a as [|x a IH]; cbn; [reflexivity|].
  destruct (Ascii.eqb x old); rewrite IH; [now rewrite append_assoc | reflexivity].
Qed.

Lemma replace_absent old new s :
  all_chars (fun c => negb (Ascii.eqb c old)) s = true ->
  Str.replace old new s = s.
Proof.
  induction s as [|c s IH]; cbn; [reflexivity|].
  rewrite andb_true_iff. intros [Hc Hs].
  destruct (Ascii.eqb c old); [discriminate|]. now rewrite IH.
Qed.

(** *** Digits *)

Lemma digit_cases d :
  (d < 10)%N -> In d [0; 1; 2; 3; 4; 5; 6; 7; 8; 9]%N.
Proof.
  intros H. cbn.
  destruct d as [|p]; [auto|].
  do 4 (destruct p as [p|p|]; try lia; auto 12).
Qed.

Lemma digit_char_facts d :
  (d < 10)%N ->
  Str.isdigit (Str.digit_char d) = true
  /\ Str.digit_value (Str.digit_char d) = d.
Proof.
  intros H. apply digit_cases in H.
  repeat (destruct H as [<- | H]; [split; reflexivity|]). destruct H.
Qed.

Lemma isdigit_number_char c : Str.isdigit c = true -> is_number_char c = true.
Proof. unfold is_number_char. now intros ->. Qed.

Lemma digit_string_app a b :
  digit_string (a ++ b) = (digit_string a ++ digit_string b)%string.
Proof. induction a as [|d a IH]; cbn; congruence. Qed.

Lemma digit_string_chars ds :
  are_digits ds -> all_chars Str.isdigit (digit_string ds) = true.
Proof.
  induction 1 as [|d ds Hd _ IH]; cbn; [reflexivity|].
  apply digit_char_facts in Hd. destruct Hd as [-> _]. exact IH.
Qed.

(** A character test that holds for every digit holds along a digit
    string. *)
Lemma digit_string_all P ds :
  (forall c, Str.isdigit c = true -> P c = true) ->
  are_digits ds -> all_chars P (digit_string ds) = true.
Proof.
  intros H Hd. eapply all_chars_weaken; [exact H|].
  now apply digit_string_chars.
Qed.

(** What is true of the ten digit characters is true of every character
    [isdigit] accepts. *)
Lemma isdigit_inv c :
  Str.isdigit c = true ->
  exists d, (d < 10)%N /\ c = Str.digit_char d.
Proof.
  unfold Str.isdigit, Str.in_range, Str.code. intros H.
  apply andb_true_iff in H. destruct H as [H1 H2].
  apply N.leb_le in H1, H2.
  exists (N_of_ascii c - 48)%N. split; [lia|].
  unfold Str.digit_char.
  replace (48 + (N_of_ascii c - 48))%N with (N_of_ascii c) by lia.
  now rewrite ascii_N_embedding.
Qed.

Lemma digit_is P :
  forallb (fun d => P (Str.digit_char d)) [0; 1; 2; 3; 4; 5; 6; 7; 8; 9]%N = true ->
  forall c, Str.isdigit c = true -> P c = true.
Proof.
  intros H c Hc. destruct (isdigit_inv c Hc) as (d & Hd & ->).
  rewrite forallb_forall in H. apply H. now apply digit_cases.
Qed.

Lemma take_digits_all ds :
  are_digits ds -> Float.take_digits (digit_string ds) = (ds, EmptyString).
Proof.
  induction 1 as [|d ds Hd _ IH]; cbn; [reflexivity|].
  destruct (digit_char_facts d Hd) as [-> ->]. now rewrite IH.
Qed.

Lemma take_digits_point ds rest :
  are_digits ds ->
  Float.take_digits (digit_string ds ++ String "." rest)
  = (ds, String "." rest).
Proof.
  induction 1 as [|d ds Hd _ IH]; cbn; [reflexivity|].
  destruct (digit_char_facts d Hd) as [-> ->]. now rewrite IH.
Qed.

(** Without underscores nothing is dropped. *)
Lemma drop_underscores_none s : forall prev,
  Ascii.eqb prev "_" = false ->
  all_chars (fun c => negb (Ascii.eqb c "_")) s = true ->
  Float.drop_underscores prev s = Some s.
Proof.
  induction s as [|c s IH]; intros prev Hp H; cbn in *.
  - now rewrite Hp.
  - apply andb_true_iff in H. destruct H as [Hc Hs].
    apply negb_true_iff in Hc. rewrite Hc, Hp. cbn.
    now rewrite (IH c Hc Hs).
Qed.

Lemma take_sign_number s :
  all_chars is_number_char s = true -> Float.take_sign s = (false, s).
Proof.
  destruct s as [|c s]; [reflexivity|]. cbn [all_chars].
  rewrite andb_true_iff. intros [Hc _]. unfold is_number_char in Hc.
  apply orb_true_iff in Hc. destruct Hc as [Hc | Hc].
  - destruct (isdigit_inv c Hc) as (d & Hd & ->). apply digit_cases in Hd.
    repeat (destruct Hd as [<- | Hd]; [reflexivity|]). destruct Hd.
  - apply Ascii.eqb_eq in Hc. now subst c.
Qed.

(** The groups joined by commas, the commas removed. *)
Lemma replace_comma_join groups :
  Forall are_digits groups ->
  Str.replace "," EmptyString (Str.join "," (map digit_string groups))
  = digit_string (List.concat groups).
Proof.
  assert (forall ds, are_digits ds ->
            Str.replace "," EmptyString (digit_string ds) = digit_string ds) as Hd.
  { intros ds H. apply replace_absent. apply digit_string_all; [|exact H].
    apply digit_is. reflexivity. }
  induction 1 as [|g groups Hg Hgs IH]; [reflexivity|].
  cbn [map List.concat]. rewrite digit_string_app, <- IH.
  destruct groups as [|g' groups].
  - cbn. rewrite append_nil_r. now apply Hd.
  - cbn [map Str.join]. rewrite !replace_app, (Hd g Hg). reflexivity.
Qed.

Lemma join_chars groups :
  Forall are_digits groups ->
  all_chars (fun c => Str.isdigit c || Ascii.eqb c ",")
    (Str.join "," (map digit_string groups)) = true.
Proof.
  assert (forall ds, are_digits ds ->
            all_chars (fun c => Str.isdigit c || Ascii.eqb c ",")
              (digit_string ds) = true) as Hd.
  { intros ds H. apply digit_string_all; [|exact H]. now intros c ->. }
  induction 1 as [|g groups Hg Hgs IH]; [reflexivity|].
  destruct groups as [|g' groups].
  - now apply Hd.
  - change (Str.join "," (map digit_string (g :: g' :: groups)))
      with (digit_string g ++ "," ++ Str.join "," (map digit_string (g' :: groups)))%string.
    now rewrite !all_chars_app, (Hd g Hg), IH.
Qed.

Lemma join_all P groups :
  (forall c, Str.isdigit c = true -> P c = true) -> P ","%char = true ->
  Forall are_digits groups ->
  all_chars P (Str.join "," (map digit_string groups)) = true.
Proof.
  intros Hd Hc Hg. eapply all_chars_weaken; [|now apply join_chars].
  intros c H. apply orb_true_iff in H. destruct H as [H | H]; [auto|].
  apply Ascii.eqb_eq in H. now subst c.
Qed.

Lemma fraction_all P fraction :
  (forall c, Str.isdigit c = true -> P c = true) -> P "."%char = true ->
  are_digits (fraction_digits fraction) ->
  all_chars P (fraction_string fraction) = true.
Proof.
  intros Hd Hc Hf. destruct fraction as [ds|]; cbn in *; [|reflexivity].
  rewrite Hc. now apply digit_string_all.
Qed.

(** What cleaning leaves of a currency string: its digits and its point. *)
Lemma clean_currency dollar groups fraction :
  Forall are_digits groups -> are_digits (fraction_digits fraction) ->
  clean (currency_string dollar groups fraction)
  = (digit_string (List.concat groups) ++ fraction_string fraction)%string.
Proof.
  intros Hg Hf. unfold clean, currency_string.
  set (J := Str.join "," (map digit_string groups)).
  set (F := fraction_string fraction).
  assert (forall P, (forall c, Str.isdigit c = true -> P c = true) ->
            P ","%char = true -> P "."%char = true ->
            all_chars P (J ++ F) = true) as Hall.
  { intros P H1 H2 H3. rewrite all_chars_app. unfold J, F.
    now rewrite join_all, fraction_all. }
  unfold Str.strip. rewrite strip_with_none.
  2:{ rewrite all_chars_app, Hall; try reflexivity.
      - now destruct dollar.
      - apply digit_is. reflexivity. }
  rewrite replace_app.
  replace (Str.replace "$" EmptyString (if dollar then "$" else EmptyString))
    with EmptyString by now destruct dollar.
  cbn [append]. rewrite (replace_absent "$").
  2:{ apply Hall; try reflexivity. apply digit_is. reflexivity. }
  rewrite replace_app. unfold J. rewrite replace_comma_join by assumption.
  rewrite (replace_absent ","); [reflexivity|].
  unfold F. apply fraction_all; try assumption; try reflexivity.
  apply digit_is. reflexivity.
Qed.

(** [float] reads digits with an optional point as the float nearest to
    the decimal they write. *)
Lemma of_string_digits ip fraction :
  are_digits ip -> are_digits (fraction_digits fraction) ->
  (ip ++ fraction_digits fraction)%list <> [] ->
  Float.of_string (digit_string ip ++ fraction_string fraction)
  = Some (Float.strtod false
            (Float.decimal_value (ip ++ fraction_digits fraction))
            (- Z.of_nat (List.length (fraction_digits fraction)))).
Proof.
  intros Hi Hf Hne.
  set (t := (digit_string ip ++ fraction_string fraction)%string).
  assert (all_chars is_number_char t = true) as Hn.
  { unfold t. rewrite all_chars_app, digit_string_all, fraction_all;
      try assumption; try reflexivity; apply isdigit_number_char. }
  unfold Float.of_string.
  rewrite strip_with_none.
  2:{ eapply all_chars_weaken; [|exact Hn]. intros c Hc.
      unfold is_number_char in Hc. apply orb_true_iff in Hc.
      destruct Hc as [Hc | Hc].
      - revert c Hc. apply digit_is. reflexivity.
      - apply Ascii.eqb_eq in Hc. now subst c. }
  rewrite drop_underscores_none; [|reflexivity|].
  2:{ eapply all_chars_weaken; [|exact Hn]. intros c Hc.
      unfold is_number_char in Hc. apply orb_true_iff in Hc.
      destruct Hc as [Hc | Hc].
      - revert c Hc. apply digit_is. reflexivity.
      - apply Ascii.eqb_eq in Hc. now subst c. }
  rewrite take_sign_number by exact Hn.
  unfold t, Float.parse_number.
  destruct fraction as [fd|]; cbn [fraction_string fraction_digits] in *.
  - rewrite take_digits_point by assumption.
    rewrite take_digits_all by assumption.
    destruct ip as [|d ip]; [destruct fd as [|d fd]; [now destruct Hne|]|];
      reflexivity.
  - rewrite append_nil_r, take_digits_all by assumption.
    destruct ip as [|d ip]; [now destruct Hne|]. reflexivity.
Qed.

Section DecimalAccuracy.

Local Open Scope Q_scope.

Lemma inject_pow10 k : inject_Z (Zpos (10 ^ k)) == 10 ^ Zpos k.
Proof.
  rewrite Pos2Z.inj_pow, Zpower_Qpower by lia. reflexivity.
Qed.

(** A positive decimal in the normal range is read within half a unit in
    the last place. *)
Lemma strtod_accurate p e :
  pow2 (-1022) <= decimal_Q (Npos p) e -> decimal_Q (Npos p) e < pow2 1023 ->
  exists m' e',
    Float.strtod false (Npos p) e = S754_finite false m' e'
    /\ Qabs (pos_value m' e' - decimal_Q (Npos p) e)
       <= decimal_Q (Npos p) e * u.
Proof.
  intros Hlo Hhi.
  assert (forall n, (0 <= n)%Z -> e = n ->
            exists m' e',
              Float.strtod false (Npos p) e = S754_finite false m' e'
              /\ Qabs (pos_value m' e' - decimal_Q (Npos p) e)
                 <= decimal_Q (Npos p) e * u) as Hpos.
  { intros n Hn En.
    assert (Float.strtod false (Npos p) e
            = binary_round Float.prec Float.emax false (p * Z.to_pos (10 ^ e)) 0) as ->.
    { subst e. now destruct n. }
    assert (0 < 10 ^ e)%Z as H10 by (apply Z.pow_pos_nonneg; lia).
    assert (pos_value (p * Z.to_pos (10 ^ e)) 0 == decimal_Q (Npos p) e) as E.
    { unfold pos_value, decimal_Q. change (pow2 0) with 1.
      rewrite Pos2Z.inj_mul, Z2Pos.id, inject_Z_mult, Zpower_Qpower by lia.
      cbn [Z.of_N]. change (inject_Z 10) with 10. ring. }
    rewrite <- E in Hlo, Hhi.
    destruct (binary_round_accurate _ _ Hlo Hhi) as (m' & e' & R & _ & A).
    exists m', e'. rewrite E, pow2_u in A. auto. }
  destruct e as [|k|k].
  - apply (Hpos 0%Z); [lia | reflexivity].
  - apply (Hpos (Zpos k)); [lia | reflexivity].
  - change (Float.strtod false (Npos p) (Zneg k))
      with (SFdiv Float.prec Float.emax (S754_finite false p 0)
              (S754_finite false (10 ^ k) 0)).
    assert (pos_value p 0 / pos_value (10 ^ k) 0 == decimal_Q (Npos p) (Zneg k)) as E.
    { unfold pos_value, decimal_Q. change (pow2 0) with 1.
      rewrite inject_pow10. cbn [Z.of_N].
      change (10 ^ Zneg k) with (/ 10 ^ Zpos k).
      assert (~ 10 ^ Zpos k == 0) by (apply Qpower_not_0; discriminate).
      field. assumption. }
    rewrite <- E in Hlo, Hhi.
    destruct (div_accurate _ _ _ _ Hlo Hhi) as (m' & e' & R & _ & A).
    exists m', e'. rewrite E, pow2_u in A. auto.
Qed.

End DecimalAccuracy.
(** ** Formatting and the written file *)

Lemma decimal_value_snoc ds d :
  Float.decimal_value (ds ++ [d]) = (10 * Float.decimal_value ds + d)%N.
Proof. unfold Float.decimal_value. now rewrite fold_left_app. Qed.

(** The last [width] digits of a number below [10^width] write it. *)
Lemma low_digits_written width : forall n acc,
  (n < 10 ^ N.of_nat width)%N ->
  exists ds,
    List.length ds = width /\ are_digits ds
    /\ Fmt.low_digits width n acc = (digit_string ds ++ acc)%string
    /\ Float.decimal_value ds = n.
Proof.
  induction width as [|width IH]; intros n acc Hn.
  - exists []. cbn in *. repeat split; [constructor | lia].
  - rewrite Nat2N.inj_succ, N.pow_succ_r' in Hn.
    assert (n / 10 < 10 ^ N.of_nat width)%N as Hq
      by (apply N.Div0.div_lt_upper_bound; lia).
    destruct (IH (n / 10)%N (String (Str.digit_char (n mod 10)) acc) Hq)
      as (ds & Hl & Hd & Hs & Hv).
    exists (ds ++ [n mod 10]%N). repeat split.
    + rewrite length_app. cbn. lia.
    + apply Forall_app. split; [exact Hd|]. constructor; [|constructor].
      apply N.mod_upper_bound. lia.
    + cbn [Fmt.low_digits]. rewrite Hs, digit_string_app, append_assoc.
      reflexivity.
    + rewrite decimal_value_snoc, Hv. symmetry. apply N.div_mod. lia.
Qed.

Lemma zero_padded_written width n :
  (n < 10 ^ N.of_nat width)%N -> written_in width (Fmt.zero_padded width n) n.
Proof.
  intros Hn. unfold Fmt.zero_padded.
  rewrite (N.div_small n) by exact Hn. cbn [N.eqb append].
  destruct (low_digits_written width n EmptyString Hn) as (ds & Hl & Hd & Hs & Hv).
  exists ds. rewrite Hs, append_nil_r. auto.
Qed.

Lemma written_2 n : (n < 100)%N -> written_in 2 (Fmt.zero_padded 2 n) n.
Proof. intros H. now apply zero_padded_written. Qed.

Lemma written_4 n : (n < 10000)%N -> written_in 4 (Fmt.zero_padded 4 n) n.
Proof. intros H. now apply zero_padded_written. Qed.

(** A number of [w + 1] digits is printed in these digits. *)
Lemma digits_low_digits w : forall fuel n acc,
  (w < fuel)%nat ->
  (10 ^ N.of_nat w <= n < 10 ^ N.of_nat (S w))%N ->
  Fmt.digits fuel n acc = Fmt.low_digits (S w) n acc.
Proof.
  induction w as [|w IH]; intros [|fuel] n acc Hf Hn; try lia.
  - cbn [Fmt.digits Fmt.low_digits].
    rewrite (N.div_small n) by (cbn in Hn; lia). reflexivity.
  - rewrite !Nat2N.inj_succ, !N.pow_succ_r' in Hn.
    assert (10 ^ N.of_nat w <= n / 10)%N as Hlo
      by (apply N.div_le_lower_bound; lia).
    assert (n / 10 < 10 * 10 ^ N.of_nat w)%N as Hhi
      by (apply N.Div0.div_lt_upper_bound; lia).
    assert (0 < 10 ^ N.of_nat w)%N as Hp
      by (apply N.neq_0_lt_0, N.pow_nonzero; lia).
    cbn [Fmt.digits].
    destruct (n / 10 =? 0)%N eqn:E; [apply N.eqb_eq in E; lia|].
    rewrite (IH fuel (n / 10)%N) by
      (rewrite ?Nat2N.inj_succ, ?N.pow_succ_r'; lia).
    reflexivity.
Qed.

(** A year from 1000 on is printed in its four digits. *)
Lemma decimal_4 n :
  (1000 <= n < 10000)%N -> Fmt.decimal n = Fmt.zero_padded 4 n.
Proof.
  intros Hn. unfold Fmt.decimal, Fmt.zero_padded.
  rewrite (N.div_small n) by (cbn; lia). cbn [N.eqb append].
  assert (9 <= N.log2 n)%N as Hl
    by (change 9%N with (N.log2 512); apply N.log2_le_mono; lia).
  apply (digits_low_digits 3); [lia | cbn; lia].
Qed.

(** What [decimal] prints is the number in decimal digits. *)
Lemma digits_written fuel : forall n acc,
  (n < 2 ^ N.of_nat fuel)%N ->
  exists ds,
    are_digits ds
    /\ Fmt.digits fuel n acc = (digit_string ds ++ acc)%string
    /\ Float.decimal_value ds = n.
Proof.
  induction fuel as [|fuel IH]; intros n acc Hn.
  - exists []. cbn in *. repeat split; [constructor | lia].
  - rewrite Nat2N.inj_succ, N.pow_succ_r' in Hn. cbn [Fmt.digits].
    assert (n mod 10 < 10)%N as Hd by (apply N.mod_upper_bound; lia).
    destruct (n / 10 =? 0)%N eqn:E.
    + apply N.eqb_eq in E. exists [n mod 10]%N. repeat split.
      * constructor; [exact Hd | constructor].
      * pose proof (N.div_mod n 10 ltac:(lia)) as Hm. cbn. lia.
    + assert (n / 10 < 2 ^ N.of_nat fuel)%N as Hq
        by (apply N.Div0.div_lt_upper_bound; lia).
      destruct (IH (n / 10)%N (String (Str.digit_char (n mod 10)) acc) Hq)
        as (ds & Hds & Hs & Hv).
      exists (ds ++ [n mod 10]%N). repeat split.
      * apply Forall_app. split; [exact Hds|].
        constructor; [exact Hd | constructor].
      * rewrite Hs, digit_string_app, append_assoc. reflexivity.
      * rewrite decimal_value_snoc, Hv. symmetry. apply N.div_mod. lia.
Qed.

Lemma decimal_written n :
  exists ds,
    are_digits ds /\ Fmt.decimal n = digit_string ds
    /\ Float.decimal_value ds = n.
Proof.
  assert (n < 2 ^ N.of_nat (S (N.to_nat (N.log2 n))))%N as Hn.
  { rewrite Nat2N.inj_succ, N2Nat.id.
    destruct n as [|p]; [cbn; lia|].
    apply N.log2_spec. lia. }
  destruct (digits_written _ n EmptyString Hn) as (ds & Hds & Hs & Hv).
  exists ds. unfold Fmt.decimal. rewrite Hs, append_nil_r. auto.
Qed.

(** A year below 1000 has no leading zero, one from 1000 on its four digits. *)
Example strftime_years :
  Fmt.strftime "%Y" {| year := 999; month := 1; day := 1; hour := 0;
                       minute := 0 |} = "999"
  /\ Fmt.strftime "%d.%m.%Y" {| year := 2024; month := 3; day := 7;
                                hour := 9; minute := 5 |} = "07.03.2024".
Proof. split; reflexivity. Qed.

(** The file name as the format string spells it out. *)
Lemma filename_of_eq t :
  filename_of t
  = ("Top100 " ++ Fmt.zero_padded 2 (hour t) ++ "."
     ++ Fmt.zero_padded 2 (minute t) ++ " "
     ++ Fmt.zero_padded 2 (day t) ++ "."
     ++ Fmt.zero_padded 2 (month t) ++ "."
     ++ Fmt.decimal (year t) ++ ".csv")%string.
Proof.
  unfold filename_of. cbn [Fmt.strftime].

  change (Fmt.directive "H" t) with (Fmt.zero_padded 2 (hour t)).
  change (Fmt.directive "M" t) with (Fmt.zero_padded 2 (minute t)).
  change (Fmt.directive "d" t) with (Fmt.zero_padded 2 (day t)).
  change (Fmt.directive "m" t) with (Fmt.zero_padded 2 (month t)).
  change (Fmt.directive "Y" t) with (Fmt.decimal (year t)).
  rewrite append_nil_r.
  repeat (first [rewrite append_assoc | progress cbn [append]]). reflexivity.
Qed.

Lemma filename_names_the_time t :
  valid_datetime t -> (1000 <= year t)%N -> names_the_time (filename_of t) t.
Proof.
  intros (Hh & Hm & Hd & Hmo & Hy) Hc.
  exists (Fmt.zero_padded 2 (hour t)), (Fmt.zero_padded 2 (minute t)),
    (Fmt.zero_padded 2 (day t)), (Fmt.zero_padded 2 (month t)),
    (Fmt.zero_padded 4 (year t)).
  split; [rewrite filename_of_eq, decimal_4 by lia; reflexivity|].
  repeat split; first [apply written_2 | apply written_4]; lia.
Qed.

Section Written.

Variable float_repr : Float.float -> string.

Lemma writerows file coins_info :
  fold_left (fun f coin => Csv.writerow f (fields_of float_repr coin))
    coins_info file
  = file ++ map (fun coin => Csv.format_row (fields_of float_repr coin))
              coins_info.
Proof.
  revert file. induction coins_info as [|coin coins IH]; intros file; cbn.
  - now rewrite app_nil_r.
  - rewrite IH. unfold Csv.writerow. now rewrite <- app_assoc.
Qed.

Lemma write_cmc_top_ok w coins_info :
  get_content (get_html w) = Ok coins_info ->
  write_cmc_top float_repr w
  = (Ok tt,
     store (filename_of (now w)) (rows_of float_repr coins_info) (files w)).
Proof.
  intros H. unfold write_cmc_top. rewrite H, writerows. reflexivity.
Qed.

Lemma write_cmc_top_raise w e :
  get_content (get_html w) = Raise e ->
  write_cmc_top float_repr w = (Raise e, files w).
Proof. intros H. unfold write_cmc_top. now rewrite H. Qed.

Lemma store_same filename file fs : store filename file fs filename = Some file.
Proof. unfold store. now rewrite String.eqb_refl. Qed.

End Written.

(** ** What a successful extraction returned *)

Lemma parse_all caps :
  (exists cs, Forall2 parses caps cs)
  \/ Exists (fun cap_tag => Float.of_string (cap_str cap_tag) = None) caps.
Proof.
  induction caps as [|cap caps IH].
  - left. exists []. constructor.
  - destruct (Float.of_string (cap_str cap)) as [c|] eqn:E.
    + destruct IH as [[cs H] | H].
      * left. exists (c :: cs). now constructor.
      * right. now apply Exists_cons_tl.
    + right. now apply Exists_cons_hd.
Qed.

(** Extraction returns a list exactly when every capitalization parses
    and either the total is not zero or no pair is formed; the list is
    then the records of the pairs. *)
Lemma get_content_inv html_text table rs :
  find "tbody" (BeautifulSoup html_text) = Some table ->
  get_content html_text = Ok rs ->
  exists cs,
    Forall2 parses (capitalization_tags table) cs
    /\ rs = map (record_of (total_of cs)) (combine (coin_name_tags table) cs).
Proof.
  intros Hf Hok.
  destruct (parse_all (capitalization_tags table)) as [[cs Hp] | He].
  - exists cs. split; [exact Hp|].
    destruct (Float.is_zero (total_of cs)) eqn:Hz.
    + destruct (coin_name_tags table) as [|n ns] eqn:En.
      * rewrite (get_content_ok _ _ _ Hf Hp) in Hok by (rewrite En; auto).
        rewrite En in Hok. now injection Hok as <-.
      * destruct (capitalization_tags table) as [|cap caps] eqn:Ec.
        -- rewrite (get_content_ok _ _ cs Hf) in Hok
             by (rewrite ?Ec; auto).
           rewrite En in Hok. now injection Hok as <-.
        -- rewrite (get_content_zero_total _ _ cs Hf) in Hok;
             rewrite ?En, ?Ec; try assumption; discriminate.
    + rewrite (get_content_ok _ _ _ Hf Hp) in Hok by auto.
      now injection Hok as <-.
  - rewrite (get_content_unparsed _ _ Hf He) in Hok. discriminate.
Qed.

Lemma map_snd_combine {A B : Type} : forall (l : list A) (l' : list B),
  (List.length l' <= List.length l)%nat -> map snd (combine l l') = l'.
Proof.
  induction l as [|a l IH]; intros [|b l'] H; cbn in *;
    try reflexivity; try lia.
  f_equal. apply IH. lia.
Qed.

Lemma pct_sum_records total names cs :
  (List.length cs <= List.length names)%nat ->
  pct_sum (map (record_of total) (combine names cs))
  = exact_sum (map (percentage total) cs).
Proof.
  intros H. unfold pct_sum. rewrite map_map.
  rewrite <- (map_snd_combine names cs H) at 2. now rewrite map_map.
Qed.

(** * The claims *)

(** ** C1: the percentages sum to one hundred *)

(** C1, as stated, fails: with one name element and two capitalization
    elements of 100 dollars each, extraction succeeds with the single
    record [("A", 100.0, 50.0)], whose percentages sum to 50. *)
Lemma percentages_sum_counterexample :
  get_content (page_of mismatch_rows) = Ok [("A", Float.of_Z 100, Float.of_Z 50)]
  /\ (pct_sum [("A", Float.of_Z 100, Float.of_Z 50)] == 50)%Q
  /\ (Qabs (pct_sum [("A", Float.of_Z 100, Float.of_Z 50)] - 100) == 50)%Q.
Proof. repeat split; reflexivity. Qed.

(** C1 (amended): when every capitalization element is paired with a name
    element (at least as many names as capitalizations), and the
    capitalizations, at least one and at most [2^20] of them, parse to
    positive finite amounts between [2^-300] and [2^300], extraction
    succeeds with one record per capitalization and the exact sum of the
    percentage fields differs from 100 by at most [N * 2^-45], [N] the
    number of records. *)
Theorem percentages_sum_to_100 html_text table cs :
  find "tbody" (BeautifulSoup html_text) = Some table ->
  Forall2 parses (capitalization_tags table) cs ->
  (List.length (capitalization_tags table)
   <= List.length (coin_name_tags table))%nat ->
  cs <> [] ->
  (Z.of_nat (List.length cs) <= 2 ^ 20)%Z ->
  Forall (fun c => in_range c = true) cs ->
  exists rs,
    get_content html_text = Ok rs
    /\ List.length rs = List.length cs
    /\ (Qabs (pct_sum rs - 100) <= count rs * pow2 (-45))%Q.
Proof.
  intros Hf Hp Hlen Hne Hn Hr.
  destruct cs as [|c cs]; [congruence|].
  assert (count (c :: cs) <= pow2 20)%Q as Hn'.
  { unfold count. change (pow2 20) with (inject_Z (2 ^ 20)).
    now rewrite <- Zle_Qle. }
  destruct (percentages_accurate c cs Hr Hn') as [Hz Hsum].
  pose proof (Forall2_length_eq _ _ _ Hp) as Hl.
  exists (map (record_of (total_of (c :: cs)))
            (combine (coin_name_tags table) (c :: cs))).
  split; [apply get_content_ok; auto|].
  assert (List.length (map (record_of (total_of (c :: cs)))
                         (combine (coin_name_tags table) (c :: cs)))
          = List.length (c :: cs)) as Hlr.
  { rewrite length_records. lia. }
  split; [exact Hlr|].
  rewrite pct_sum_records by lia.
  unfold count in *. rewrite Hlr. exact Hsum.
Qed.

(** The three-row page meets the conditions of the bound. *)
Lemma percentages_sum_to_100_witness :
  let table := table_of three_rows in
  let cs := [Float.of_Z 100; Float.of_Z 300; Float.of_Z 600] in
  find "tbody" (BeautifulSoup (page_of three_rows)) = Some table
  /\ Forall2 parses (capitalization_tags table) cs
  /\ (List.length (capitalization_tags table)
      <= List.length (coin_name_tags table))%nat
  /\ cs <> []
  /\ (Z.of_nat (List.length cs) <= 2 ^ 20)%Z
  /\ Forall (fun c => in_range c = true) cs
  /\ exists rs,
       get_content (page_of three_rows) = Ok rs
       /\ List.length rs = List.length cs
       /\ (Qabs (pct_sum rs - 100) <= count rs * pow2 (-45))%Q.
Proof.
  intros table cs.
  assert (find "tbody" (BeautifulSoup (page_of three_rows)) = Some table)
    as Hf by reflexivity.
  assert (Forall2 parses (capitalization_tags table) cs) as Hp
    by (repeat constructor).
  assert (List.length (capitalization_tags table)
          <= List.length (coin_name_tags table))%nat as Hl
    by (cbn; lia).
  assert (cs <> []) as Hne by discriminate.
  assert (Z.of_nat (List.length cs) <= 2 ^ 20)%Z as Hn by (cbn; lia).
  assert (Forall (fun c => in_range c = true) cs) as Hr
    by (repeat (apply Forall_cons; [vm_compute; reflexivity|]); apply Forall_nil).
  repeat (split; [assumption|]).
  exact (percentages_sum_to_100 (page_of three_rows) table cs
           Hf Hp Hl Hne Hn Hr).
Defined.

(** Equal counts do not make the sum 100 when the total overflows: two
    amounts of [1e308] give two percentages of zero. *)
Example overflowing_total :
  let c := S754_finite false 5010420900022432 971 in
  get_content (page_of huge_rows)
  = Ok [("A", c, S754_zero false); ("B", c, S754_zero false)]
  /\ total_of [c; c] = S754_infinity false.
Proof. split; vm_compute; reflexivity. Qed.

(** Nor when amounts of both signs cancel in the total: [1e16 + 3 - 1e16]
    is computed as 4, and the percentages sum to 75. *)
Example cancelling_total :
  exists rs,
    get_content (page_of cancelling_rows) = Ok rs
    /\ (pct_sum rs == 75)%Q.
Proof. eexists. split; vm_compute; reflexivity. Qed.

(** ** C2: as many records as elements, in source order *)

(** C2, as stated, fails: a table body with exactly one name element and
    one capitalization element, the capitalization ["$0"], makes the total
    zero; the division raises and no record is returned. *)
Lemma equal_counts_counterexample :
  find "tbody" (BeautifulSoup (page_of zero_rows)) = Some (table_of zero_rows)
  /\ List.length (coin_name_tags (table_of zero_rows)) = 1%nat
  /\ List.length (capitalization_tags (table_of zero_rows)) = 1%nat
  /\ get_content (page_of zero_rows) = Raise ZeroDivisionError.
Proof. repeat split; reflexivity. Qed.

(** C2 (amended): for every markup whose table body has exactly [N] name
    elements and exactly [N] capitalization elements and on which
    extraction does not raise, extraction yields exactly [N] records, and
    the [i]-th record pairs the stripped text of the [i]-th name element
    with the amount parsed from the [i]-th capitalization element. *)
Theorem equal_counts_records html_text table N rs :
  find "tbody" (BeautifulSoup html_text) = Some table ->
  List.length (coin_name_tags table) = N ->
  List.length (capitalization_tags table) = N ->
  get_content html_text = Ok rs ->
  List.length rs = N
  /\ forall i name_tag cap_tag,
       nth_error (coin_name_tags table) i = Some name_tag ->
       nth_error (capitalization_tags table) i = Some cap_tag ->
       exists c market_percentage,
         float (cap_str cap_tag) = Ok c
         /\ nth_error rs i
            = Some (Str.strip (text name_tag), c, market_percentage).
Proof.
  intros Hf Hn Hc Hok.
  destruct (get_content_inv _ _ _ Hf Hok) as (cs & Hp & ->).
  pose proof (Forall2_length_eq _ _ _ Hp) as Hl.
  split; [rewrite length_records; lia|].
  intros i name_tag cap_tag Hi Hj.
  destruct (Forall2_nth _ _ _ _ _ Hp Hj) as (c & Hk & Hpc).
  exists c, (percentage (total_of cs) c).
  split; [now apply float_parses|].
  now rewrite (nth_record _ _ _ _ _ _ Hi Hk).
Qed.

(** Three names and three capitalizations give three records. *)
Lemma equal_counts_records_witness :
  find "tbody" (BeautifulSoup (page_of three_rows)) = Some (table_of three_rows)
  /\ List.length (coin_name_tags (table_of three_rows)) = 3%nat
  /\ List.length (capitalization_tags (table_of three_rows)) = 3%nat
  /\ get_content (page_of three_rows)
     = Ok [("Bitcoin", Float.of_Z 100, Float.of_Z 10);
           ("Ethereum", Float.of_Z 300, Float.of_Z 30);
           ("Tether", Float.of_Z 600, Float.of_Z 60)]
  /\ List.length [("Bitcoin", Float.of_Z 100, Float.of_Z 10);
                  ("Ethereum", Float.of_Z 300, Float.of_Z 30);
                  ("Tether", Float.of_Z 600, Float.of_Z 60)] = 3%nat.
Proof.
  assert (find "tbody" (BeautifulSoup (page_of three_rows))
          = Some (table_of three_rows)) as Hf by reflexivity.
  assert (List.length (coin_name_tags (table_of three_rows)) = 3%nat) as Hn
    by reflexivity.
  assert (List.length (capitalization_tags (table_of three_rows)) = 3%nat)
    as Hc by reflexivity.
  assert (get_content (page_of three_rows)
          = Ok [("Bitcoin", Float.of_Z 100, Float.of_Z 10);
                ("Ethereum", Float.of_Z 300, Float.of_Z 30);
                ("Tether", Float.of_Z 600, Float.of_Z 60)]) as Hok
    by (vm_compute; reflexivity).
  repeat (split; [assumption|]).
  exact (proj1 (equal_counts_records _ _ 3 _ Hf Hn Hc Hok)).
Defined.

(** ** C3: currency strings *)

(** C3: for every string made of an optional ['$'], groups of digits
    separated by commas and an optional point followed by digits, with at
    least one digit in all, cleaning followed by [float] yields the float
    nearest to the number the digits write: positive zero when that number
    is zero, and a finite float within a relative [2^-53] of it when it
    lies in the normal range. *)
Theorem currency_string_value dollar groups fraction :
  Forall are_digits groups ->
  are_digits (fraction_digits fraction) ->
  currency_digits groups fraction <> [] ->
  let m := Float.decimal_value (currency_digits groups fraction) in
  let k := Z.of_nat (List.length (fraction_digits fraction)) in
  float (clean (currency_string dollar groups fraction))
  = Ok (Float.strtod false m (- k))
  /\ (m = 0%N -> Float.strtod false m (- k) = S754_zero false)
  /\ ((pow2 (-1022) <= decimal_Q m (- k))%Q ->
      (decimal_Q m (- k) < pow2 1023)%Q ->
      exists m' e',
        Float.strtod false m (- k) = S754_finite false m' e'
        /\ (Qabs (pos_value m' e' - decimal_Q m (- k))
            <= decimal_Q m (- k) * u)%Q).
Proof.
  intros Hg Hf Hne m k. split; [|split].
  - rewrite clean_currency by assumption. unfold float.
    assert (are_digits (List.concat groups)) as Hc.
    { unfold are_digits in *. rewrite Forall_forall in *.
      intros d Hd. apply in_concat in Hd. destruct Hd as (g & Hg1 & Hg2).
      specialize (Hg g Hg1). rewrite Forall_forall in Hg. auto. }
    now rewrite (of_string_digits _ _ Hc Hf Hne).
  - now intros ->.
  - intros Hlo Hhi. destruct m as [|p] eqn:Em.
    + exfalso. unfold decimal_Q in Hlo. cbn in Hlo.
      pose proof (pow2_pos (-1022)) as Hp.
      assert (0 * 10 ^ (- k) == 0)%Q as E by ring.
      rewrite E in Hlo. apply Qlt_not_le in Hp. contradiction.
    + now apply strtod_accurate.
Qed.

(** The example of the specification, as the grammar builds it. *)
Example currency_example :
  currency_string true [[1]; [2; 3; 4]; [5; 6; 7]]%N (Some [8; 9]%N)
  = "$1,234,567.89".
Proof. reflexivity. Qed.

(** The string [$1,234,567.89] is read as the double nearest to 1234567.89. *)
Lemma currency_string_value_witness :
  Forall are_digits [[1]; [2; 3; 4]; [5; 6; 7]]%N
  /\ are_digits [8; 9]%N
  /\ currency_digits [[1]; [2; 3; 4]; [5; 6; 7]]%N (Some [8; 9]%N) <> []
  /\ float (clean "$1,234,567.89")
     = Ok (S754_finite false 5302428712241725 (-32))
  /\ (Qabs (pos_value 5302428712241725 (-32) - (123456789 # 100))
      <= (123456789 # 100) * u)%Q.
Proof.
  assert (forall ds, forallb (fun d => (d <? 10)%N) ds = true -> are_digits ds)
    as Hd.
  { intros ds H. unfold are_digits. rewrite Forall_forall.
    rewrite forallb_forall in H. intros d Hi. apply N.ltb_lt. auto. }
  assert (Forall are_digits [[1]; [2; 3; 4]; [5; 6; 7]]%N) as Hg
    by (repeat (apply Forall_cons; [apply Hd; reflexivity|]); apply Forall_nil).
  assert (are_digits [8; 9]%N) as Hf by (apply Hd; reflexivity).
  assert (currency_digits [[1]; [2; 3; 4]; [5; 6; 7]]%N (Some [8; 9]%N) <> [])
    as Hne by discriminate.
  repeat (split; [assumption|]).
  destruct (currency_string_value true _ (Some [8; 9]%N) Hg Hf Hne)
    as (Hv & _ & _).
  split; [exact Hv|].
  apply Qabs_Qle_condition. split; vm_compute; discriminate.
Defined.

(** ** C4: the amounts 100, 300 and 600 *)

(** C4: when the table body holds three name elements and three
    capitalization elements that parse to 100, 300 and 600, extraction
    returns three records whose percentage fields are exactly the floats
    10.0, 30.0 and 60.0, in that order. *)
Theorem three_amounts html_text table n1 n2 n3 c1 c2 c3 :
  find "tbody" (BeautifulSoup html_text) = Some table ->
  coin_name_tags table = [n1; n2; n3] ->
  capitalization_tags table = [c1; c2; c3] ->
  parses c1 (Float.of_Z 100) ->
  parses c2 (Float.of_Z 300) ->
  parses c3 (Float.of_Z 600) ->
  get_content html_text
  = Ok [(Str.strip (text n1), Float.of_Z 100, Float.of_Z 10);
        (Str.strip (text n2), Float.of_Z 300, Float.of_Z 30);
        (Str.strip (text n3), Float.of_Z 600, Float.of_Z 60)]
  /\ (value (Float.of_Z 10) == 10 /\ value (Float.of_Z 30) == 30
      /\ value (Float.of_Z 60) == 60)%Q.
Proof.
  intros Hf Hn Hc H1 H2 H3. split; [|repeat split; reflexivity].
  rewrite (get_content_ok html_text table
             [Float.of_Z 100; Float.of_Z 300; Float.of_Z 600] Hf).
  - rewrite Hn. reflexivity.
  - rewrite Hc. repeat constructor; assumption.
  - left. reflexivity.
Qed.

(** The three-row page holds the amounts 100, 300 and 600. *)
Lemma three_amounts_witness :
  find "tbody" (BeautifulSoup (page_of three_rows)) = Some (table_of three_rows)
  /\ coin_name_tags (table_of three_rows)
     = [name_tag_of " Bitcoin "; name_tag_of "Ethereum"; name_tag_of "Tether"]
  /\ capitalization_tags (table_of three_rows)
     = [cap_tag_of "$100"; cap_tag_of "$300"; cap_tag_of "$600"]
  /\ parses (cap_tag_of "$100") (Float.of_Z 100)
  /\ parses (cap_tag_of "$300") (Float.of_Z 300)
  /\ parses (cap_tag_of "$600") (Float.of_Z 600)
  /\ get_content (page_of three_rows)
     = Ok [("Bitcoin", Float.of_Z 100, Float.of_Z 10);
           ("Ethereum", Float.of_Z 300, Float.of_Z 30);
           ("Tether", Float.of_Z 600, Float.of_Z 60)].
Proof.
  assert (find "tbody" (BeautifulSoup (page_of three_rows))
          = Some (table_of three_rows)) as Hf by reflexivity.
  assert (coin_name_tags (table_of three_rows)
          = [name_tag_of " Bitcoin "; name_tag_of "Ethereum";
             name_tag_of "Tether"]) as Hn by reflexivity.
  assert (capitalization_tags (table_of three_rows)
          = [cap_tag_of "$100"; cap_tag_of "$300"; cap_tag_of "$600"]) as Hc
    by reflexivity.
  assert (parses (cap_tag_of "$100") (Float.of_Z 100)) as H1 by reflexivity.
  assert (parses (cap_tag_of "$300") (Float.of_Z 300)) as H2 by reflexivity.
  assert (parses (cap_tag_of "$600") (Float.of_Z 600)) as H3 by reflexivity.
  repeat (split; [assumption|]).
  exact (proj1 (three_amounts _ _ _ _ _ _ _ _ Hf Hn Hc H1 H2 H3)).
Defined.

(** ** C5: the rows of the written file *)

(** C5: in every run whose extraction returns a record list, the file the
    run writes starts with the row [Name;MC;MP], the three column names
    joined by the delimiter [;], holds one row per record after it, each
    the record's fields joined by the same delimiter, and so has as many
    rows as there are records plus one. *)
Theorem written_rows float_repr w coins_info :
  get_content (get_html w) = Ok coins_info ->
  exists file,
    write_cmc_top float_repr w
    = (Ok tt, store (filename_of (now w)) file (files w))
    /\ store (filename_of (now w)) file (files w) (filename_of (now w))
       = Some file
    /\ nth_error file 0 = Some "Name;MC;MP"
    /\ Csv.format_row ["Name"; "MC"; "MP"] = "Name;MC;MP"
    /\ Csv.delimiter = ";"%char
    /\ (exists rest,
          Csv.contents file
          = ("Name;MC;MP" ++ Csv.lineterminator ++ rest)%string)
    /\ List.length file = (List.length coins_info + 1)%nat
    /\ forall i coin,
         nth_error coins_info i = Some coin ->
         nth_error file (S i)
         = Some (Csv.format_row (fields_of float_repr coin)).
Proof.
  intros H. exists (rows_of float_repr coins_info).
  split; [now apply write_cmc_top_ok|].
  split; [apply store_same|].
  repeat (split; [reflexivity|]).
  split; [eexists; reflexivity|].
  split.
  - unfold rows_of. cbn [List.length]. rewrite length_map. lia.
  - intros i coin Hi. unfold rows_of. cbn [nth_error].
    now rewrite nth_error_map, Hi.
Qed.

(** The run on the three-row page writes four rows. *)
Lemma written_rows_witness :
  get_content (get_html (sample_world (page_of three_rows)))
  = Ok [("Bitcoin", Float.of_Z 100, Float.of_Z 10);
        ("Ethereum", Float.of_Z 300, Float.of_Z 30);
        ("Tether", Float.of_Z 600, Float.of_Z 60)]
  /\ exists file,
       write_cmc_top sample_repr (sample_world (page_of three_rows))
       = (Ok tt, store "Top100 09.05 07.03.2024.csv" file (fun _ => None))
       /\ nth_error file 0 = Some "Name;MC;MP"
       /\ List.length file = 4%nat.
Proof.
  assert (get_content (get_html (sample_world (page_of three_rows)))
          = Ok [("Bitcoin", Float.of_Z 100, Float.of_Z 10);
                ("Ethereum", Float.of_Z 300, Float.of_Z 30);
                ("Tether", Float.of_Z 600, Float.of_Z 60)]) as H
    by (vm_compute; reflexivity).
  split; [exact H|].
  destruct (written_rows sample_repr _ _ H)
    as (file & Hw & _ & Hh & _ & _ & _ & Hl & _).
  exists file. repeat split; assumption.
Defined.

(** ** C6: the name of the written file *)

(** C6: in every run whose extraction returns a record list, at a valid
    local time of a year from 1000 on, the run writes a file, the file
    found under its name after the run holds the rows of the run, and the
    name is [Top100 ], the hour and the minute in two digits each
    separated by a point, a space, the day, the month in two digits each
    and the year in four digits separated by points, and [.csv]. *)
Theorem written_file_name float_repr w coins_info :
  valid_datetime (now w) ->
  (1000 <= year (now w))%N ->
  get_content (get_html w) = Ok coins_info ->
  exists filename file,
    write_cmc_top float_repr w = (Ok tt, store filename file (files w))
    /\ snd (write_cmc_top float_repr w) filename = Some file
    /\ file = rows_of float_repr coins_info
    /\ names_the_time filename (now w).
Proof.
  intros Hv Hy H. exists (filename_of (now w)), (rows_of float_repr coins_info).
  rewrite (write_cmc_top_ok float_repr w coins_info H). cbn [snd].
  split; [reflexivity|]. split; [apply store_same|].
  split; [reflexivity | now apply filename_names_the_time].
Qed.

(** At 09:05 on 7 March 2024 the file is [Top100 09.05 07.03.2024.csv]. *)
Lemma written_file_name_witness :
  valid_datetime sample_time
  /\ (1000 <= year sample_time)%N
  /\ get_content (get_html (sample_world (page_of three_rows)))
     = Ok [("Bitcoin", Float.of_Z 100, Float.of_Z 10);
           ("Ethereum", Float.of_Z 300, Float.of_Z 30);
           ("Tether", Float.of_Z 600, Float.of_Z 60)]
  /\ filename_of sample_time = "Top100 09.05 07.03.2024.csv"
  /\ snd (write_cmc_top sample_repr (sample_world (page_of three_rows)))
       "Top100 09.05 07.03.2024.csv"
     = Some ["Name;MC;MP"; "Bitcoin;1.0;1.0"; "Ethereum;1.0;1.0";
             "Tether;1.0;1.0"]
  /\ exists filename file,
       write_cmc_top sample_repr (sample_world (page_of three_rows))
       = (Ok tt, store filename file (fun _ => None))
       /\ snd (write_cmc_top sample_repr (sample_world (page_of three_rows)))
            filename = Some file
       /\ file = rows_of sample_repr
                   [("Bitcoin", Float.of_Z 100, Float.of_Z 10);
                    ("Ethereum", Float.of_Z 300, Float.of_Z 30);
                    ("Tether", Float.of_Z 600, Float.of_Z 60)]
       /\ names_the_time filename sample_time.
Proof.
  assert (valid_datetime sample_time) as Hv
    by (unfold valid_datetime; cbn; lia).
  assert (1000 <= year sample_time)%N as Hy by (cbn; lia).
  assert (get_content (get_html (sample_world (page_of three_rows)))
          = Ok [("Bitcoin", Float.of_Z 100, Float.of_Z 10);
                ("Ethereum", Float.of_Z 300, Float.of_Z 30);
                ("Tether", Float.of_Z 600, Float.of_Z 60)]) as H
    by (vm_compute; reflexivity).
  split; [exact Hv|]. split; [exact Hy|]. split; [exact H|].
  split; [reflexivity|]. split; [vm_compute; reflexivity|].
  exact (written_file_name sample_repr
           (sample_world (page_of three_rows)) _ Hv Hy H).
Defined.

(** ** C7: faults end the run *)

(** C7: markup without a table body makes extraction raise
    [AttributeError]; a capitalization element whose string is not a
    number makes it raise [ValueError]; and whenever extraction raises,
    no record list is returned, the run ends with the same exception and
    the files are left as they were: no file is opened and no row
    written. *)
Theorem extraction_faults_propagate :
  (forall html_text,
     find "tbody" (BeautifulSoup html_text) = None ->
     get_content html_text = Raise AttributeError)
  /\ (forall html_text table cap_tag,
        find "tbody" (BeautifulSoup html_text) = Some table ->
        In cap_tag (capitalization_tags table) ->
        Float.of_string (cap_str cap_tag) = None ->
        get_content html_text = Raise ValueError)
  /\ (forall float_repr w e,
        get_content (get_html w) = Raise e ->
        (forall rs, get_content (get_html w) <> Ok rs)
        /\ write_cmc_top float_repr w = (Raise e, files w)).
Proof.
  split; [|split].
  - intros html_text H. unfold get_content. now rewrite H.
  - intros html_text table cap_tag Hf Hi Hp.
    apply (get_content_unparsed _ _ Hf). apply Exists_exists. eauto.
  - intros float_repr w e H. split; [intros rs; rewrite H; discriminate|].
    now apply write_cmc_top_raise.
Qed.

(** A page without table body and one with an unparsable amount. *)
Lemma extraction_faults_propagate_witness :
  get_content bare_page = Raise AttributeError
  /\ get_content (page_of surplus_rows) = Raise ValueError
  /\ write_cmc_top sample_repr (sample_world bare_page)
     = (Raise AttributeError, files (sample_world bare_page))
  /\ write_cmc_top sample_repr (sample_world (page_of surplus_rows))
     = (Raise ValueError, files (sample_world (page_of surplus_rows))).
Proof.
  destruct extraction_faults_propagate as (H1 & H2 & H3).
  assert (get_content bare_page = Raise AttributeError) as E1
    by (apply H1; reflexivity).
  assert (get_content (page_of surplus_rows) = Raise ValueError) as E2.
  { apply (H2 _ (table_of surplus_rows) (cap_tag_of "n/a")).
    - reflexivity.
    - cbn. auto.
    - reflexivity. }
  split; [exact E1|]. split; [exact E2|]. split.
  - exact (proj2 (H3 sample_repr (sample_world bare_page) _ E1)).
  - exact (proj2 (H3 sample_repr (sample_world (page_of surplus_rows)) _ E2)).
Defined.

(** ** C8: no capitalization element *)

(** C8: when the table body holds no capitalization element, extraction
    returns the empty record list and does not raise, whatever the name
    elements: no pair is formed, so the zero total is never divided by. *)
Theorem no_capitalization_no_record html_text table :
  find "tbody" (BeautifulSoup html_text) = Some table ->
  capitalization_tags table = [] ->
  get_content html_text = Ok []
  /\ combine (coin_name_tags table) (capitalization_tags table) = [].
Proof.
  intros Hf Hc.
  assert (combine (coin_name_tags table) (capitalization_tags table) = [])
    as E by (apply combine_nil_cases; auto).
  split; [|exact E].
  rewrite (get_content_ok html_text table [] Hf).
  - now rewrite combine_nil.
  - rewrite Hc. constructor.
  - auto.
Qed.

(** Two names and no capitalization give the empty list. *)
Lemma no_capitalization_no_record_witness :
  find "tbody" (BeautifulSoup (page_of names_only_rows))
  = Some (table_of names_only_rows)
  /\ capitalization_tags (table_of names_only_rows) = []
  /\ List.length (coin_name_tags (table_of names_only_rows)) = 2%nat
  /\ get_content (page_of names_only_rows) = Ok [].
Proof.
  assert (find "tbody" (BeautifulSoup (page_of names_only_rows))
          = Some (table_of names_only_rows)) as Hf by reflexivity.
  assert (capitalization_tags (table_of names_only_rows) = []) as Hc
    by reflexivity.
  split; [exact Hf|]. split; [exact Hc|]. split; [reflexivity|].
  exact (proj1 (no_capitalization_no_record _ _ Hf Hc)).
Defined.

(** ** C9: unequal counts *)

(** C9, as stated, fails: with one name element and two capitalization
    elements, the second holding ["n/a"], extraction raises [ValueError]
    in the first loop instead of producing the one record of the pair. *)
Lemma unequal_counts_counterexample :
  find "tbody" (BeautifulSoup (page_of surplus_rows))
  = Some (table_of surplus_rows)
  /\ List.length (coin_name_tags (table_of surplus_rows)) = 1%nat
  /\ List.length (capitalization_tags (table_of surplus_rows)) = 2%nat
  /\ get_content (page_of surplus_rows) = Raise ValueError.
Proof. repeat split; reflexivity. Qed.

(** C9 (amended): for every markup whose table body has different numbers
    of name and capitalization elements and on which extraction does not
    raise, every capitalization element parses, extraction yields exactly
    as many records as the smaller of the two numbers, the [i]-th record
    holds the [i]-th name and the [i]-th amount, and its percentage is
    taken against the total over all the amounts, the unpaired ones
    included. *)
Theorem unequal_counts_records html_text table rs :
  find "tbody" (BeautifulSoup html_text) = Some table ->
  List.length (coin_name_tags table)
  <> List.length (capitalization_tags table) ->
  get_content html_text = Ok rs ->
  exists cs,
    Forall2 parses (capitalization_tags table) cs
    /\ List.length rs
       = Nat.min (List.length (coin_name_tags table))
           (List.length (capitalization_tags table))
    /\ forall i name_tag c,
         nth_error (coin_name_tags table) i = Some name_tag ->
         nth_error cs i = Some c ->
         nth_error rs i
         = Some (Str.strip (text name_tag), c,
                 Float.mul (Float.div c (fold_left Float.add cs (Float.of_Z 0)))
                   (Float.of_Z 100)).
Proof.
  intros Hf _ Hok.
  destruct (get_content_inv _ _ _ Hf Hok) as (cs & Hp & ->).
  pose proof (Forall2_length_eq _ _ _ Hp) as Hl.
  exists cs. split; [exact Hp|].
  split; [rewrite length_records; lia|].
  intros i name_tag c Hi Hk.
  now rewrite (nth_record _ _ _ _ _ _ Hi Hk).
Qed.

(** One name and two capitalizations of 100 dollars give one record of 50 percent. *)
Lemma unequal_counts_records_witness :
  find "tbody" (BeautifulSoup (page_of mismatch_rows))
  = Some (table_of mismatch_rows)
  /\ List.length (coin_name_tags (table_of mismatch_rows))
     <> List.length (capitalization_tags (table_of mismatch_rows))
  /\ get_content (page_of mismatch_rows)
     = Ok [("A", Float.of_Z 100, Float.of_Z 50)]
  /\ exists cs,
       Forall2 parses (capitalization_tags (table_of mismatch_rows)) cs
       /\ List.length [("A", Float.of_Z 100, Float.of_Z 50)]
          = Nat.min (List.length (coin_name_tags (table_of mismatch_rows)))
              (List.length (capitalization_tags (table_of mismatch_rows))).
Proof.
  assert (find "tbody" (BeautifulSoup (page_of mismatch_rows))
          = Some (table_of mismatch_rows)) as Hf by reflexivity.
  assert (List.length (coin_name_tags (table_of mismatch_rows))
          <> List.length (capitalization_tags (table_of mismatch_rows))) as Hn
    by (cbn; lia).
  assert (get_content (page_of mismatch_rows)
          = Ok [("A", Float.of_Z 100, Float.of_Z 50)]) as Hok
    by (vm_compute; reflexivity).
  repeat (split; [assumption|]).
  destruct (unequal_counts_records _ _ _ Hf Hn Hok) as (cs & Hp & Hl & _).
  exists cs. split; assumption.
Defined.

(** * Further properties of the code *)

(** ** The outcomes of [get_content] *)

(** X1: extraction has four outcomes and no other, decided in this
    order: [AttributeError] when the page has no table body; [ValueError]
    when some capitalization element, paired or not, does not parse;
    [ZeroDivisionError] when all parse, the total is zero and a name and a
    capitalization exist to be paired; the records of the pairs
    otherwise. *)
Theorem get_content_outcome html_text :
  match find "tbody" (BeautifulSoup html_text) with
  | None => get_content html_text = Raise AttributeError
  | Some table =>
      (Exists (fun cap_tag => Float.of_string (cap_str cap_tag) = None)
         (capitalization_tags table)
       /\ get_content html_text = Raise ValueError)
      \/ exists cs,
           Forall2 parses (capitalization_tags table) cs
           /\ ((Float.is_zero (total_of cs) = true
                /\ coin_name_tags table <> []
                /\ capitalization_tags table <> []
                /\ get_content html_text = Raise ZeroDivisionError)
               \/ ((Float.is_zero (total_of cs) = false
                    \/ coin_name_tags table = []
                    \/ capitalization_tags table = [])
                   /\ get_content html_text
                      = Ok (map (record_of (total_of cs))
                              (combine (coin_name_tags table) cs))))
  end.
Proof.
  assert (forall A (l : list A), l = [] \/ l <> []) as Hdec
    by (intros A [|a l]; [now left | now right]).
  destruct (find "tbody" (BeautifulSoup html_text)) as [table|] eqn:Hf.
  - destruct (parse_all (capitalization_tags table)) as [[cs Hp] | He].
    + right. exists cs. split; [exact Hp|].
      destruct (Float.is_zero (total_of cs)) eqn:Hz.
      * destruct (Hdec _ (coin_name_tags table)) as [En | En];
          [right; split; [auto | apply get_content_ok; auto]|].
        destruct (Hdec _ (capitalization_tags table)) as [Ec | Ec];
          [right; split; [auto | apply get_content_ok; auto]|].
        left. repeat split; try assumption.
        now apply (get_content_zero_total _ table cs).
      * right. split; [auto|]. apply get_content_ok; auto.
    + left. split; [exact He|]. now apply (get_content_unparsed _ table).
  - unfold get_content. now rewrite Hf.
Qed.

Lemma add_zeros cs : forall acc,
  Float.is_zero acc = true ->
  Forall is_zero_float cs ->
  Float.is_zero (fold_left Float.add cs acc) = true.
Proof.
  induction cs as [|c cs IH]; intros acc Ha Hc; [exact Ha|].
  inversion Hc as [|? ? Hz Hzs]; subst. cbn [fold_left]. apply IH; [|exact Hzs].
  destruct acc as [sa| | |]; try discriminate.
  destruct c as [sc| | |]; try discriminate.
  now destruct sa, sc.
Qed.

(** X2: when every capitalization parses to zero, whatever the sign, and
    at least one name and one capitalization element exist, extraction
    raises [ZeroDivisionError]: a listing of nothing but zero amounts is
    not extracted. *)
Theorem all_zero_raises html_text table cs :
  find "tbody" (BeautifulSoup html_text) = Some table ->
  Forall2 parses (capitalization_tags table) cs ->
  Forall is_zero_float cs ->
  coin_name_tags table <> [] ->
  capitalization_tags table <> [] ->
  get_content html_text = Raise ZeroDivisionError.
Proof.
  intros Hf Hp Hz Hn Hc.
  apply (get_content_zero_total _ table cs); try assumption.
  unfold total_of. now apply add_zeros.
Qed.

(** Two names and the amounts [$0], [-0.00] and [0e5]. *)
Lemma all_zero_raises_witness :
  let rows := [name_tag_of "A"; cap_tag_of "$0"; name_tag_of "B";
               cap_tag_of "-0.00"; cap_tag_of "0e5"] in
  let cs := [S754_zero false; S754_zero true; S754_zero false] in
  find "tbody" (BeautifulSoup (page_of rows)) = Some (table_of rows)
  /\ Forall2 parses (capitalization_tags (table_of rows)) cs
  /\ Forall is_zero_float cs
  /\ coin_name_tags (table_of rows) <> []
  /\ capitalization_tags (table_of rows) <> []
  /\ get_content (page_of rows) = Raise ZeroDivisionError.
Proof.
  intros rows cs.
  assert (find "tbody" (BeautifulSoup (page_of rows)) = Some (table_of rows))
    as Hf by reflexivity.
  assert (Forall2 parses (capitalization_tags (table_of rows)) cs) as Hp
    by (repeat constructor).
  assert (Forall is_zero_float cs) as Hz by (repeat constructor).
  assert (coin_name_tags (table_of rows) <> []) as Hn by discriminate.
  assert (capitalization_tags (table_of rows) <> []) as Hc by discriminate.
  repeat (split; [assumption|]).
  exact (all_zero_raises _ _ _ Hf Hp Hz Hn Hc).
Defined.

Lemma add_nan_l cs : fold_left Float.add cs S754_nan = S754_nan.
Proof. induction cs as [|c cs IH]; [reflexivity|]. cbn [fold_left]. exact IH. Qed.

Lemma add_nan cs : forall acc,
  In S754_nan cs -> fold_left Float.add cs acc = S754_nan.
Proof.
  induction cs as [|c cs IH]; intros acc Hi; [destruct Hi|].
  cbn [fold_left]. destruct Hi as [-> | Hi]; [|now apply IH].
  replace (Float.add acc S754_nan) with S754_nan by now destruct acc.
  apply add_nan_l.
Qed.

Lemma percentage_nan c : percentage S754_nan c = S754_nan.
Proof. unfold percentage. now destruct c. Qed.

(** X3: [float] reads [nan], so one capitalization element holding it
    raises nothing and spoils every record: when all capitalizations
    parse and one of them is not a number, extraction returns the records
    of the pairs with every percentage not a number. *)
Theorem nan_spoils_every_percentage html_text table cs :
  find "tbody" (BeautifulSoup html_text) = Some table ->
  Forall2 parses (capitalization_tags table) cs ->
  In S754_nan cs ->
  get_content html_text
  = Ok (map nan_record (combine (coin_name_tags table) cs)).
Proof.
  intros Hf Hp Hi.
  assert (total_of cs = S754_nan) as Ht by (unfold total_of; now apply add_nan).
  rewrite (get_content_ok _ table cs Hf Hp) by (rewrite Ht; auto).
  rewrite Ht. f_equal. apply map_ext. intros [n c].
  unfold record_of, nan_record. cbn [fst snd]. now rewrite percentage_nan.
Qed.

(** Two listed amounts and a third element reading [NaN]. *)
Lemma nan_spoils_every_percentage_witness :
  let rows := [name_tag_of "A"; cap_tag_of "$100"; name_tag_of "B";
               cap_tag_of "$300"; cap_tag_of "NaN"] in
  let cs := [Float.of_Z 100; Float.of_Z 300; S754_nan] in
  find "tbody" (BeautifulSoup (page_of rows)) = Some (table_of rows)
  /\ Forall2 parses (capitalization_tags (table_of rows)) cs
  /\ In S754_nan cs
  /\ get_content (page_of rows)
     = Ok [("A", Float.of_Z 100, S754_nan); ("B", Float.of_Z 300, S754_nan)].
Proof.
  intros rows cs.
  assert (find "tbody" (BeautifulSoup (page_of rows)) = Some (table_of rows))
    as Hf by reflexivity.
  assert (Forall2 parses (capitalization_tags (table_of rows)) cs) as Hp
    by (repeat constructor).
  assert (In S754_nan cs) as Hi by (cbn; auto).
  repeat (split; [assumption|]).
  exact (nan_spoils_every_percentage _ _ _ Hf Hp Hi).
Defined.

(** ** The accuracy of the percentages *)

Section Shares.

Local Open Scope Q_scope.

(** A total off by [n] roundings and a product off by two leave the
    product times the exact total within [4 (n + 1) u] of its exact
    value, relatively. *)
Lemma share_bound S t P q n :
  0 < S -> 0 < t -> 0 <= q -> 0 <= n -> n + 1 <= pow2 20 ->
  S * (1 - n * u) <= t -> t <= S * (1 + 2 * n * u) ->
  100 * q * ((1 - u) * (1 - u)) <= P * t ->
  P * t <= 100 * q * ((1 + u) * (1 + u)) ->
  Qabs (P * S - 100 * q) <= 100 * q * (n + 1) * pow2 (-51).
Proof.
  intros HS Ht Hq Hn0 Hn Ht1 Ht2 HP1 HP2.
  change (pow2 20) with 1048576 in Hn.
  change (pow2 (-51)) with (1 # 2251799813685248). unfold u in *.
  assert (n * n <= 1048576 * n) as Hnn by nra.
  assert (0 <= P) as HP0.
  { destruct (Qlt_le_dec P 0) as [L|L]; [exfalso | exact L].
    assert (P * t < 0) by nra. nra. }
  set (d := (n + 1) * (1 # 2251799813685248)).
  assert (0 <= d <= 1) as Hd by (unfold d; lra).
  assert ((1 + (1 # 9007199254740992)) * (1 + (1 # 9007199254740992))
          <= (1 + d) * (1 - n * (1 # 9007199254740992))) as K1
    by (unfold d; nra).
  assert ((1 - d) * (1 + 2 * n * (1 # 9007199254740992))
          <= (1 - (1 # 9007199254740992)) * (1 - (1 # 9007199254740992))) as K2
    by (unfold d; nra).
  assert (100 * q * (n + 1) * (1 # 2251799813685248) == 100 * q * d) as E
    by (unfold d; ring).
  rewrite E. apply Qabs_Qle_condition. split.
  - destruct (Qlt_le_dec (P * S) (100 * q * (1 - d))) as [L|L];
      [exfalso | lra].
    assert (P * t <= P * S * (1 + 2 * n * (1 # 9007199254740992))) as M1 by nra.
    assert (P * S * (1 + 2 * n * (1 # 9007199254740992))
            < 100 * q * (1 - d) * (1 + 2 * n * (1 # 9007199254740992))) as M2
      by nra.
    assert (100 * q * ((1 - d) * (1 + 2 * n * (1 # 9007199254740992)))
            <= 100 * q * ((1 - (1 # 9007199254740992))
                          * (1 - (1 # 9007199254740992)))) as M3 by nra.
    nra.
  - destruct (Qlt_le_dec (100 * q * (1 + d)) (P * S)) as [L|L];
      [exfalso | lra].
    assert (P * S * (1 - n * (1 # 9007199254740992)) <= P * t) as M1 by nra.
    assert (100 * q * (1 + d) * (1 - n * (1 # 9007199254740992))
            < P * S * (1 - n * (1 # 9007199254740992))) as M2 by nra.
    assert (100 * q * ((1 + (1 # 9007199254740992))
                       * (1 + (1 # 9007199254740992)))
            <= 100 * q * ((1 + d) * (1 - n * (1 # 9007199254740992)))) as M3
      by nra.
    nra.
Qed.

Lemma exact_sum_range cs :
  Forall (fun c => in_range c = true) cs -> 0 <= exact_sum cs.
Proof.
  induction 1 as [|c cs Hc _ IH]; cbn [exact_sum]; [lra|].
  destruct (in_range_spec c Hc) as (m & e & -> & H1 & _). cbn [value].
  pose proof (pow2_pos (-300)). lra.
Qed.

(** The total of amounts in range, against which shares are taken. *)
Lemma total_in_range c cs :
  Forall (fun c => in_range c = true) (c :: cs) ->
  count (c :: cs) <= pow2 20 ->
  exists mt et,
    total_of (c :: cs) = S754_finite false mt et
    /\ pow2 (-301) <= pos_value mt et /\ pos_value mt et <= pow2 322
    /\ 0 < exact_sum (c :: cs)
    /\ exact_sum (c :: cs) * (1 - count cs * u) <= pos_value mt et
    /\ pos_value mt et <= exact_sum (c :: cs) * (1 + 2 * count cs * u).
Proof.
  intros Hr Hn. rewrite count_cons in Hn.
  destruct (total_accurate c cs Hr Hn) as (mt & et & E & T1 & T2 & S1 & S2).
  exists mt, et. split; [exact E|].
  pose proof (count_nonneg cs) as Hn0.
  set (S := exact_sum (c :: cs)) in *. set (t := pos_value mt et) in *.
  set (n := count cs) in *.
  pose proof (pow2_pos (-300)) as P300.
  change (pow2 20) with 1048576 in Hn.
  assert (pow2 (-301) <= t) as Ht1.
  { assert (pow2 (-300) == 2 * pow2 (-301)) as E1
      by (rewrite <- pow2_succ; reflexivity).
    unfold u in *. set (a := pow2 (-301)) in *. set (b := pow2 (-300)) in *.
    assert (0 <= S * n) by nra. assert (S * n <= S * 1048576) by nra. nra. }
  assert (t <= pow2 322) as Ht2.
  { assert (pow2 322 == 4194304 * pow2 300) as E1 by reflexivity.
    pose proof (pow2_pos 300). unfold u in *.
    set (a := pow2 322) in *. set (b := pow2 300) in *.
    assert (0 <= S * n) by nra. assert (S * n <= S * 1048576) by nra. nra. }
  repeat split; try assumption. lra.
Qed.

End Shares.

Lemma amounts_count (cs : list Float.float) :
  (Z.of_nat (List.length cs) <= 2 ^ 20)%Z -> (count cs <= pow2 20)%Q.
Proof.
  intros H. unfold count. change (pow2 20) with (inject_Z (2 ^ 20)).
  now rewrite <- Zle_Qle.
Qed.

(** X4: for capitalizations that parse to positive finite amounts between
    [2^-300] and [2^300], at most [2^20] of them, extraction succeeds and
    the percentage of every record is a positive finite float within a
    relative [N * 2^-51] of the exact share [100 c / S] of its amount [c]
    in the exact total [S], [N] the number of capitalizations. *)
Theorem percentage_accurate html_text table cs :
  find "tbody" (BeautifulSoup html_text) = Some table ->
  Forall2 parses (capitalization_tags table) cs ->
  cs <> [] ->
  (Z.of_nat (List.length cs) <= 2 ^ 20)%Z ->
  Forall (fun c => in_range c = true) cs ->
  exists rs,
    get_content html_text = Ok rs
    /\ forall coin_name coin_cap market_percentage,
         In (coin_name, coin_cap, market_percentage) rs ->
         exists m e,
           market_percentage = S754_finite false m e
           /\ (Qabs (pos_value m e * exact_sum cs - 100 * value coin_cap)
               <= 100 * value coin_cap * count cs * pow2 (-51))%Q.
Proof.
  intros Hf Hp Hne Hn Hr. destruct cs as [|c0 cs0]; [congruence|].
  set (cs := c0 :: cs0) in *.
  pose proof (amounts_count cs Hn) as Hn'.
  destruct (total_in_range c0 cs0 Hr Hn')
    as (mt & et & Et & Ht1 & Ht2 & HS & Hlo & Hhi).
  fold cs in Et, HS, Hlo, Hhi.
  exists (map (record_of (total_of cs)) (combine (coin_name_tags table) cs)).
  split; [apply get_content_ok; try assumption; left; now rewrite Et|].
  intros coin_name coin_cap market_percentage Hi.
  apply in_map_iff in Hi. destruct Hi as ([n c] & E & Hi).
  unfold record_of in E. cbn [fst snd] in E. injection E as _ <- <-.
  apply in_combine_r in Hi.
  rewrite Forall_forall in Hr. pose proof (Hr c Hi) as Hc.
  destruct (in_range_spec c Hc) as (mc & ec & -> & Hc1 & Hc2).
  rewrite Et.
  destruct (pct_accurate mc ec mt et Hc1 Hc2 Ht1 Ht2) as (mp & ep & Ep & B1 & B2).
  exists mp, ep. split; [exact Ep|]. cbn [value].
  assert (count cs == count cs0 + 1)%Q as Ec by apply count_cons.
  assert (100 * pos_value mc ec * count cs * pow2 (-51)
          == 100 * pos_value mc ec * (count cs0 + 1) * pow2 (-51))%Q as ->
    by (rewrite Ec; reflexivity).
  rewrite Ec in Hn'.
  apply (share_bound (exact_sum cs) (pos_value mt et)); try assumption.
  - pose proof (pow2_pos (-301)). lra.
  - pose proof (pow2_pos (-300)). lra.
  - apply count_nonneg.
Qed.

(** On the three-row page every percentage is as accurate as stated. *)
Lemma percentage_accurate_witness :
  let table := table_of three_rows in
  let cs := [Float.of_Z 100; Float.of_Z 300; Float.of_Z 600] in
  find "tbody" (BeautifulSoup (page_of three_rows)) = Some table
  /\ Forall2 parses (capitalization_tags table) cs
  /\ cs <> []
  /\ (Z.of_nat (List.length cs) <= 2 ^ 20)%Z
  /\ Forall (fun c => in_range c = true) cs
  /\ exists rs,
       get_content (page_of three_rows) = Ok rs
       /\ forall coin_name coin_cap market_percentage,
            In (coin_name, coin_cap, market_percentage) rs ->
            exists m e,
              market_percentage = S754_finite false m e
              /\ (Qabs (pos_value m e * exact_sum cs - 100 * value coin_cap)
                  <= 100 * value coin_cap * count cs * pow2 (-51))%Q.
Proof.
  intros table cs.
  assert (find "tbody" (BeautifulSoup (page_of three_rows)) = Some table)
    as Hf by reflexivity.
  assert (Forall2 parses (capitalization_tags table) cs) as Hp
    by (repeat constructor).
  assert (cs <> []) as Hne by discriminate.
  assert (Z.of_nat (List.length cs) <= 2 ^ 20)%Z as Hn by (cbn; lia).
  assert (Forall (fun c => in_range c = true) cs) as Hr
    by (repeat (apply Forall_cons; [vm_compute; reflexivity|]); apply Forall_nil).
  repeat (split; [assumption|]).
  exact (percentage_accurate (page_of three_rows) table cs Hf Hp Hne Hn Hr).
Defined.

Lemma map_snd_combine_firstn {A B : Type} : forall (l : list A) (l' : list B),
  map snd (combine l l') = firstn (List.length l) l'.
Proof.
  induction l as [|a l IH]; intros [|b l']; cbn; try reflexivity.
  now rewrite IH.
Qed.

Lemma Forall_firstn_keeps {A : Type} (P : A -> Prop) : forall k l,
  Forall P l -> Forall P (firstn k l).
Proof.
  induction k as [|k IH]; intros l H; cbn; [constructor|].
  destruct H; constructor; auto.
Qed.

(** X5: whatever the number of name elements, for capitalizations in the
    same range the percentages of the records sum to the share of the
    paired amounts in the total: the sum times the exact total is within a
    relative [N * 2^-51] of one hundred times the exact sum of the first
    [k] amounts, [k] the number of names. With fewer names than
    capitalizations the sum therefore falls short of one hundred by the
    share of the unpaired amounts. *)
Theorem percentages_sum_to_paired_share html_text table cs :
  find "tbody" (BeautifulSoup html_text) = Some table ->
  Forall2 parses (capitalization_tags table) cs ->
  cs <> [] ->
  (Z.of_nat (List.length cs) <= 2 ^ 20)%Z ->
  Forall (fun c => in_range c = true) cs ->
  exists rs,
    get_content html_text = Ok rs
    /\ (Qabs (pct_sum rs * exact_sum cs
              - 100 * exact_sum (firstn (List.length (coin_name_tags table)) cs))
        <= 100 * exact_sum (firstn (List.length (coin_name_tags table)) cs)
           * count cs * pow2 (-51))%Q.
Proof.
  intros Hf Hp Hne Hn Hr. destruct cs as [|c0 cs0]; [congruence|].
  set (cs := c0 :: cs0) in *.
  pose proof (amounts_count cs Hn) as Hn'.
  destruct (total_in_range c0 cs0 Hr Hn')
    as (mt & et & Et & Ht1 & Ht2 & HS & Hlo & Hhi).
  fold cs in Et, HS, Hlo, Hhi.
  exists (map (record_of (total_of cs)) (combine (coin_name_tags table) cs)).
  split; [apply get_content_ok; try assumption; left; now rewrite Et|].
  set (paired := firstn (List.length (coin_name_tags table)) cs).
  assert (Forall (fun c => in_range c = true) paired) as Hpr
    by now apply Forall_firstn_keeps.
  assert (pct_sum (map (record_of (total_of cs))
                     (combine (coin_name_tags table) cs))
          = exact_sum (map (percentage (total_of cs)) paired)) as ->.
  { unfold pct_sum, paired. rewrite map_map.
    rewrite <- map_snd_combine_firstn, map_map. reflexivity. }
  rewrite Et.
  destruct (pcts_accurate mt et paired Hpr Ht1 Ht2) as [B1 B2].
  assert (count cs == count cs0 + 1)%Q as Ec by apply count_cons.
  assert (100 * exact_sum paired * count cs * pow2 (-51)
          == 100 * exact_sum paired * (count cs0 + 1) * pow2 (-51))%Q as ->
    by (rewrite Ec; reflexivity).
  rewrite Ec in Hn'.
  apply (share_bound (exact_sum cs) (pos_value mt et)); try assumption.
  - pose proof (pow2_pos (-301)). lra.
  - now apply exact_sum_range.
  - apply count_nonneg.
Qed.

(** One name and two amounts of 100 dollars: the paired share is half. *)
Lemma percentages_sum_to_paired_share_witness :
  let table := table_of mismatch_rows in
  let cs := [Float.of_Z 100; Float.of_Z 100] in
  find "tbody" (BeautifulSoup (page_of mismatch_rows)) = Some table
  /\ Forall2 parses (capitalization_tags table) cs
  /\ cs <> []
  /\ (Z.of_nat (List.length cs) <= 2 ^ 20)%Z
  /\ Forall (fun c => in_range c = true) cs
  /\ (exact_sum cs == 200)%Q
  /\ (exact_sum (firstn (List.length (coin_name_tags table)) cs) == 100)%Q
  /\ exists rs,
       get_content (page_of mismatch_rows) = Ok rs
       /\ (Qabs (pct_sum rs * exact_sum cs
                 - 100 * exact_sum
                           (firstn (List.length (coin_name_tags table)) cs))
           <= 100 * exact_sum (firstn (List.length (coin_name_tags table)) cs)
              * count cs * pow2 (-51))%Q.
Proof.
  intros table cs.
  assert (find "tbody" (BeautifulSoup (page_of mismatch_rows)) = Some table)
    as Hf by reflexivity.
  assert (Forall2 parses (capitalization_tags table) cs) as Hp
    by (repeat constructor).
  assert (cs <> []) as Hne by discriminate.
  assert (Z.of_nat (List.length cs) <= 2 ^ 20)%Z as Hn by (cbn; lia).
  assert (Forall (fun c => in_range c = true) cs) as Hr
    by (repeat (apply Forall_cons; [vm_compute; reflexivity|]); apply Forall_nil).
  repeat (split; [assumption|]).
  split; [reflexivity|]. split; [reflexivity|].
  exact (percentages_sum_to_paired_share (page_of mismatch_rows) table cs
           Hf Hp Hne Hn Hr).
Defined.

(** ** Stripping and cleaning *)

Lemma lstrip_split s :
  exists l,
    all_chars Str.isspace l = true
    /\ s = (l ++ Str.lstrip_with Str.isspace s)%string
    /\ starts_with_space (Str.lstrip_with Str.isspace s) = false.
Proof.
  induction s as [|c s IH].
  - exists EmptyString. repeat split.
  - cbn [Str.lstrip_with]. destruct (Str.isspace c) eqn:Hc.
    + destruct IH as (l & Hl & Hs & Ht). exists (String c l).
      cbn. rewrite Hc, Hl. repeat split; [now f_equal | exact Ht].
    + exists EmptyString. cbn. now rewrite Hc.
Qed.

Lemma rstrip_split s :
  exists r,
    all_chars Str.isspace r = true
    /\ s = (Str.rstrip_with Str.isspace s ++ r)%string
    /\ ends_with_space (Str.rstrip_with Str.isspace s) = false
    /\ starts_with_space (Str.rstrip_with Str.isspace s)
       = starts_with_space s && negb (all_chars Str.isspace s).
Proof.
  induction s as [|c s IH].
  - exists EmptyString. repeat split.
  - destruct IH as (r & Hr & Hs & He & _). cbn [Str.rstrip_with].
    destruct (Str.rstrip_with Str.isspace s) as [|d t] eqn:Et.
    + cbn in Hs. subst s. cbn [all_chars starts_with_space]. rewrite Hr.
      destruct (Str.isspace c) eqn:Hc.
      * exists (String c r). cbn. rewrite Hc, Hr. repeat split.
      * exists r. cbn. rewrite Hc. repeat split; assumption.
    + exists r. cbn [append]. split; [exact Hr|]. split; [now rewrite Hs at 1|].
      split; [exact He|]. cbn [starts_with_space all_chars].
      assert (all_chars Str.isspace s = false) as ->.
      { rewrite Hs. cbn [append all_chars].
        destruct (Str.isspace d) eqn:Hd; [|reflexivity]. cbn.
        rewrite all_chars_app. clear -He Hd.
        revert d Hd He. induction t as [|x t IH]; intros d Hd He.
        - cbn in He. congruence.
        - cbn [all_chars]. destruct (Str.isspace x) eqn:Hx; [|reflexivity].
          cbn. apply (IH x Hx). exact He. }
      now rewrite andb_false_r, andb_true_r.
Qed.

(** What [strip] returns: the string between the white space at its two
    ends, itself without white space at either end. *)
Lemma strip_spec s :
  trimmed (Str.strip s)
  /\ exists l r,
       all_chars Str.isspace l = true /\ all_chars Str.isspace r = true
       /\ s = (l ++ Str.strip s ++ r)%string.
Proof.
  unfold Str.strip, Str.strip_with.
  destruct (lstrip_split s) as (l & Hl & Hs & Ht).
  set (m := Str.lstrip_with Str.isspace s) in *.
  destruct (rstrip_split m) as (r & Hr & Hm & He & Hst).
  split.
  - split; [|exact He]. rewrite Hst, Ht. reflexivity.
  - exists l, r. repeat split; try assumption. now rewrite <- Hm.
Qed.

(** X6: the name of every extracted record is the text of a name element
    of the table body without the white space at its two ends: it neither
    starts nor ends with white space, and the text is the name between two
    runs of white space. *)
Theorem names_are_trimmed html_text table rs :
  find "tbody" (BeautifulSoup html_text) = Some table ->
  get_content html_text = Ok rs ->
  forall coin_name coin_cap market_percentage,
    In (coin_name, coin_cap, market_percentage) rs ->
    trimmed coin_name
    /\ exists name_tag l r,
         In name_tag (coin_name_tags table)
         /\ all_chars Str.isspace l = true /\ all_chars Str.isspace r = true
         /\ text name_tag = (l ++ coin_name ++ r)%string.
Proof.
  intros Hf Hok coin_name coin_cap market_percentage Hi.
  destruct (get_content_inv _ _ _ Hf Hok) as (cs & Hp & ->).
  apply in_map_iff in Hi. destruct Hi as ([n c] & E & Hi).
  unfold record_of in E. cbn [fst snd] in E. injection E as <- _ _.
  apply in_combine_l in Hi.
  destruct (strip_spec (text n)) as (Ht & l & r & Hl & Hr & Hs).
  split; [exact Ht|]. exists n, l, r. auto.
Qed.

(** The first name of the three-row page is padded on both sides. *)
Lemma names_are_trimmed_witness :
  find "tbody" (BeautifulSoup (page_of three_rows)) = Some (table_of three_rows)
  /\ get_content (page_of three_rows)
     = Ok [("Bitcoin", Float.of_Z 100, Float.of_Z 10);
           ("Ethereum", Float.of_Z 300, Float.of_Z 30);
           ("Tether", Float.of_Z 600, Float.of_Z 60)]
  /\ trimmed "Bitcoin".
Proof.
  assert (find "tbody" (BeautifulSoup (page_of three_rows))
          = Some (table_of three_rows)) as Hf by reflexivity.
  assert (get_content (page_of three_rows)
          = Ok [("Bitcoin", Float.of_Z 100, Float.of_Z 10);
                ("Ethereum", Float.of_Z 300, Float.of_Z 30);
                ("Tether", Float.of_Z 600, Float.of_Z 60)]) as Hok
    by (vm_compute; reflexivity).
  split; [exact Hf|]. split; [exact Hok|].
  apply (names_are_trimmed _ _ _ Hf Hok "Bitcoin" (Float.of_Z 100)
           (Float.of_Z 10)).
  cbn. auto.
Defined.

Lemma lstrip_spaces l s :
  all_chars Str.isspace l = true ->
  Str.lstrip_with Str.isspace (l ++ s) = Str.lstrip_with Str.isspace s.
Proof.
  induction l as [|c l IH]; cbn; [reflexivity|].
  rewrite andb_true_iff. intros [-> Hl]. now apply IH.
Qed.

Lemma rstrip_spaces r :
  all_chars Str.isspace r = true ->
  Str.rstrip_with Str.isspace r = EmptyString.
Proof.
  induction r as [|c r IH]; cbn; [reflexivity|].
  rewrite andb_true_iff. intros [Hc Hr]. now rewrite (IH Hr), Hc.
Qed.

Lemma rstrip_app_spaces s r :
  all_chars Str.isspace r = true ->
  Str.rstrip_with Str.isspace (s ++ r) = Str.rstrip_with Str.isspace s.
Proof.
  intros Hr. induction s as [|c s IH]; cbn.
  - now apply rstrip_spaces.
  - now rewrite IH.
Qed.

Lemma lstrip_all_spaces r :
  all_chars Str.isspace r = true ->
  Str.lstrip_with Str.isspace r = EmptyString.
Proof.
  induction r as [|c r IH]; cbn; [reflexivity|].
  rewrite andb_true_iff. intros [-> Hr]. auto.
Qed.

Lemma strip_app_spaces s r :
  all_chars Str.isspace r = true ->
  Str.strip (s ++ r) = Str.strip s.
Proof.
  intros Hr. unfold Str.strip, Str.strip_with.
  induction s as [|c s IH]; cbn.
  - now rewrite lstrip_all_spaces.
  - destruct (Str.isspace c); [exact IH|].
    change (String c (s ++ r)) with (String c s ++ r)%string.
    now apply rstrip_app_spaces.
Qed.

(** X7: white space around the text of an element never matters: padding
    a string with white space on both sides changes neither what [strip]
    makes of it nor what cleaning makes of it. *)
Theorem padding_is_ignored l s r :
  all_chars Str.isspace l = true ->
  all_chars Str.isspace r = true ->
  Str.strip (l ++ s ++ r) = Str.strip s
  /\ clean (l ++ s ++ r) = clean s.
Proof.
  intros Hl Hr.
  assert (Str.strip (l ++ s ++ r) = Str.strip s) as E.
  { rewrite <- (strip_app_spaces s r Hr).
    unfold Str.strip, Str.strip_with. now rewrite lstrip_spaces. }
  split; [exact E|]. unfold clean. now rewrite E.
Qed.

(** A tab and a space before [$1,234.50], a line break after it. *)
Lemma padding_is_ignored_witness :
  let l := String (ascii_of_N 9) " " in
  let r := String (ascii_of_N 10) EmptyString in
  all_chars Str.isspace l = true
  /\ all_chars Str.isspace r = true
  /\ clean (l ++ "$1,234.50" ++ r) = "1234.50".
Proof.
  intros l r.
  assert (all_chars Str.isspace l = true) as Hl by reflexivity.
  assert (all_chars Str.isspace r = true) as Hr by reflexivity.
  repeat (split; [assumption|]).
  now rewrite (proj2 (padding_is_ignored l "$1,234.50" r Hl Hr)).
Defined.

Lemma replace_keeps P old s :
  all_chars P s = true -> all_chars P (Str.replace old EmptyString s) = true.
Proof.
  induction s as [|c s IH]; cbn; [reflexivity|].
  rewrite andb_true_iff. intros [Hc Hs].
  destruct (Ascii.eqb c old); cbn; [auto | now rewrite Hc, IH].
Qed.

Lemma replace_removes old s :
  all_chars (fun c => negb (Ascii.eqb c old))
    (Str.replace old EmptyString s) = true.
Proof.
  induction s as [|c s IH]; cbn; [reflexivity|].
  destruct (Ascii.eqb c old) eqn:E; cbn; [exact IH | now rewrite E, IH].
Qed.

(** X8: cleaning removes every dollar sign and every comma, wherever they
    stand in the text: the string handed to [float] holds neither. *)
Theorem clean_is_plain s : all_chars is_plain_char (clean s) = true.
Proof.
  unfold clean.
  set (t := Str.replace "$" EmptyString (Str.strip s)).
  assert (all_chars (fun c => negb (Ascii.eqb c "$")) t = true) as H1
    by apply replace_removes.
  assert (all_chars (fun c => negb (Ascii.eqb c "$"))
            (Str.replace "," EmptyString t) = true) as H2
    by now apply replace_keeps.
  pose proof (replace_removes "," t) as H3.
  revert H2 H3. generalize (Str.replace "," EmptyString t). intros x.
  induction x as [|c x IH]; cbn; [reflexivity|].
  rewrite !andb_true_iff. intros [Ha Hb] [Hc Hd].
  unfold is_plain_char at 1. rewrite Ha, Hc. cbn. auto.
Qed.

(** ** The class selectors *)

Lemma space_free_app a b :
  space_free (a ++ b) <-> space_free a /\ space_free b.
Proof. unfold space_free. rewrite all_chars_app. apply andb_true_iff. Qed.

Lemma not_space_free_space s : ~ space_free (String " " s).
Proof. unfold space_free. cbn. discriminate. Qed.

(** Two strings cut at their first space agree part by part. *)
Lemma first_space_split a : forall a' b b',
  space_free a -> space_free a' ->
  (a ++ String " " b = a' ++ String " " b')%string ->
  a = a' /\ b = b'.
Proof.
  induction a as [|c a IH]; intros [|c' a'] b b' Ha Ha' E; cbn in E.
  - injection E as E. auto.
  - injection E as Ec _. subst c'. now apply not_space_free_space in Ha'.
  - injection E as Ec _. subst c. now apply not_space_free_space in Ha.
  - injection E as Ec E. subst c'.
    unfold space_free in Ha, Ha'. cbn in Ha, Ha'.
    apply andb_true_iff in Ha, Ha'. destruct Ha as [_ Ha], Ha' as [_ Ha'].
    destruct (IH a' b b' Ha Ha' E) as [-> ->]. auto.
Qed.

Lemma join_two_tokens a b tokens :
  space_free a -> space_free b ->
  Forall space_free tokens ->
  Str.join " " tokens = (a ++ String " " b)%string ->
  tokens = [a; b].
Proof.
  intros Ha Hb Ht E.
  assert (~ space_free (a ++ String " " b)) as Hab.
  { intros H. apply space_free_app in H. destruct H as [_ H].
    now apply not_space_free_space in H. }
  destruct tokens as [|t1 [|t2 rest]].
  - cbn in E. destruct a; discriminate.
  - cbn in E. subst t1. inversion Ht; subst. contradiction.
  - change (Str.join " " (t1 :: t2 :: rest))
      with (t1 ++ String " " (Str.join " " (t2 :: rest)))%string in E.
    inversion Ht as [|? ? H1 Ht']; subst.
    destruct (first_space_split t1 a _ b H1 Ha E) as [-> E2].
    destruct rest as [|t3 rest].
    + cbn in E2. now subst t2.
    + exfalso.
      change (Str.join " " (t2 :: t3 :: rest))
        with (t2 ++ String " " (Str.join " " (t3 :: rest)))%string in E2.
      rewrite <- E2 in Hb. apply space_free_app in Hb. destruct Hb as [_ Hb].
      now apply not_space_free_space in Hb.
Qed.

Lemma class_matches_two a b tokens :
  space_free a -> space_free b ->
  Forall space_free tokens ->
  class_matches (a ++ String " " b) tokens = true <-> tokens = [a; b].
Proof.
  intros Ha Hb Ht. unfold class_matches. split.
  - intros H. apply orb_true_iff in H. destruct H as [H | H].
    + exfalso. apply existsb_exists in H. destruct H as (t & Hi & E).
      apply String.eqb_eq in E. rewrite Forall_forall in Ht.
      specialize (Ht t Hi). rewrite E in Ht.
      apply space_free_app in Ht. destruct Ht as [_ Ht].
      now apply not_space_free_space in Ht.
    + apply String.eqb_eq in H. now apply join_two_tokens.
  - intros ->. cbn [Str.join]. rewrite String.eqb_refl. apply orb_true_r.
Qed.

(** X9: a tag whose class tokens hold no space, as the tokens of a parsed
    page do, is taken for a name element exactly when it is a [p] with the
    two tokens [sc-4984dd93-0] and [kKpPOn], in this order and no other
    token, and for a capitalization element exactly when it is a [span]
    with [sc-7bc56c81-1] and [bCdPBp] alone: one more class, one less or
    the two swapped, and the element is passed over. *)
Theorem selectors_are_exact name tokens contents :
  Forall space_free tokens ->
  (has_name "p" (Tag name tokens contents)
   && has_class name_class (Tag name tokens contents) = true
   <-> name = "p" /\ tokens = ["sc-4984dd93-0"; "kKpPOn"])
  /\ (has_name "span" (Tag name tokens contents)
      && has_class cap_class (Tag name tokens contents) = true
      <-> name = "span" /\ tokens = ["sc-7bc56c81-1"; "bCdPBp"]).
Proof.
  intros Ht. cbn [has_name has_class].
  rewrite !andb_true_iff, !String.eqb_eq.
  change name_class with ("sc-4984dd93-0" ++ String " " "kKpPOn")%string.
  change cap_class with ("sc-7bc56c81-1" ++ String " " "bCdPBp")%string.
  rewrite !class_matches_two; try assumption; try reflexivity.
  split; reflexivity.
Qed.

(** The tokens of the name selector, and the same with one class more. *)
Lemma selectors_are_exact_witness :
  Forall space_free ["sc-4984dd93-0"; "kKpPOn"]
  /\ Forall space_free ["sc-4984dd93-0"; "kKpPOn"; "hidden"]
  /\ has_name "p" (name_tag_of "A") && has_class name_class (name_tag_of "A")
     = true
  /\ has_name "p" (Tag "p" ["sc-4984dd93-0"; "kKpPOn"; "hidden"] [])
     && has_class name_class (Tag "p" ["sc-4984dd93-0"; "kKpPOn"; "hidden"] [])
     <> true.
Proof.
  assert (Forall space_free ["sc-4984dd93-0"; "kKpPOn"]) as H1
    by (repeat constructor).
  assert (Forall space_free ["sc-4984dd93-0"; "kKpPOn"; "hidden"]) as H2
    by (repeat constructor).
  split; [exact H1|]. split; [exact H2|]. split.
  - apply (proj1 (selectors_are_exact "p" _ [NavigableString "A"] H1)). auto.
  - intros H.
    apply (proj1 (selectors_are_exact "p" _ [] H2)) in H.
    destruct H as [_ H]. discriminate.
Defined.

(** ** The name of the file *)

Lemma digit_char_inj a b :
  (a < 10)%N -> (b < 10)%N -> Str.digit_char a = Str.digit_char b -> a = b.
Proof.
  intros Ha Hb E.
  destruct (digit_char_facts a Ha) as [_ <-].
  destruct (digit_char_facts b Hb) as [_ <-]. now rewrite E.
Qed.

(** Digit strings of one length agree when what follows them may differ. *)
Lemma digit_string_app_inj ds1 : forall ds2 r1 r2,
  are_digits ds1 -> are_digits ds2 ->
  List.length ds1 = List.length ds2 ->
  (digit_string ds1 ++ r1 = digit_string ds2 ++ r2)%string ->
  ds1 = ds2 /\ r1 = r2.
Proof.
  induction ds1 as [|d ds1 IH]; intros [|d' ds2] r1 r2 H1 H2 Hl E;
    try discriminate; cbn in *.
  - auto.
  - inversion H1; inversion H2; subst. injection E as Ed E.
    apply digit_char_inj in Ed; try assumption. subst d'.
    destruct (IH ds2 r1 r2) as [-> ->]; auto.
Qed.

Lemma written_in_inj k s1 s2 n1 n2 r1 r2 :
  written_in k s1 n1 -> written_in k s2 n2 ->
  (s1 ++ r1 = s2 ++ r2)%string -> n1 = n2 /\ r1 = r2.
Proof.
  intros (ds1 & L1 & D1 & -> & <-) (ds2 & L2 & D2 & -> & <-) E.
  destruct (digit_string_app_inj ds1 ds2 r1 r2 D1 D2) as [-> ->]; auto.
  congruence.
Qed.

(** Digit strings of any length agree when a point follows both. *)
Lemma digit_string_point_inj ds1 : forall ds2 r1 r2,
  are_digits ds1 -> are_digits ds2 ->
  (digit_string ds1 ++ String "." r1 = digit_string ds2 ++ String "." r2)%string ->
  ds1 = ds2.
Proof.
  assert (forall d, (d < 10)%N -> "."%char <> Str.digit_char d) as Hp.
  { intros d Hd E. destruct (digit_char_facts d Hd) as [Hi _].
    rewrite <- E in Hi. discriminate. }
  induction ds1 as [|d ds1 IH]; intros [|d' ds2] r1 r2 H1 H2 E; cbn in E.
  - reflexivity.
  - inversion H2; subst. injection E as Ed _. now apply Hp in Ed.
  - inversion H1; subst. injection E as Ed _. symmetry in Ed. now apply Hp in Ed.
  - inversion H1; inversion H2; subst. injection E as Ed E.
    apply digit_char_inj in Ed; try assumption. subst d'.
    f_equal. now apply (IH ds2 r1 r2).
Qed.

(** [decimal] prints different numbers differently. *)
Lemma decimal_point_inj a b r1 r2 :
  (Fmt.decimal a ++ String "." r1 = Fmt.decimal b ++ String "." r2)%string ->
  a = b.
Proof.
  destruct (decimal_written a) as (ds1 & D1 & -> & <-).
  destruct (decimal_written b) as (ds2 & D2 & -> & <-).
  intros E. now rewrite (digit_string_point_inj ds1 ds2 r1 r2 D1 D2 E).
Qed.

(** X11: the file name tells the minute of the run: two valid times with
    the same file name are the same year, month, day, hour and minute, so
    runs in different minutes never write to the same file. *)
Theorem filename_tells_the_time t1 t2 :
  valid_datetime t1 -> valid_datetime t2 ->
  filename_of t1 = filename_of t2 -> t1 = t2.
Proof.
  intros (Hh1 & Hm1 & Hd1 & Ho1 & Hy1) (Hh2 & Hm2 & Hd2 & Ho2 & Hy2) E.
  rewrite !filename_of_eq in E.
  cbn [append] in E. injection E as E.
  assert (forall a b r1 r2, (a < 100)%N -> (b < 100)%N ->
            (Fmt.zero_padded 2 a ++ r1 = Fmt.zero_padded 2 b ++ r2)%string ->
            a = b /\ r1 = r2) as Two.
  { intros a b r1 r2 Ha Hb H.
    apply (written_in_inj 2 (Fmt.zero_padded 2 a) (Fmt.zero_padded 2 b) a b r1 r2);
      auto using written_2. }
  apply Two in E; [|lia|lia]. destruct E as [Eh E]. injection E as E.
  apply Two in E; [|lia|lia]. destruct E as [Em E]. injection E as E.
  apply Two in E; [|lia|lia]. destruct E as [Ed E]. injection E as E.
  apply Two in E; [|lia|lia]. destruct E as [Eo E]. injection E as E.
  apply decimal_point_inj in E. rename E into Ey.
  destruct t1, t2. cbn in *. congruence.
Qed.

(** The sample time against itself: one minute, one name. *)
Lemma filename_tells_the_time_witness :
  valid_datetime sample_time
  /\ filename_of sample_time = "Top100 09.05 07.03.2024.csv"
  /\ sample_time = sample_time.
Proof.
  assert (valid_datetime sample_time) as Hv
    by (unfold valid_datetime; cbn; lia).
  split; [exact Hv|]. split; [reflexivity|].
  exact (filename_tells_the_time sample_time sample_time Hv Hv eq_refl).
Defined.

(** ** The browser session *)

Section Run.

Variable error : Type.
Variable driver : list Browser.call -> Browser.call
                  -> Browser.outcome error markup.

Lemma bind_perform {B : Type} c (k : markup -> Browser.action error B) trace :
  Browser.bind error (Browser.perform error driver c) k trace
  = match driver trace c with
    | Browser.Returns v => k v (trace ++ [c])
    | Browser.Raises e => (Browser.Raises e, trace ++ [c])
    end.
Proof.
  unfold Browser.bind, Browser.perform. now destruct (driver trace c).
Qed.

Lemma bind_bind {A B C : Type} (m : Browser.action error A)
    (f : A -> Browser.action error B) (g : B -> Browser.action error C) trace :
  Browser.bind error (Browser.bind error m f) g trace
  = Browser.bind error m (fun a => Browser.bind error (f a) g) trace.
Proof.
  unfold Browser.bind. destruct (m trace) as [[a|e] trace']; reflexivity.
Qed.

Lemma bind_ret {A B : Type} (a : A) (f : A -> Browser.action error B) trace :
  Browser.bind error (Browser.ret error a) f trace = f a trace.
Proof. reflexivity. Qed.

Lemma for_range_run n : forall trace o trace',
  Browser.for_range error n
    (Browser.bind error
       (Browser.perform error driver (Browser.execute_script Browser.scroll))
       (fun _ =>
        Browser.bind error (Browser.perform error driver (Browser.sleep 1))
          (fun _ => Browser.ret error tt))) trace = (o, trace') ->
  match o with
  | Browser.Returns _ => trace' = trace ++ Browser.scrolling n
  | Browser.Raises e => Browser.stopped error driver (Browser.scrolling n) trace trace' e
  end.
Proof.
  induction n as [|n IH]; intros trace o trace' H.
  - cbn in H. injection H as <- <-. symmetry. apply app_nil_r.
  - cbn [Browser.for_range] in H. rewrite bind_bind, bind_perform in H.
    destruct (driver trace (Browser.execute_script Browser.scroll)) eqn:E1.
    + cbn beta in H. rewrite bind_bind, bind_perform in H.
      destruct (driver (trace ++ [Browser.execute_script Browser.scroll])
                  (Browser.sleep 1)) eqn:E2.
      * cbn beta in H. rewrite bind_ret in H. apply IH in H.
        destruct o as [u|e].
        -- rewrite H, <- !app_assoc. reflexivity.
        -- destruct H as (k & Hk & -> & Hd). exists (S (S k)).
           cbn [Browser.scrolling List.length firstn nth].
           rewrite <- !app_assoc in *. cbn [app] in *.
           split; [lia|]. split; [reflexivity | exact Hd].
      * injection H as <- <-. exists 1%nat.
        cbn [Browser.scrolling List.length firstn nth].
        rewrite <- !app_assoc. cbn [app].
        split; [lia|]. split; [reflexivity | exact E2].
    + injection H as <- <-. exists 0%nat.
      cbn [Browser.scrolling List.length firstn nth]. rewrite app_nil_r.
      split; [lia|]. split; [reflexivity | exact E1].
Qed.

(** A run makes the calls of the session in their order and stops at the
    first that raises. *)
Lemma get_html_run trace o trace' :
  Browser.get_html error driver trace = (o, trace') ->
  match o with
  | Browser.Returns html_text =>
      trace' = trace ++ Browser.session
      /\ driver (trace ++ Browser.loading) Browser.page_source
         = Browser.Returns html_text
  | Browser.Raises e => Browser.stopped error driver Browser.session trace trace' e
  end.
Proof.
  unfold Browser.get_html. intros H.
  rewrite bind_perform in H.
  destruct (driver trace Browser.Edge) eqn:E1.
  2:{ injection H as <- <-. exists 0%nat. rewrite app_nil_r.
      split; [cbn; lia|]. split; [reflexivity | exact E1]. }
  rewrite bind_perform in H.
  destruct (driver (trace ++ [Browser.Edge]) (Browser.get Browser.URL)) eqn:E2.
  2:{ injection H as <- <-. exists 1%nat. rewrite <- app_assoc.
      split; [cbn; lia|]. split; [reflexivity | exact E2]. }
  unfold Browser.bind at 1 in H.
  match type of H with
  | context [Browser.for_range error ?n ?b ?t] =>
      destruct (Browser.for_range error n b t) as [[u|e] t1] eqn:L
  end; apply for_range_run in L.
  2:{ injection H as <- <-. destruct L as (k & Hk & -> & Hd).
      change (List.length (Browser.scrolling 10)) with 20%nat in Hk.
      exists (S (S k)). rewrite <- !app_assoc in *. cbn [app] in *.
      unfold Browser.session, Browser.loading.
      cbn [app nth]. rewrite !firstn_cons.
      rewrite !firstn_app, app_nth1 by exact Hk.
      change (List.length (Browser.scrolling 10)) with 20%nat.
      replace (S k - 20)%nat with 0%nat by lia.
      replace (k - 20)%nat with 0%nat by lia.
      cbn [firstn]. rewrite !app_nil_r.
      split; [cbn [List.length]; rewrite length_app; cbn; lia|].
      split; [reflexivity | exact Hd]. }
  subst t1. rewrite <- !app_assoc in H. cbn [app] in H.
  fold Browser.loading in H. rewrite bind_perform in H.
  destruct (driver (trace ++ Browser.loading) Browser.page_source) eqn:E3.
  2:{ injection H as <- <-. exists 22%nat. rewrite <- app_assoc.
      split; [cbn; lia|]. split; [reflexivity | exact E3]. }
  rewrite bind_perform in H.
  destruct (driver ((trace ++ Browser.loading) ++ [Browser.page_source])
              Browser.quit) eqn:E4.
  2:{ injection H as <- <-. exists 23%nat. rewrite <- !app_assoc.
      split; [cbn; lia|]. split; [reflexivity|].
      rewrite <- app_assoc in E4. exact E4. }
  cbn in H. injection H as <- <-. rewrite <- !app_assoc. split; reflexivity.
Qed.

End Run.

Lemma firstn_incl {A : Type} (x : A) : forall n l, In x (firstn n l) -> In x l.
Proof.
  induction n as [|n IH]; intros [|y l]; cbn; try tauto.
  intros [H|H]; [now left | right; auto].
Qed.

(** X12: when [get_html] returns, it has made the calls of the session and
    no other: the browser opened, the site loaded, ten scrolls each followed
    by a sleep of one second, the page read and the browser closed; what it
    returns is the page as it was read after the last sleep. *)
Theorem get_html_returns error driver trace html_text trace' :
  Browser.get_html error driver trace = (Browser.Returns html_text, trace') ->
  trace' = trace ++ Browser.session
  /\ driver (trace ++ Browser.loading) Browser.page_source
     = Browser.Returns html_text.
Proof. intros H. exact (get_html_run error driver _ _ _ H). Qed.

(** A browser that shows the page of three rows. *)
Lemma get_html_returns_witness :
  Browser.get_html string (Browser.showing (page_of three_rows)) []
  = (Browser.Returns (page_of three_rows), Browser.session)
  /\ Browser.session = [] ++ Browser.session
  /\ Browser.showing (page_of three_rows) ([] ++ Browser.loading)
       Browser.page_source
     = Browser.Returns (page_of three_rows).
Proof.
  assert (Browser.get_html string (Browser.showing (page_of three_rows)) []
          = (Browser.Returns (page_of three_rows), Browser.session)) as H
    by reflexivity.
  split; [exact H|].
  exact (get_html_returns string (Browser.showing (page_of three_rows))
           [] (page_of three_rows) Browser.session H).
Defined.

(** X13: when [get_html] raises, the exception is that of one call of the
    session, made after the calls before it in the session's order, and no
    call is made after it. *)
Theorem get_html_stops_at_first_failure error driver trace e trace' :
  Browser.get_html error driver trace = (Browser.Raises e, trace') ->
  Browser.stopped error driver Browser.session trace trace' e.
Proof. intros H. exact (get_html_run error driver _ _ _ H). Qed.

(** A browser that cannot reach the site: the run ends at [get]. *)
Lemma get_html_stops_at_first_failure_witness :
  Browser.get_html string Browser.offline []
  = (Browser.Raises "WebDriverException",
     [Browser.Edge; Browser.get Browser.URL])
  /\ Browser.stopped string Browser.offline Browser.session []
       [Browser.Edge; Browser.get Browser.URL] "WebDriverException".
Proof.
  assert (Browser.get_html string Browser.offline []
          = (Browser.Raises "WebDriverException",
             [Browser.Edge; Browser.get Browser.URL])) as H by reflexivity.
  split; [exact H|].
  exact (get_html_stops_at_first_failure string Browser.offline []
           "WebDriverException" [Browser.Edge; Browser.get Browser.URL] H).
Defined.

(** X14: [get_html] closes the browser only at its end: when a call raises
    and [quit] itself cannot, the run has not called [quit], so a browser
    that was opened is left running. *)
Theorem failure_leaves_browser_open error driver trace e trace' :
  (forall calls e', driver calls Browser.quit <> Browser.Raises e') ->
  Browser.get_html error driver trace = (Browser.Raises e, trace') ->
  exists calls, trace' = trace ++ calls /\ ~ In Browser.quit calls.
Proof.
  intros Hq H. apply get_html_run in H. destruct H as (k & Hk & -> & Hd).
  exists (firstn (S k) Browser.session). split; [reflexivity|].
  change (List.length Browser.session) with 24%nat in Hk.
  assert (k = 23 \/ S k <= 23)%nat as [->|Hle] by lia.
  - exfalso. exact (Hq _ _ Hd).
  - intros Hin.
    replace (S k) with (Nat.min (S k) 23) in Hin by lia.
    rewrite <- firstn_firstn in Hin. apply firstn_incl in Hin.
    cbn in Hin. repeat (destruct Hin as [Hin|Hin]; [discriminate|]).
    exact Hin.
Qed.

(** The site cannot be reached: the browser was opened and is not closed. *)
Lemma failure_leaves_browser_open_witness :
  (forall calls e', Browser.offline calls Browser.quit <> Browser.Raises e')
  /\ Browser.get_html string Browser.offline []
     = (Browser.Raises "WebDriverException",
        [Browser.Edge; Browser.get Browser.URL])
  /\ exists calls,
       [Browser.Edge; Browser.get Browser.URL] = [] ++ calls
       /\ ~ In Browser.quit calls.
Proof.
  assert (forall calls e',
             Browser.offline calls Browser.quit <> Browser.Raises e') as Hq
    by (intros calls e'; discriminate).
  assert (Browser.get_html string Browser.offline []
          = (Browser.Raises "WebDriverException",
             [Browser.Edge; Browser.get Browser.URL])) as H by reflexivity.
  split; [exact Hq|]. split; [exact H|].
  exact (failure_leaves_browser_open string Browser.offline []
           "WebDriverException" [Browser.Edge; Browser.get Browser.URL] Hq H).
Defined.

(** ** The columns of a written row *)

Lemma outside_app P : forall a b q,
  outside P q (a ++ b)
  = let '(q1, n) := outside P q a in
    let '(q2, m) := outside P q1 b in (q2, (n + m)%nat).
Proof.
  induction a as [|c a IH]; intros b q; cbn [append outside].
  - now destruct (outside P q b).
  - destruct (Ascii.eqb c Csv.quotechar); [apply IH|].
    rewrite IH. destruct (outside P q a) as [q1 n].
    destruct (outside P q1 b) as [q2 m].
    now destruct (negb q && P c).
Qed.

Lemma outside_plain P s q :
  (forall c, P c = true -> Csv.special c = true) ->
  Csv.needs_quotes s = false -> outside P q s = (q, O).
Proof.
  intros HP. induction s as [|c s IH]; cbn [Csv.needs_quotes outside];
    [reflexivity|].
  rewrite orb_false_iff. intros [Hc Hs]. rewrite (IH Hs).
  assert (Ascii.eqb c Csv.quotechar = false) as ->.
  { unfold Csv.special in Hc. rewrite !orb_false_iff in Hc. tauto. }
  destruct (P c) eqn:E; [|now rewrite andb_false_r].
  rewrite (HP c E) in Hc. discriminate.
Qed.

Lemma outside_body P s :
  outside P true
    (Str.replace Csv.quotechar
       (String Csv.quotechar (String Csv.quotechar EmptyString)) s)
  = (true, O).
Proof.
  induction s as [|c s IH]; cbn [Str.replace]; [reflexivity|].
  destruct (Ascii.eqb c Csv.quotechar) eqn:E.
  - cbn [append outside]. rewrite Ascii.eqb_refl. cbn [negb]. exact IH.
  - cbn [outside]. now rewrite E, IH.
Qed.

Lemma outside_quoted P s :
  (forall c, P c = true -> Csv.special c = true) ->
  outside P false (Csv.quoted s) = (false, O).
Proof.
  intros HP. unfold Csv.quoted. destruct (Csv.needs_quotes s) eqn:E.
  - cbn [outside]. rewrite Ascii.eqb_refl. cbn [negb].
    rewrite outside_app, outside_body. cbn [outside].
    now rewrite Ascii.eqb_refl.
  - now apply outside_plain.
Qed.

Lemma outside_row P (fields : list string) :
  (forall c, P c = true -> Csv.special c = true) ->
  outside P false (Csv.format_row fields)
  = (false, if P Csv.delimiter then (List.length fields - 1)%nat else O).
Proof.
  intros HP. unfold Csv.format_row.
  induction fields as [|f fields IH].
  - cbn. now destruct (P Csv.delimiter).
  - destruct fields as [|g fields].
    + cbn [map Str.join List.length]. rewrite (outside_quoted P f HP).
      now destruct (P Csv.delimiter).
    + change (Str.join (String Csv.delimiter EmptyString)
                (map Csv.quoted (f :: g :: fields)))
        with (Csv.quoted f ++ String Csv.delimiter
                (Str.join (String Csv.delimiter EmptyString)
                   (map Csv.quoted (g :: fields))))%string.
      rewrite outside_app, (outside_quoted P f HP).
      cbn [outside]. rewrite IH.
      change (Ascii.eqb Csv.delimiter Csv.quotechar) with false.
      cbn [negb andb List.length]. destruct (P Csv.delimiter); f_equal; lia.
Qed.

(** X15: whatever the names are, every row of the file a run has written
    reads back as one line of three columns: outside quotes it has two
    delimiters and no line break, and it ends outside quotes.  A
    semicolon, a quote or a line break in a coin name stays inside the
    name's column. *)
Theorem rows_keep_their_columns float_repr w coins_info :
  get_content (get_html w) = Ok coins_info ->
  exists file,
    snd (write_cmc_top float_repr w) (filename_of (now w)) = Some file
    /\ List.length file = S (List.length coins_info)
    /\ forall row,
         In row file ->
         outside is_delimiter false row = (false, 2%nat)
         /\ outside is_line_break false row = (false, O).
Proof.
  assert (forall fields : list string,
             List.length fields = 3%nat ->
             outside is_delimiter false (Csv.format_row fields)
             = (false, 2%nat)
             /\ outside is_line_break false (Csv.format_row fields)
                = (false, O)) as Three.
  { intros fields L. split.
    - rewrite (outside_row is_delimiter), L.
      + unfold is_delimiter. now rewrite Ascii.eqb_refl.
      + intros c Hc. unfold Csv.special, is_delimiter in *. now rewrite Hc.
    - rewrite (outside_row is_line_break); [reflexivity|].
      intros c Hc. unfold Csv.special, is_line_break in *.
      rewrite Hc. now rewrite orb_true_r. }
  intros H. unfold write_cmc_top. rewrite H. cbn [snd]. rewrite store_same.
  eexists. split; [reflexivity|]. rewrite writerows. split.
  - rewrite length_app, length_map. reflexivity.
  - unfold Csv.writerow. cbn [app]. intros row [<-|Hin].
    + exact (Three ["Name"; "MC"; "MP"] eq_refl).
    + apply in_map_iff in Hin.
      destruct Hin as ([[coin_name coin_cap] pct] & <- & _). now apply Three.
Qed.

(** A name with a semicolon in it is written between quotes. *)
Lemma rows_keep_their_columns_witness :
  get_content
    (get_html
       (sample_world
          (page_of [name_tag_of "Bitcoin; wrapped"; cap_tag_of "$5"])))
  = Ok [("Bitcoin; wrapped", Float.of_Z 5, Float.of_Z 100)]
  /\ snd (write_cmc_top sample_repr
            (sample_world
               (page_of [name_tag_of "Bitcoin; wrapped"; cap_tag_of "$5"])))
       "Top100 09.05 07.03.2024.csv"
     = Some ["Name;MC;MP";
             (String Csv.quotechar "Bitcoin; wrapped"
              ++ String Csv.quotechar ";1.0;1.0")%string]
  /\ exists file,
       snd (write_cmc_top sample_repr
              (sample_world
                 (page_of [name_tag_of "Bitcoin; wrapped"; cap_tag_of "$5"])))
         (filename_of
            (now (sample_world
                    (page_of
                       [name_tag_of "Bitcoin; wrapped"; cap_tag_of "$5"]))))
       = Some file
       /\ List.length file = 2%nat
       /\ forall row,
            In row file ->
            outside is_delimiter false row = (false, 2%nat)
            /\ outside is_line_break false row = (false, O).
Proof.
  assert (get_content
            (get_html
               (sample_world
                  (page_of [name_tag_of "Bitcoin; wrapped"; cap_tag_of "$5"])))
          = Ok [("Bitcoin; wrapped", Float.of_Z 5, Float.of_Z 100)]) as H
    by (vm_compute; reflexivity).
  split; [exact H|]. split; [vm_compute; reflexivity|].
  exact (rows_keep_their_columns sample_repr
           (sample_world
              (page_of [name_tag_of "Bitcoin; wrapped"; cap_tag_of "$5"]))
           _ H).
Defined.

(** ** What extraction reads of the page *)

(** X16: extraction reads the page only through the texts of the name and
    capitalization elements of its first table body: two pages whose
    table bodies give the same texts of name elements and the same texts
    of capitalization elements, each in the same order, have the same
    outcome, the same records or the same exception, whatever else of
    them differs. *)
Theorem outcome_depends_on_texts html1 html2 table1 table2 :
  find "tbody" (BeautifulSoup html1) = Some table1 ->
  find "tbody" (BeautifulSoup html2) = Some table2 ->
  map text (coin_name_tags table1) = map text (coin_name_tags table2) ->
  map text (capitalization_tags table1)
  = map text (capitalization_tags table2) ->
  get_content html1 = get_content html2.
Proof.
  intros H1 H2 Hn Hc.
  unfold get_content. rewrite H1, H2.
  assert (forall caps1 caps2 total,
            map text caps1 = map text caps2 ->
            for_acc add_cap caps1 total = for_acc add_cap caps2 total) as L1.
  { induction caps1 as [|a caps1 IH]; intros [|b caps2] total E;
      try discriminate; [reflexivity|].
    cbn in E. injection E as Ea Es. cbn. unfold add_cap at 1 3, cap_str.
    rewrite Ea. destruct (float (clean (text b))); cbn; auto. }
  assert (forall total names1 names2 caps1 caps2,
            map text names1 = map text names2 ->
            map text caps1 = map text caps2 ->
            for_append (coin_row total) (combine names1 caps1)
            = for_append (coin_row total) (combine names2 caps2)) as L2.
  { intros total. induction names1 as [|n1 names1 IH];
      intros [|n2 names2] caps1 caps2 En Ec; try discriminate; [reflexivity|].
    destruct caps1 as [|a caps1], caps2 as [|b caps2]; try discriminate;
      [reflexivity|].
    cbn in En, Ec. injection En as En1 Ens. injection Ec as Ec1 Ecs.
    cbn [combine for_append]. unfold coin_row at 1 3, cap_str.
    rewrite En1, Ec1, (IH _ _ _ Ens Ecs). reflexivity. }
  rewrite (L1 _ _ _ Hc).
  destruct (for_acc add_cap (capitalization_tags table2) (Float.of_Z 0));
    cbn; [now apply L2 | reflexivity].
Qed.

(** The three rows in a table of rows and cells, and the same elements
    laid out flat under the table body, give the same records. *)
Lemma outcome_depends_on_texts_witness :
  find "tbody" (BeautifulSoup (page_of three_rows)) = Some (table_of three_rows)
  /\ find "tbody" (BeautifulSoup (page_of flat_rows))
     = Some (table_of flat_rows)
  /\ map text (coin_name_tags (table_of three_rows))
     = map text (coin_name_tags (table_of flat_rows))
  /\ map text (capitalization_tags (table_of three_rows))
     = map text (capitalization_tags (table_of flat_rows))
  /\ three_rows <> flat_rows
  /\ get_content (page_of three_rows) = get_content (page_of flat_rows).
Proof.
  assert (find "tbody" (BeautifulSoup (page_of three_rows))
          = Some (table_of three_rows)) as H1 by reflexivity.
  assert (find "tbody" (BeautifulSoup (page_of flat_rows))
          = Some (table_of flat_rows)) as H2 by reflexivity.
  assert (map text (coin_name_tags (table_of three_rows))
          = map text (coin_name_tags (table_of flat_rows))) as Hn
    by reflexivity.
  assert (map text (capitalization_tags (table_of three_rows))
          = map text (capitalization_tags (table_of flat_rows))) as Hc
    by reflexivity.
  split; [exact H1|]. split; [exact H2|]. split; [exact Hn|].
  split; [exact Hc|]. split; [discriminate|].
  exact (outcome_depends_on_texts _ _ _ _ H1 H2 Hn Hc).
Defined.

(** ** The calls of a run *)

Lemma opened_app a b : Io.opened (a ++ b) = Io.opened a ++ Io.opened b.
Proof.
  induction a as [|c a IH]; [reflexivity|].
  destruct c; cbn [app Io.opened]; now rewrite IH.
Qed.

Lemma opened_browser calls : Io.opened (map Io.browser calls) = [].
Proof. induction calls as [|c calls IH]; [reflexivity | exact IH]. Qed.

Lemma opened_write lines : Io.opened (map Io.write lines) = [].
Proof. induction lines as [|l lines IH]; [reflexivity | exact IH]. Qed.

Lemma opened_prelude : Io.opened Io.prelude = [].
Proof. unfold Io.prelude. now rewrite opened_app, opened_browser. Qed.

Lemma written_app a b :
  Io.written (a ++ b) = (Io.written a ++ Io.written b)%string.
Proof.
  induction a as [|c a IH]; [reflexivity|].
  destruct c; cbn [app Io.written]; rewrite IH; try reflexivity.
  now rewrite append_assoc.
Qed.

Lemma written_browser calls : Io.written (map Io.browser calls) = EmptyString.
Proof. induction calls as [|c calls IH]; [reflexivity | exact IH]. Qed.

(** Lines written one after the other are the characters of the file. *)
Lemma written_lines rows :
  Io.written
    (map Io.write (map (fun r => (r ++ Csv.lineterminator)%string) rows))
  = Csv.contents rows.
Proof.
  induction rows as [|r rows IH]; [reflexivity|].
  cbn [map Io.written Csv.contents fold_right].
  fold (Csv.contents rows). now rewrite IH, append_assoc.
Qed.

Lemma lines_rows float_repr coins_info :
  Io.lines float_repr coins_info
  = map (fun r => (r ++ Csv.lineterminator)%string)
      (rows_of float_repr coins_info).
Proof.
  unfold Io.lines, rows_of. cbn [map]. rewrite map_map. reflexivity.
Qed.

Section IoRun.

Variable error : Type.
Variable float_repr : Float.float -> string.
Variable page : list Io.call -> Browser.call -> Browser.outcome error markup.
Variable clock : list Io.call -> datetime.
Variable file : list Io.call -> Io.call -> option error.

Lemma io_get_html_run trace r trace1 :
  Io.get_html error page trace = (r, trace1) ->
  match r with
  | Browser.Returns html_text =>
      trace1 = trace ++ map Io.browser Browser.session
      /\ page (trace ++ map Io.browser Browser.loading) Browser.page_source
         = Browser.Returns html_text
  | Browser.Raises e =>
      exists k,
        (k < List.length Browser.session)%nat
        /\ trace1 = trace ++ map Io.browser (firstn (S k) Browser.session)
  end.
Proof.
  unfold Io.get_html.
  destruct (Browser.get_html error
              (fun h c => page (trace ++ map Io.browser h) c) [])
    as [r' calls] eqn:E.
  intros H. injection H as <- <-. apply get_html_run in E.
  destruct r' as [html_text|e].
  - destruct E as [-> E]. cbn [app] in *. auto.
  - destruct E as (k & Hk & -> & _). cbn [app]. eauto.
Qed.

Lemma writerows_run coins_info : forall trace r trace1,
  Io.writerows error float_repr file coins_info trace = (r, trace1) ->
  exists k,
    (k <= List.length coins_info)%nat
    /\ trace1
       = trace
         ++ map Io.write
              (firstn k
                 (map (fun coin_info =>
                         Io.line_of (fields_of float_repr coin_info))
                    coins_info))
    /\ (r = None -> k = List.length coins_info).
Proof.
  induction coins_info as [|coin_info rest IH]; intros trace r trace1 H.
  - cbn in H. injection H as <- <-. exists 0%nat.
    cbn. rewrite app_nil_r. auto.
  - cbn [Io.writerows] in H. unfold Io.writerow, Io.perform in H.
    destruct (file trace
                (Io.write (Io.line_of (fields_of float_repr coin_info))))
      as [e|].
    + injection H as <- <-. exists 1%nat. cbn [List.length map firstn].
      split; [lia|]. split; [reflexivity | discriminate].
    + apply IH in H. destruct H as (k & Hk & -> & Hr). exists (S k).
      cbn [List.length map firstn]. rewrite <- app_assoc.
      split; [lia|]. split; [reflexivity|]. intros E. now rewrite (Hr E).
Qed.

Lemma write_all_run coins_info trace r trace1 :
  Io.write_all error float_repr file coins_info trace = (r, trace1) ->
  exists k,
    (k <= S (List.length coins_info))%nat
    /\ trace1
       = trace ++ map Io.write (firstn k (Io.lines float_repr coins_info))
    /\ (r = None -> k = S (List.length coins_info)).
Proof.
  unfold Io.write_all, Io.writerow, Io.perform, Io.lines. intros H.
  destruct (file trace (Io.write (Io.line_of ["Name"; "MC"; "MP"]))) as [e|].
  - injection H as <- <-. exists 1%nat. cbn [map firstn].
    split; [lia|]. split; [reflexivity | discriminate].
  - apply writerows_run in H. destruct H as (k & Hk & -> & Hr). exists (S k).
    cbn [map firstn]. rewrite <- app_assoc.
    split; [lia|]. split; [reflexivity|]. intros E. now rewrite (Hr E).
Qed.

(** The four ways a run goes: the browser fails; extraction raises; the
    file cannot be opened; or the file is opened, some lines are written
    and the file is closed. *)
Lemma write_cmc_top_run trace o trace1 :
  Io.write_cmc_top error float_repr page clock file trace = (o, trace1) ->
  (exists e k,
      o = Io.Failed e
      /\ trace1 = trace ++ map Io.browser (firstn (S k) Browser.session))
  \/ (exists html_text,
        page (trace ++ map Io.browser Browser.loading) Browser.page_source
        = Browser.Returns html_text
        /\ ((exists e,
                get_content html_text = Raise e
                /\ o = Io.Raised e
                /\ trace1 = trace ++ map Io.browser Browser.session)
            \/ exists coins_info filename,
                 get_content html_text = Ok coins_info
                 /\ filename
                    = filename_of
                        (clock (trace ++ map Io.browser Browser.session))
                 /\ ((exists e,
                         file (trace ++ Io.prelude) (Io.open filename "w")
                         = Some e
                         /\ o = Io.Failed e
                         /\ trace1
                            = trace ++ Io.prelude ++ [Io.open filename "w"])
                     \/ exists k,
                          file (trace ++ Io.prelude) (Io.open filename "w")
                          = None
                          /\ (k <= S (List.length coins_info))%nat
                          /\ trace1
                             = trace ++ Io.prelude
                               ++ Io.open filename "w"
                                  :: map Io.write
                                       (firstn k
                                          (Io.lines float_repr coins_info))
                               ++ [Io.close]
                          /\ (o = Io.Done -> k = S (List.length coins_info))
                          /\ (o = Io.Done \/ exists e, o = Io.Failed e)))).
Proof.
  unfold Io.write_cmc_top. intros H.
  destruct (Io.get_html error page trace) as [[html_text|e] t1] eqn:G;
    apply io_get_html_run in G.
  2:{ destruct G as (k & _ & ->). injection H as <- <-. left.
      exists e, k. split; reflexivity. }
  destruct G as [-> Hp]. right. exists html_text. split; [exact Hp|].
  destruct (get_content html_text) as [coins_info|e] eqn:C.
  2:{ injection H as <- <-. left. exists e.
      split; [reflexivity|]. split; reflexivity. }
  right.
  set (filename :=
         filename_of (clock (trace ++ map Io.browser Browser.session))) in *.
  exists coins_info, filename. split; [reflexivity|]. split; [reflexivity|].
  unfold Io.with_open, Io.perform in H.
  rewrite <- app_assoc in H. fold Io.prelude in H.
  destruct (file (trace ++ Io.prelude) (Io.open filename "w")) as [e|] eqn:O.
  { injection H as <- <-. left. exists e. rewrite <- app_assoc.
    split; [reflexivity|]. split; reflexivity. }
  right.
  destruct (Io.write_all error float_repr file coins_info _) as [r t2] eqn:W.
  apply write_all_run in W. destruct W as (k & Hk & -> & Hr).
  exists k. split; [reflexivity|]. split; [exact Hk|].
  destruct (file _ Io.close) as [e|].
  - injection H as <- <-. rewrite <- !app_assoc. cbn [app].
    split; [reflexivity|]. split; [discriminate | right; now exists e].
  - destruct r as [e|]; injection H as <- <-; rewrite <- !app_assoc;
      cbn [app]; (split; [reflexivity|]); split.
    + discriminate.
    + right. now exists e.
    + intros _. now apply Hr.
    + now left.
Qed.

End IoRun.



(** X17: the file is closed however the writing goes: in a run that has
    opened the file, [close] is the last call, also when a [write] raised;
    the one run that ends on the [open] is the run whose [open] raised. *)
Theorem opened_file_is_closed error float_repr page clock file trace o calls
    filename mode :
  Io.write_cmc_top error float_repr page clock file trace
  = (o, trace ++ calls) ->
  In (Io.open filename mode) calls ->
  last calls Io.now = Io.close
  \/ (last calls Io.now = Io.open filename mode
      /\ exists e,
           file (trace ++ Io.prelude) (Io.open filename mode) = Some e
           /\ o = Io.Failed e).
Proof.
  assert (forall l, ~ In (Io.open filename mode) (map Io.browser l)) as Hb.
  { intros l Hin. apply in_map_iff in Hin. destruct Hin as (c & E & _).
    discriminate. }
  intros H Hin. apply write_cmc_top_run in H.
  destruct H as [(e & k & -> & E)|(html_text & _ & H)].
  { apply app_inv_head in E. subst calls. now apply Hb in Hin. }
  destruct H as [(e & _ & -> & E)|(coins_info & f & _ & -> & H)].
  { apply app_inv_head in E. subst calls. now apply Hb in Hin. }
  destruct H as [(e & O & -> & E)|(k & _ & _ & E & _)];
    apply app_inv_head in E; subst calls.
  - right. rewrite last_last. unfold Io.prelude in Hin.
    rewrite !in_app_iff in Hin. destruct Hin as [[Hin|Hin]|Hin].
    + now apply Hb in Hin.
    + destruct Hin as [Hin|[]]. discriminate.
    + destruct Hin as [Hin|[]]. injection Hin as <- <-.
      split; [reflexivity|]. now exists e.
  - left. rewrite app_comm_cons, app_assoc. apply last_last.
Qed.

(** A full disk: the header is not written, and the file is closed. *)
Lemma opened_file_is_closed_witness :
  Io.write_cmc_top string sample_repr (Io.showing (page_of three_rows))
    Io.standing Io.full []
  = (Io.Failed "OSError",
     [] ++ Io.prelude
     ++ [Io.open "Top100 09.05 07.03.2024.csv" "w";
         Io.write (Io.line_of ["Name"; "MC"; "MP"]); Io.close])
  /\ In (Io.open "Top100 09.05 07.03.2024.csv" "w")
       (Io.prelude
        ++ [Io.open "Top100 09.05 07.03.2024.csv" "w";
            Io.write (Io.line_of ["Name"; "MC"; "MP"]); Io.close])
  /\ (last (Io.prelude
            ++ [Io.open "Top100 09.05 07.03.2024.csv" "w";
                Io.write (Io.line_of ["Name"; "MC"; "MP"]); Io.close])
        Io.now = Io.close
      \/ (last (Io.prelude
                ++ [Io.open "Top100 09.05 07.03.2024.csv" "w";
                    Io.write (Io.line_of ["Name"; "MC"; "MP"]); Io.close])
            Io.now = Io.open "Top100 09.05 07.03.2024.csv" "w"
          /\ exists e,
               Io.full ([] ++ Io.prelude)
                 (Io.open "Top100 09.05 07.03.2024.csv" "w") = Some e
               /\ Io.Failed "OSError" = Io.Failed e)).
Proof.
  assert (Io.write_cmc_top string sample_repr (Io.showing (page_of three_rows))
            Io.standing Io.full []
          = (Io.Failed "OSError",
             [] ++ Io.prelude
             ++ [Io.open "Top100 09.05 07.03.2024.csv" "w";
                 Io.write (Io.line_of ["Name"; "MC"; "MP"]); Io.close])) as H
    by (vm_compute; reflexivity).
  assert (In (Io.open "Top100 09.05 07.03.2024.csv" "w")
            (Io.prelude
             ++ [Io.open "Top100 09.05 07.03.2024.csv" "w";
                 Io.write (Io.line_of ["Name"; "MC"; "MP"]); Io.close])) as Hin
    by (apply in_or_app; right; left; reflexivity).
  split; [exact H|]. split; [exact Hin|].
  exact (opened_file_is_closed string sample_repr
           (Io.showing (page_of three_rows)) Io.standing Io.full
           [] _ _ _ _ H Hin).
Defined.

(** X18: a run that ends well has written, through the calls of
    [csv.writer], the characters of the file that the run stores: the
    page is the one the browser showed after the last scroll, the time
    the one the clock read after the session, the one file opened is the
    file of that time, and the lines written one after the other are the
    rows of the stored file, each with its line terminator. *)
Theorem written_characters error float_repr page clock file trace calls :
  Io.write_cmc_top error float_repr page clock file trace
  = (Io.Done, trace ++ calls) ->
  exists html_text t,
    page (trace ++ map Io.browser Browser.loading) Browser.page_source
    = Browser.Returns html_text
    /\ t = clock (trace ++ map Io.browser Browser.session)
    /\ Io.opened calls = [(filename_of t, "w")]
    /\ forall fs, exists stored,
         write_cmc_top float_repr (Build_world html_text t fs)
         = (Ok tt, store (filename_of t) stored fs)
         /\ snd (write_cmc_top float_repr (Build_world html_text t fs))
              (filename_of t) = Some stored
         /\ Io.written calls = Csv.contents stored.
Proof.
  intros H. apply write_cmc_top_run in H.
  destruct H as [(e & k & E & _)|(html_text & Hp & H)]; [discriminate|].
  destruct H as [(e & _ & E & _)|(coins_info & f & C & -> & H)];
    [discriminate|].
  destruct H as [(e & _ & E & _)|(k & _ & _ & E & Hk & _)]; [discriminate|].
  apply app_inv_head in E. subst calls. rewrite (Hk eq_refl).
  assert (firstn (S (List.length coins_info)) (Io.lines float_repr coins_info)
          = Io.lines float_repr coins_info) as ->.
  { apply firstn_all2. unfold Io.lines. cbn [List.length].
    rewrite length_map. lia. }
  exists html_text, (clock (trace ++ map Io.browser Browser.session)).
  split; [exact Hp|]. split; [reflexivity|]. split.
  - rewrite opened_app, opened_prelude. cbn [Io.opened app].
    now rewrite opened_app, opened_write.
  - intros fs. exists (rows_of float_repr coins_info).
    rewrite (write_cmc_top_ok float_repr (Build_world html_text _ fs)
               coins_info C).
    cbn [snd now files]. split; [reflexivity|]. split; [apply store_same|].
    rewrite written_app. unfold Io.prelude.
    rewrite written_app, written_browser. cbn [Io.written append].
    rewrite written_app, lines_rows, written_lines. cbn [Io.written].
    apply append_nil_r.
Qed.

(** The page of three rows on a file system that takes everything. *)
Lemma written_characters_witness :
  Io.write_cmc_top string sample_repr (Io.showing (page_of three_rows))
    Io.standing Io.sound []
  = (Io.Done,
     [] ++ Io.prelude
     ++ Io.open "Top100 09.05 07.03.2024.csv" "w"
        :: map Io.write
             (Io.lines sample_repr
                [("Bitcoin", Float.of_Z 100, Float.of_Z 10);
                 ("Ethereum", Float.of_Z 300, Float.of_Z 30);
                 ("Tether", Float.of_Z 600, Float.of_Z 60)])
        ++ [Io.close])
  /\ Io.written
       (Io.prelude
        ++ Io.open "Top100 09.05 07.03.2024.csv" "w"
           :: map Io.write
                (Io.lines sample_repr
                   [("Bitcoin", Float.of_Z 100, Float.of_Z 10);
                    ("Ethereum", Float.of_Z 300, Float.of_Z 30);
                    ("Tether", Float.of_Z 600, Float.of_Z 60)])
           ++ [Io.close])
     = Csv.contents
         ["Name;MC;MP"; "Bitcoin;1.0;1.0"; "Ethereum;1.0;1.0";
          "Tether;1.0;1.0"]
  /\ exists html_text t,
       Io.showing (page_of three_rows)
         ([] ++ map Io.browser Browser.loading) Browser.page_source
       = Browser.Returns html_text
       /\ t = Io.standing ([] ++ map Io.browser Browser.session)
       /\ Io.opened
            (Io.prelude
             ++ Io.open "Top100 09.05 07.03.2024.csv" "w"
                :: map Io.write
                     (Io.lines sample_repr
                        [("Bitcoin", Float.of_Z 100, Float.of_Z 10);
                         ("Ethereum", Float.of_Z 300, Float.of_Z 30);
                         ("Tether", Float.of_Z 600, Float.of_Z 60)])
                ++ [Io.close])
          = [(filename_of t, "w")]
       /\ forall fs, exists stored,
            write_cmc_top sample_repr (Build_world html_text t fs)
            = (Ok tt, store (filename_of t) stored fs)
            /\ snd (write_cmc_top sample_repr (Build_world html_text t fs))
                 (filename_of t) = Some stored
            /\ Io.written
                 (Io.prelude
                  ++ Io.open "Top100 09.05 07.03.2024.csv" "w"
                     :: map Io.write
                          (Io.lines sample_repr
                             [("Bitcoin", Float.of_Z 100, Float.of_Z 10);
                              ("Ethereum", Float.of_Z 300, Float.of_Z 30);
                              ("Tether", Float.of_Z 600, Float.of_Z 60)])
                     ++ [Io.close])
               = Csv.contents stored.
Proof.
  assert (Io.write_cmc_top string sample_repr (Io.showing (page_of three_rows))
            Io.standing Io.sound []
          = (Io.Done,
             [] ++ Io.prelude
             ++ Io.open "Top100 09.05 07.03.2024.csv" "w"
                :: map Io.write
                     (Io.lines sample_repr
                        [("Bitcoin", Float.of_Z 100, Float.of_Z 10);
                         ("Ethereum", Float.of_Z 300, Float.of_Z 30);
                         ("Tether", Float.of_Z 600, Float.of_Z 60)])
                ++ [Io.close])) as H
    by (vm_compute; reflexivity).
  split; [exact H|]. split; [vm_compute; reflexivity|].
  exact (written_characters string sample_repr
           (Io.showing (page_of three_rows)) Io.standing Io.sound [] _ H).
Defined.

Lemma done_written error float_repr page clock file trace calls :
  Io.write_cmc_top error float_repr page clock file trace
  = (Io.Done, trace ++ calls) ->
  exists html_text coins_info,
    page (trace ++ map Io.browser Browser.loading) Browser.page_source
    = Browser.Returns html_text
    /\ get_content html_text = Ok coins_info
    /\ Io.written calls = Csv.contents (rows_of float_repr coins_info).
Proof.
  intros H. apply write_cmc_top_run in H.
  destruct H as [(e & k & E & _)|(html_text & Hp & H)]; [discriminate|].
  destruct H as [(e & _ & E & _)|(coins_info & f & C & -> & H)];
    [discriminate|].
  destruct H as [(e & _ & E & _)|(k & _ & _ & E & Hk & _)]; [discriminate|].
  apply app_inv_head in E. subst calls. rewrite (Hk eq_refl).
  assert (firstn (S (List.length coins_info)) (Io.lines float_repr coins_info)
          = Io.lines float_repr coins_info) as ->.
  { apply firstn_all2. unfold Io.lines. cbn [List.length].
    rewrite length_map. lia. }
  exists html_text, coins_info. split; [exact Hp|]. split; [exact C|].
  rewrite written_app. unfold Io.prelude.
  rewrite written_app, written_browser. cbn [Io.written append].
  rewrite written_app, lines_rows, written_lines. cbn [Io.written].
  apply append_nil_r.
Qed.

(** X19: what a run writes depends on the outside only through the page:
    two runs that end well and whose browsers returned the same page have
    written the same characters, whatever their clocks read, whatever the
    calls made before them and however their browsers and file systems
    answered otherwise.  The clock decides the name of the file and
    nothing in it. *)
Theorem rows_depend_on_page_only error float_repr html_text
    page1 clock1 file1 trace1 calls1 page2 clock2 file2 trace2 calls2 :
  Io.write_cmc_top error float_repr page1 clock1 file1 trace1
  = (Io.Done, trace1 ++ calls1) ->
  Io.write_cmc_top error float_repr page2 clock2 file2 trace2
  = (Io.Done, trace2 ++ calls2) ->
  page1 (trace1 ++ map Io.browser Browser.loading) Browser.page_source
  = Browser.Returns html_text ->
  page2 (trace2 ++ map Io.browser Browser.loading) Browser.page_source
  = Browser.Returns html_text ->
  Io.written calls1 = Io.written calls2.
Proof.
  intros H1 H2 P1 P2.
  apply done_written in H1. destruct H1 as (h1 & cs1 & Q1 & C1 & ->).
  apply done_written in H2. destruct H2 as (h2 & cs2 & Q2 & C2 & ->).
  rewrite P1 in Q1. rewrite P2 in Q2.
  injection Q1 as <-. injection Q2 as <-.
  rewrite C1 in C2. injection C2 as <-. reflexivity.
Qed.

(** Two runs on the page of three rows, ten months apart, the second
    started after other calls. *)
Lemma rows_depend_on_page_only_witness :
  Io.opened
    (snd (Io.write_cmc_top string sample_repr (Io.showing (page_of three_rows))
            Io.standing Io.sound []))
  <> Io.opened
       (snd (Io.write_cmc_top string sample_repr
               (Io.showing (page_of three_rows)) Io.later Io.sound [Io.close]))
  /\ Io.written
       (Io.prelude
        ++ Io.open "Top100 09.05 07.03.2024.csv" "w"
           :: map Io.write
                (Io.lines sample_repr
                   [("Bitcoin", Float.of_Z 100, Float.of_Z 10);
                    ("Ethereum", Float.of_Z 300, Float.of_Z 30);
                    ("Tether", Float.of_Z 600, Float.of_Z 60)])
           ++ [Io.close])
     = Io.written
         (Io.prelude
          ++ Io.open "Top100 23.59 31.12.2024.csv" "w"
             :: map Io.write
                  (Io.lines sample_repr
                     [("Bitcoin", Float.of_Z 100, Float.of_Z 10);
                      ("Ethereum", Float.of_Z 300, Float.of_Z 30);
                      ("Tether", Float.of_Z 600, Float.of_Z 60)])
             ++ [Io.close]).
Proof.
  split; [vm_compute; discriminate|].
  assert (Io.write_cmc_top string sample_repr (Io.showing (page_of three_rows))
            Io.standing Io.sound []
          = (Io.Done,
             [] ++ Io.prelude
             ++ Io.open "Top100 09.05 07.03.2024.csv" "w"
                :: map Io.write
                     (Io.lines sample_repr
                        [("Bitcoin", Float.of_Z 100, Float.of_Z 10);
                         ("Ethereum", Float.of_Z 300, Float.of_Z 30);
                         ("Tether", Float.of_Z 600, Float.of_Z 60)])
                ++ [Io.close])) as H1
    by (vm_compute; reflexivity).
  assert (Io.write_cmc_top string sample_repr (Io.showing (page_of three_rows))
            Io.later Io.sound [Io.close]
          = (Io.Done,
             [Io.close] ++ Io.prelude
             ++ Io.open "Top100 23.59 31.12.2024.csv" "w"
                :: map Io.write
                     (Io.lines sample_repr
                        [("Bitcoin", Float.of_Z 100, Float.of_Z 10);
                         ("Ethereum", Float.of_Z 300, Float.of_Z 30);
                         ("Tether", Float.of_Z 600, Float.of_Z 60)])
                ++ [Io.close])) as H2
    by (vm_compute; reflexivity).
  exact (rows_depend_on_page_only string sample_repr (page_of three_rows)
           _ _ _ _ _ _ _ _ _ _ H1 H2 eq_refl eq_refl).
Defined.
